(* ===== verification/_CoqProject ===== *)
-Q . S2P
Prelude.v
PyDict.v
PyStr.v
Utf8.v
Xml.v
XmlParser.v
Storage.v
SqliteUtils.v
Extractor.v
XmlPipeline.v
LiveTree.v
Records.v
Workout.v
Convert.v
Columns.v
Database.v
Witnesses.v
