(* ===== verification/Prelude.v ===== *)
(** * healthkit-to-sqlite: a verification development

    The program ([src/healthkit_to_sqlite/utils.py]) converts an Apple
    Health export (one large XML document, optionally inside a zip with
    side-car GPX route files) into SQLite tables.  Its parts:

    - [find_all_tags] (lines 10-25), a generator: reads the document in
      1 MiB chunks, feeds an [XMLPullParser], yields [(tag, el)] for each
      closing element whose tag is of interest, clears the root after
      every event and calls the progress callback with each chunk's size;
    - [convert_xml_to_sqlite] (lines 28-58), its consumer: buffers
      ActivitySummary rows (flushed at 100) and Record rows with their
      metadata (flushed through [write_records] at 200), numbers each
      Workout with [seq] and hands it to [workout_to_db] at once, then
      flushes Records, then summaries, then reports [sys.maxsize];
    - [workout_to_db] (lines 61-86): inserts the workout row with
      [hash_id="id"], collects its points (embedded [Location]s, or the
      points of each [FileReference] GPX file, opened by
      [open_file_or_zip] (89-93) and parsed by [parse_gpx] (96-99)) and
      writes them with a foreign key to the workout;
    - [write_records] (lines 102-119): routes each Record row by its
      popped [type] to a table [r<type without identifiers>] and issues
      one [insert_all] per table.

    ** How the development models it

    - [Prelude] (this file): the exceptions, [result], and the effect
      monad [M E A = list E * result A]: a trace of observable effects
      plus a normal or exceptional outcome, which is how the program's
      state (the database, the files opened, the progress callback)
      and its exceptions are threaded; the loop combinators [mfold]
      (a [for] loop over a list in [M]), [rfold] and [rmap] (in
      [result]); a Hoare-style predicate [mspec] on traces with its
      rules and the two loop-invariant lemmas [mfold_trace_inv] (for
      traces cut short by an exception too) and [mfold_Ok_inv].
    - [PyDict]: Python dicts as insertion-ordered association lists
      ([d.get], [d[k]], [d[k] = v], [d.pop], [setdefault(k, []).append]);
      [PyStr]: [str.replace] (with Python's semantics of the empty
      pattern), [str.split], [posixpath.join], universal newlines and
      [readline]; [Utf8]: the strict UTF-8 codec [TextIOWrapper] decodes
      a side-car file with, a [str] being represented by its UTF-8
      encoding.
    - [Xml]: ElementTree elements as a nested inductive, [findall] on a
      tag and a two-step path, the events of a document, and the
      [PullParser] class: the interface the extractor needs of the
      parser ([feed] then [read_events]: the events a chunk completes,
      then the new state or the error [feed] queued behind them), with
      a scripted instance.
    - [XmlParser]: an instance of [PullParser] modelling ElementTree on
      the markup an export uses: a lexer over bytes whose state carries
      from one chunk to the next, tags with quoted attributes and the
      predefined entities, and the tree builder with its stack of open
      elements and its errors; with [render], which writes a document
      as an export does.  [XmlPipeline] runs [find_all_tags] on it.
    - [Storage]: the [Collaborators] class (the key [insert] returns,
      the file system, gpxpy), the [effect]s recorded in the trace
      ([insert_all], [insert], file open, progress call) and the
      measures of a trace ([rows_written], [files_opened]).
    - [Extractor] models [find_all_tags] as a computation whose trace
      is the generator's items ([GYield] for a yield, [GProgress] for a
      callback call); [Records] models [write_records]; [Workout] models
      [workout_to_db], [open_file_or_zip], [parse_gpx]; [Convert]
      models the consumer: its three local variables are [conv_state],
      one iteration of its [for] loop is [convert_step], the code after
      the loop is [convert_finish].  The consumer folds over the
      generator's items; an exception of the generator is raised after
      the items it produced, as Python raises it at the next [next()].
    - [LiveTree] models what [Extractor] abstracts from: the element
      tree ElementTree's builder grows (a stack of open frames), the
      generator's [root.clear()] after every event and the consumer's
      [el.clear()] after every yield, the cleared element staying in
      its parent (both names alias one object).  Its refinement theorem
      shows that on export-shaped documents the live elements are the
      ones [Extractor] yields, so the theorems of [Convert] hold of the
      program with its memory release.
    - [SqliteUtils] models the storage layer the program writes to,
      sqlite-utils on SQLite, described by the specification only
      through its interface: a database of tables (columns and rows);
      [insert_all] as sqlite-utils runs it (the width assertion, the
      batch size [max(1, min(batch_size, 999 // width))], [chunks],
      creation of the table from the first chunk, one INSERT per chunk
      with the columns seen so far, SQLite's [OperationalError] on a
      column the table lacks, the [alter=True] repair, the [hash_id]
      digest and its UNIQUE key, a commit per chunk); [db_exec] runs the
      storage effects of a trace against a database until one raises.
      [Database] proves what the program's options mean there.
    - [Columns] shows that the rows handed to storage keep distinct
      column names, as Python's dicts do.
    - [Witnesses] runs the program on concrete exports.

    ** What is proved

    - Orchestrator ([Convert]): the [seq] numbers are 1..n in every run,
      however it ends (C1), which keeps two identical workouts from
      colliding on their [hash_id] key: a run into a new database never
      raises [IntegrityError] (C2, [Database]); every storage call
      respects its batch bound and options (C3), and the storage cuts
      each into INSERT statements of at most 50 rows, 100 for
      [activity_summary] (C4, [Database]).  Liveness (C5, [Database]):
      on an export-shaped document whose Records and Workouts are well
      formed, the run on the live builder's elements ends normally and
      the storage accepts every call of it, when the workout digests
      tell rows apart, rows have 1 to 999 columns, and each of the two
      tables written without [alter=True] receives rows of one key set
      (the condition C24 and C34 show to be needed).  For a run on a
      document, the summaries written are the document's, in order
      (C6), each record table receives the rows of the document's
      Records of its type, in order, whatever the batching (C7), and
      after a run the storage accepts, the database's record tables
      hold exactly those rows (C8, refinement against the storage
      model); progress is each chunk's length then [sys.maxsize] once
      (C9); a generator error stops the run before any flush (C10).
    - Extractor: refinement of the tree specification (the yields are
      exactly the interesting elements of the document at their
      closing, C11).  On the bytes of an export and the parser model
      ([XmlPipeline]): the same yields with no hypothesis on the parser
      (C12); a truncated export does not raise and yields a prefix
      (C13); a second document element raises after the first
      document's yields (C14).  Live tree: the memory release does not
      change the yields of an export (C15), the builder holds only the
      emptied root between top-level elements (C16), a root of interest
      is yielded emptied, so a one-Record document raises [KeyError]
      (C17); on export-shaped documents the whole conversion equals the
      consumer run on the live builder's yields (C18, composition).
      Progress calls (C19); the read loop terminates and consumes the
      whole input in chunks of at most 1 MiB (C20).
    - Workout assembler: every point carries the key of the workout row
      inserted before it (C21); the embedded and side-car paths
      (C22-C23); points with a field [workout_points] lacks make the run
      raise [OperationalError], the points being inserted without
      [alter=True] (C24, [Database]); the missing and undecodable
      side-car paths (C25-C26); metadata and its error order
      (C27-C28); a FileReference path is kept as written below the
      export directory, [..] components included (C29).
    - Record router: equivalence with a reference grouping (tables in
      the order of their first row, C30); schema on write: with
      [alter=True] every flush is accepted on any database and every
      column of its rows exists afterwards (C31, [Database]); absence
      of the [type] column and the missing-type error (C32-C33); a
      batch whose first Record has only its type makes sqlite-utils
      divide by zero (C34, [Database]); the identifiers are cut out of
      a type wherever they occur (C35).
    - Track parser adapter: a GPX file on one line is parsed as the
      empty text (C36).
    - Model lemmas that support these: the parser model reads a
      rendered export back as its events whatever the chunking
      ([XmlParser.xml_roundtrip_chunks]); the UTF-8 codec accepts
      exactly the encodings of scalar values
      ([Utf8.utf8_decode_spec]); the rows the program builds have
      distinct column names ([Columns]).

    ** Bounds and fuel

    [read_chunks], the [while True] loop of [find_all_tags], recurses
    on fuel and returns [None] when the fuel runs out, so that a loop
    that would not stop is told apart from one that does; [file_chunks]
    gives it the input's length plus one, which C20 shows enough: every
    round before the empty read consumes at least one byte.
    sqlite-utils' [chunks] is modelled with fuel too ([chunks_fuel]
    with the list's length: each round takes at least one row since the
    batch size is at least 1, [chunks_concat]).  [sys.maxsize] is
    [2^63-1], the value on a 64-bit build; [SQLITE_MAX_VARS] is 999,
    sqlite-utils' constant.  Buffer lengths are [nat]s compared with
    the code's thresholds; the workout counter is a [Z], as a Python
    int.

    ** Not modelled

    In the storage layer: column types and their inference, foreign-key
    enforcement (off by default in SQLite), the ASCII-case-insensitive
    comparison of column names (the model compares them exactly), the
    split of a statement that exceeds SQLite's variable limit (it only
    makes statements smaller), and the order of a new table's columns,
    which no theorem depends on.  The parts of XML an export does not
    use (character data, character references, CDATA, namespaces, a
    [>] inside an attribute value or a comment), gpxpy (an abstract
    function from text to points or an error), the text and tail of
    elements (the program never reads them), and the command-line entry
    point (not among the sources, pure I/O). *)

From stdpp Require Import base list strings sets.
From Stdlib Require Import ZArith Lia.

(** ** Python exceptions raised by the modelled code

    Every exception the source can raise on a path it really takes is a
    constructor: [KeyError] from [d[k]] and [dict.pop], [AttributeError]
    from a method called on [None] ([root.clear()] before the root is
    known, [item.get("path").split] with no [path] attribute),
    [TypeError] from [str + non-str], [UnicodeDecodeError] from reading a
    side-car file that is not UTF-8, the I/O and parse errors of the
    collaborators, and the errors the storage layer raises: SQLite's
    [OperationalError] and [IntegrityError], sqlite-utils' assertion on
    the width of a row, and [ZeroDivisionError] from its batch-size
    computation on a row without columns. *)
Inductive exn : Type :=
  | KeyError (key : string)
  | AttributeError (what : string)
  | TypeError (what : string)
  | FileNotFoundError (path : string)
  | XmlParseError (what : string)
  | UnicodeDecodeError (what : string)
  | GpxParseError (what : string)
  | OperationalError (what : string)
  | IntegrityError (what : string)
  | AssertionError (what : string)
  | ZeroDivisionError (what : string).

(** A computation that returns a value or raises. *)
Inductive result (A : Type) : Type :=
  | Ok (a : A)
  | Err (e : exn).
Arguments Ok {A} a.
Arguments Err {A} e.

Definition rbind {A B} (r : result A) (k : A -> result B) : result B :=
  match r with
  | Ok a => k a
  | Err e => Err e
  end.

(** ** The effect monad

    [M E A] is a writer monad over a trace of observable effects [E]
    (storage calls, file opens, progress callbacks) combined with
    exceptions.  An exception keeps the effects already performed: this
    is how the program behaves, since batches already written to the
    database are not rolled back when a later step raises. *)
Definition M (E A : Type) : Type := (list E * result A)%type.

Definition ret {E A} (a : A) : M E A := ([], Ok a).
Definition throw {E A} (e : exn) : M E A := ([], Err e).
Definition emit {E} (x : E) : M E unit := ([x], Ok tt).
Definition lift {E A} (r : result A) : M E A := ([], r).

Definition bind {E A B} (m : M E A) (k : A -> M E B) : M E B :=
  match m with
  | (t1, Ok a) => let '(t2, r) := k a in (t1 ++ t2, r)
  | (t1, Err e) => (t1, Err e)
  end.

Definition trace_of {E A} (m : M E A) : list E := fst m.
Definition outcome {E A} (m : M E A) : result A := snd m.

Declare Scope h2s_scope.
Delimit Scope h2s_scope with h2s.
Notation "x <- m ;; k" := (bind m (fun x => k))
  (at level 100, m at level 99, k at level 200) : h2s_scope.
Notation "m ;;; k" := (bind m (fun _ => k))
  (at level 100, k at level 200) : h2s_scope.
Notation "'let?' x ':=' r 'in' k" := (rbind r (fun x => k))
  (at level 10, x name, r at level 100, k at level 200) : h2s_scope.
Open Scope h2s_scope.

(** A Python [for] loop that threads a state [a] through the body. *)
Fixpoint mfold {E A B} (f : A -> B -> M E A) (a : A) (l : list B) : M E A :=
  match l with
  | [] => ret a
  | x :: l' => bind (f a x) (fun a' => mfold f a' l')
  end.

(** The same loop for a pure body that may raise. *)
Fixpoint rfold {A B} (f : A -> B -> result A) (a : A) (l : list B) : result A :=
  match l with
  | [] => Ok a
  | x :: l' => rbind (f a x) (fun a' => rfold f a' l')
  end.

(** A list comprehension whose element expression may raise. *)
Fixpoint rmap {A B} (f : A -> result B) (l : list A) : result (list B) :=
  match l with
  | [] => Ok []
  | x :: l' => rbind (f x) (fun y => rbind (rmap f l') (fun ys => Ok (y :: ys)))
  end.

(** stdpp makes [String.append] opaque to [simpl]; the string code of
    this development reasons by computation on it, so it is made to
    unfold when its first argument is a constructor. *)
Global Arguments String.append : simpl nomatch.

Create HintDb h2s discriminated.
Create Rewrite HintDb h2s_rw.

(** ** Monad laws and the shape of a bound computation *)

Lemma bind_ret_l {E A B} (a : A) (k : A -> M E B) : bind (ret a) k = k a.
Proof. unfold bind, ret. destruct (k a). reflexivity. Qed.

Lemma bind_ret_r {E A} (m : M E A) : bind m ret = m.
Proof. destruct m as [t [a|e]]; simpl; rewrite ?app_nil_r; reflexivity. Qed.

Lemma bind_assoc {E A B C} (m : M E A) (k : A -> M E B) (h : B -> M E C) :
  bind (bind m k) h = bind m (fun a => bind (k a) h).
Proof.
  destruct m as [t1 [a|e]]; simpl; [|reflexivity].
  destruct (k a) as [t2 [b|e]]; simpl; [|reflexivity].
  destruct (h b) as [t3 r]. rewrite app_assoc. reflexivity.
Qed.

Lemma bind_throw {E A B} (e : exn) (k : A -> M E B) : bind (throw e) k = throw e.
Proof. reflexivity. Qed.

Lemma trace_bind {E A B} (m : M E A) (k : A -> M E B) :
  trace_of (bind m k) =
  trace_of m ++ match outcome m with Ok a => trace_of (k a) | Err _ => [] end.
Proof.
  destruct m as [t [a|e]]; simpl; [|by rewrite app_nil_r].
  destruct (k a); reflexivity.
Qed.

Lemma outcome_bind {E A B} (m : M E A) (k : A -> M E B) :
  outcome (bind m k) = match outcome m with Ok a => outcome (k a) | Err e => Err e end.
Proof. destruct m as [t [a|e]]; simpl; [destruct (k a)|]; reflexivity. Qed.

Lemma bind_Ok_inv {E A B} (m : M E A) (k : A -> M E B) b :
  outcome (bind m k) = Ok b -> exists a, outcome m = Ok a /\ outcome (k a) = Ok b.
Proof. rewrite outcome_bind. destruct (outcome m); [eauto|discriminate]. Qed.

(** A computation that ends normally ran its first part to the end, and
    the effects of that part come first. *)
Lemma bind_Ok_prefix {E A B} (m : M E A) (k : A -> M E B) t b :
  bind m k = (t, Ok b) -> exists a, outcome m = Ok a /\ trace_of m `prefix_of` t.
Proof.
  destruct m as [t1 [a|e]]; cbn; [|by intros [= _ _]].
  destruct (k a) as [t2 r]. intros [= <- _]. exists a. split; [done|]. by exists t2.
Qed.

Lemma bind_Ok_eq {E A B} (t : list E) (a : A) (k : A -> M E B) :
  bind (t, Ok a) k = (t ++ trace_of (k a), outcome (k a)).
Proof. simpl. by destruct (k a). Qed.

Lemma bind_ext {E A B} (m : M E A) (k1 k2 : A -> M E B) :
  (forall a, k1 a = k2 a) -> bind m k1 = bind m k2.
Proof. intros H. destruct m as [t [a|e]]; simpl; [rewrite H|]; reflexivity. Qed.

Lemma mfold_app {E A B} (f : A -> B -> M E A) a l1 l2 :
  mfold f a (l1 ++ l2) = bind (mfold f a l1) (fun a' => mfold f a' l2).
Proof.
  revert a. induction l1 as [|x l1 IH]; intros a; cbn [mfold app].
  - by rewrite bind_ret_l.
  - rewrite bind_assoc. by apply bind_ext.
Qed.

Lemma rfold_app {A B} (f : A -> B -> result A) a l1 l2 :
  rfold f a (l1 ++ l2) = rbind (rfold f a l1) (fun a' => rfold f a' l2).
Proof.
  revert a. induction l1 as [|x l1 IH]; intros a; simpl; [done|].
  destruct (f a x); simpl; auto.
Qed.

Lemma rmap_app {A B} (f : A -> result B) l1 l2 :
  rmap f (l1 ++ l2) = rbind (rmap f l1) (fun ys1 => rbind (rmap f l2) (fun ys2 => Ok (ys1 ++ ys2))).
Proof.
  induction l1 as [|x l1 IH]; simpl; [by destruct (rmap f l2)|].
  destruct (f x) as [y|e]; simpl; [|done]. rewrite IH.
  destruct (rmap f l1) as [ys1|e]; simpl; [|done]. by destruct (rmap f l2).
Qed.

(** Composing two fallible maps, when the first succeeds. *)
Lemma rmap_rbind {A B C} (f : A -> result B) (g : B -> result C) l ys :
  rmap f l = Ok ys -> rmap (fun x => rbind (f x) g) l = rmap g ys.
Proof.
  revert ys. induction l as [|x l IH]; intros ys; simpl; [by intros [= <-]|].
  destruct (f x) as [y|e]; simpl; [|discriminate].
  destruct (rmap f l) as [ys'|e] eqn:Hl; simpl; [|discriminate]. intros [= <-]. simpl.
  rewrite (IH ys' eq_refl). done.
Qed.

Lemma rmap_Ok_length {A B} (f : A -> result B) l ys :
  rmap f l = Ok ys -> length ys = length l.
Proof.
  revert ys. induction l as [|x l IH]; intros ys; simpl; [by intros [= <-]|].
  destruct (f x); simpl; [|discriminate].
  destruct (rmap f l); simpl; [|discriminate]. intros [= <-]. simpl. f_equal; auto.
Qed.

Lemma rmap_Ok_Forall2 {A B} (f : A -> result B) l ys :
  rmap f l = Ok ys -> Forall2 (fun x y => f x = Ok y) l ys.
Proof.
  revert ys. induction l as [|x l IH]; intros ys; simpl; [intros [= <-]; constructor|].
  destruct (f x) eqn:Hf; simpl; [|discriminate].
  destruct (rmap f l); simpl; [|discriminate]. intros [= <-]. constructor; auto.
Qed.

(** ** A Hoare logic for the effect monad

    [mspec P Q m] says that every effect [m] performs satisfies [Q] and
    that, if [m] returns, its value satisfies [P].  The rules below are
    the ones the component proofs use to bound batch sizes and to follow
    loop invariants; they are in the [h2s] hint database. *)
Definition mspec {E A} (P : A -> Prop) (Q : E -> Prop) (m : M E A) : Prop :=
  Forall Q (trace_of m) /\ forall a, outcome m = Ok a -> P a.

Lemma mspec_ret {E A} (P : A -> Prop) (Q : E -> Prop) a : P a -> mspec P Q (ret a).
Proof. split; [constructor|by intros ? [= <-]]. Qed.

Lemma mspec_throw {E A} (P : A -> Prop) (Q : E -> Prop) e : mspec P Q (throw e).
Proof. split; [constructor|discriminate]. Qed.

Lemma mspec_lift {E A} (P : A -> Prop) (Q : E -> Prop) r :
  (forall a, r = Ok a -> P a) -> mspec P Q (lift r).
Proof. intros H. split; [constructor|exact H]. Qed.

Lemma mspec_emit {E} (Q : E -> Prop) x : Q x -> mspec (fun _ => True) Q (emit x).
Proof. split; [by constructor|done]. Qed.

Lemma mspec_bind {E A B} (P1 : A -> Prop) (P2 : B -> Prop) (Q : E -> Prop)
      (m : M E A) (k : A -> M E B) :
  mspec P1 Q m -> (forall a, P1 a -> mspec P2 Q (k a)) -> mspec P2 Q (bind m k).
Proof.
  intros [Hq Hp] Hk. destruct m as [t [a|e]]; simpl in *.
  - destruct (Hk a (Hp a eq_refl)) as [Hq2 Hp2].
    destruct (k a) as [t2 r]. split; [by apply Forall_app|exact Hp2].
  - split; [exact Hq|discriminate].
Qed.

Lemma mspec_weaken {E A} (P P' : A -> Prop) (Q Q' : E -> Prop) m :
  mspec P Q m -> (forall a, P a -> P' a) -> (forall x, Q x -> Q' x) -> mspec P' Q' m.
Proof.
  intros [Hq Hp] HP HQ. split; [by eapply Forall_impl|auto].
Qed.

Lemma mspec_mfold {E A B} (P : A -> Prop) (Q : E -> Prop) (f : A -> B -> M E A) a l :
  P a -> (forall a x, P a -> In x l -> mspec P Q (f a x)) -> mspec P Q (mfold f a l).
Proof.
  revert a. induction l as [|x l IH]; intros a Ha Hf; simpl.
  - by apply mspec_ret.
  - apply mspec_bind with (P1 := P); [apply Hf; simpl; auto|].
    intros a' Ha'. apply IH; [done|]. intros; apply Hf; simpl; auto.
Qed.

(** A loop invariant over the effects performed so far: [Inv] holds
    between iterations, [Fin] holds of every trace the loop can leave
    behind, including one cut short by an exception. *)
Lemma mfold_trace_inv {E A B} (Inv : list E -> A -> Prop) (Fin : list E -> Prop)
      (f : A -> B -> M E A) l :
  (forall tr a, Inv tr a -> Fin tr) ->
  (forall tr a x, In x l -> Inv tr a ->
     Fin (tr ++ trace_of (f a x)) /\
     forall a', outcome (f a x) = Ok a' -> Inv (tr ++ trace_of (f a x)) a') ->
  forall tr a, Inv tr a ->
  Fin (tr ++ trace_of (mfold f a l)) /\
  forall a', outcome (mfold f a l) = Ok a' -> Inv (tr ++ trace_of (mfold f a l)) a'.
Proof.
  intros Hfin Hstep. induction l as [|x l IH]; intros tr a Ha; simpl.
  - rewrite app_nil_r. split; [eauto|]. by intros a' [= <-].
  - destruct (Hstep tr a x (or_introl eq_refl) Ha) as [Hf1 Hk].
    rewrite trace_bind, outcome_bind. destruct (outcome (f a x)) as [a1|e] eqn:Ho.
    + specialize (Hk a1 eq_refl).
      destruct (IH (fun tr a y Hy => Hstep tr a y (or_intror Hy)) _ a1 Hk) as [IH1 IH2].
      rewrite !app_assoc. split; [exact IH1|exact IH2].
    + rewrite app_nil_r. split; [exact Hf1|discriminate].
Qed.

(** The same for a loop that ends normally, with the processed prefix
    of the input in the invariant. *)
Lemma mfold_Ok_inv {E A B} (Inv : list E -> A -> list B -> Prop) (f : A -> B -> M E A) l :
  (forall tr a done x a', Inv tr a done -> outcome (f a x) = Ok a' ->
     Inv (tr ++ trace_of (f a x)) a' (done ++ [x])) ->
  forall tr a done a', Inv tr a done -> outcome (mfold f a l) = Ok a' ->
  Inv (tr ++ trace_of (mfold f a l)) a' (done ++ l).
Proof.
  intros Hstep. induction l as [|x l IH]; intros tr a done a' Ha; simpl.
  - intros [= <-]. by rewrite !app_nil_r.
  - rewrite outcome_bind, trace_bind. destruct (outcome (f a x)) as [a1|e] eqn:Ho; [|discriminate].
    intros Hl. rewrite app_assoc.
    replace (done ++ x :: l) with ((done ++ [x]) ++ l) by (by rewrite <- app_assoc).
    apply IH; [|done]. by apply Hstep.
Qed.

(** A loop whose every iteration ends normally from a state of the
    invariant, on every element it meets, ends normally. *)
Lemma mfold_total {E A B} (I : A -> Prop) (P : B -> Prop) (f : A -> B -> M E A) l :
  Forall P l -> (forall a x, I a -> P x -> exists a', outcome (f a x) = Ok a' /\ I a') ->
  forall a, I a -> exists a', outcome (mfold f a l) = Ok a' /\ I a'.
Proof.
  intros Hl Hf. induction Hl as [|x l Hx _ IH]; intros a Ha; cbn [mfold]; [by exists a|].
  destruct (Hf a x Ha Hx) as (a1 & Ho & Ha1). rewrite outcome_bind, Ho. by apply IH.
Qed.

Lemma rmap_total {A B} (f : A -> result B) l :
  Forall (fun x => exists y, f x = Ok y) l -> exists ys, rmap f l = Ok ys.
Proof.
  induction 1 as [|x l [y Hy] _ [ys Hys]]; [by exists []|].
  exists (y :: ys). simpl. by rewrite Hy, Hys.
Qed.

Lemma Forall_filter_sub {A} (P : A -> Prop) (Q : A -> Prop) `{forall x, Decision (Q x)} l :
  Forall P l -> Forall P (filter Q l).
Proof. rewrite !Forall_forall. intros Hl x [_ Hx]%list_elem_of_filter. by apply Hl. Qed.

#[export] Hint Resolve mspec_ret mspec_throw mspec_emit : h2s.
#[export] Hint Rewrite @bind_ret_l @bind_assoc @bind_throw : h2s_rw.

(** Unfold one layer of monadic plumbing in the goal. *)
Ltac msimpl := autorewrite with h2s_rw; cbn [bind ret emit throw lift fst snd trace_of outcome].

(** Case on the first string comparison in the goal. *)
Ltac case_streq :=
  match goal with
  | |- context [String.eqb ?a ?b] => destruct (String.eqb_spec a b) as [<-|?]
  end.
