(* ===== verification/PyDict.v ===== *)
(** * Python dictionaries

    A Python [dict] keeps its keys in insertion order, and the program
    depends on that order: the columns of a row, and the order in which
    [write_records] issues one bulk insert per table.  A dict is
    therefore an association list; its well-formedness invariant is that
    its keys are distinct.  [dict_set] is [d[k] = v] (replace in place,
    or append), [dict_pop] is [d.pop(k)] (raising [KeyError]),
    [dict_index] is [d[k]], [dict_get] is [d.get(k)], and
    [setdefault_append] is [d.setdefault(k, []).append(x)]. *)

From stdpp Require Import base list strings sets.
From S2P Require Import Prelude.

Definition dict (V : Type) : Type := list (string * V).

Section Dict.
Context {V : Type}.
Implicit Types (d : dict V) (k : string) (v : V).

Fixpoint dict_get k d : option V :=
  match d with
  | [] => None
  | (k', v') :: d' => if String.eqb k k' then Some v' else dict_get k d'
  end.

Definition dict_index k d : result V :=
  match dict_get k d with
  | Some v => Ok v
  | None => Err (KeyError k)
  end.

Fixpoint dict_set k v d : dict V :=
  match d with
  | [] => [(k, v)]
  | (k', v') :: d' =>
      if String.eqb k k' then (k', v) :: d' else (k', v') :: dict_set k v d'
  end.

Fixpoint dict_pop k d : result (V * dict V) :=
  match d with
  | [] => Err (KeyError k)
  | (k', v') :: d' =>
      if String.eqb k k' then Ok (v', d')
      else rbind (dict_pop k d') (fun '(v, d'') => Ok (v, (k', v') :: d''))
  end.

Definition dict_keys d : list string := map fst d.

(** The invariant every Python dict satisfies. *)
Definition dict_wf d : Prop := NoDup (dict_keys d).

#[export] Instance dict_wf_dec d : Decision (dict_wf d).
Proof. unfold dict_wf. apply _. Defined.

(** ** Lookup *)

Lemma dict_get_None k d : dict_get k d = None <-> k ∉ dict_keys d.
Proof.
  induction d as [|[k' v'] d IH]; simpl.
  - split; [intros _; apply not_elem_of_nil|done].
  - rewrite not_elem_of_cons. case_streq; [split; [discriminate|tauto]|].
    rewrite IH. naive_solver.
Qed.

Lemma dict_get_Some_elem k v d : dict_get k d = Some v -> k ∈ dict_keys d.
Proof.
  intros H. destruct (decide (k ∈ dict_keys d)) as [?|Hn]; [done|].
  apply dict_get_None in Hn. congruence.
Qed.

Lemma dict_get_Some_In k v d : dict_get k d = Some v -> In (k, v) d.
Proof.
  induction d as [|[k' v'] d IH]; simpl; [discriminate|].
  case_streq; [intros [= ->]; auto|auto].
Qed.

(** ** Assignment [d[k] = v] *)

Lemma dict_get_set_eq k v d : dict_get k (dict_set k v d) = Some v.
Proof.
  induction d as [|[k' v'] d IH]; simpl; [by rewrite String.eqb_refl|].
  case_streq; simpl; [by rewrite String.eqb_refl|].
  destruct (String.eqb_spec k k'); [done|exact IH].
Qed.

Lemma dict_get_set_ne k k2 v d :
  k2 <> k -> dict_get k2 (dict_set k v d) = dict_get k2 d.
Proof.
  intros Hne. induction d as [|[k' v'] d IH]; simpl.
  - by destruct (String.eqb_spec k2 k).
  - case_streq; simpl; [by destruct (String.eqb_spec k2 k)|].
    by rewrite IH.
Qed.

Lemma dict_keys_set k v d :
  dict_keys (dict_set k v d) =
  if decide (k ∈ dict_keys d) then dict_keys d else dict_keys d ++ [k].
Proof.
  induction d as [|[k' v'] d IH]; simpl; [done|].
  case_streq; simpl.
  - rewrite decide_True; [done|apply elem_of_cons; left; done].
  - rewrite IH. destruct (decide (k ∈ dict_keys d)) as [Hin|Hin].
    + rewrite decide_True; [done|]. apply elem_of_cons. by right.
    + rewrite decide_False; [done|]. rewrite elem_of_cons. naive_solver.
Qed.

Lemma dict_set_wf k v d : dict_wf d -> dict_wf (dict_set k v d).
Proof.
  unfold dict_wf. intros Hwf. rewrite dict_keys_set.
  case_decide; [done|]. apply NoDup_app. split; [done|].
  split; [set_solver|apply NoDup_singleton].
Qed.

(** ** Removal [d.pop(k)] *)

Lemma dict_pop_Err k d e : dict_pop k d = Err e -> e = KeyError k /\ dict_get k d = None.
Proof.
  induction d as [|[k' v'] d IH]; simpl; [by intros [= <-]|].
  case_streq; [discriminate|].
  destruct (dict_pop k d) as [[v'' d'']|e']; simpl; [discriminate|].
  intros [= <-]. by apply IH.
Qed.

(** [d.pop(k)] removes the one entry for [k] and keeps the others in
    their order. *)
Lemma dict_pop_Ok_split k d v d' :
  dict_pop k d = Ok (v, d') ->
  exists pre post, d = pre ++ (k, v) :: post /\ d' = pre ++ post /\ k ∉ dict_keys pre.
Proof.
  revert d'. induction d as [|[k' v'] d IH]; intros d2; simpl; [discriminate|].
  case_streq.
  - intros [= <- <-]. exists [], d. split_and!; [done|done|apply not_elem_of_nil].
  - destruct (dict_pop k d) as [[v'' d'']|e] eqn:Hp; simpl; [|discriminate].
    intros [= -> <-]. destruct (IH d'' eq_refl) as (pre & post & -> & -> & Hn).
    exists ((k', v') :: pre), post. split_and!; [done|done|].
    simpl. apply not_elem_of_cons. auto.
Qed.

Lemma dict_get_app k d1 d2 :
  dict_get k (d1 ++ d2) = match dict_get k d1 with Some v => Some v | None => dict_get k d2 end.
Proof.
  induction d1 as [|[k' v'] d1 IH]; simpl; [done|]. by case_streq.
Qed.

Lemma dict_keys_app d1 d2 : dict_keys (d1 ++ d2) = dict_keys d1 ++ dict_keys d2.
Proof. apply map_app. Qed.

Lemma dict_pop_get k d v d' : dict_pop k d = Ok (v, d') -> dict_get k d = Some v.
Proof.
  intros (pre & post & -> & _ & Hn)%dict_pop_Ok_split.
  rewrite dict_get_app. apply dict_get_None in Hn as ->. simpl. by rewrite String.eqb_refl.
Qed.

Lemma dict_pop_wf k d v d' : dict_wf d -> dict_pop k d = Ok (v, d') -> dict_wf d'.
Proof.
  unfold dict_wf. intros Hwf (pre & post & -> & -> & _)%dict_pop_Ok_split.
  rewrite !dict_keys_app in Hwf |- *. simpl in Hwf.
  apply NoDup_app in Hwf as (H1 & H2 & H3). apply NoDup_cons in H3 as [_ H3].
  apply NoDup_app. split_and!; [done| |done]. intros x Hx. specialize (H2 x Hx).
  rewrite elem_of_cons in H2. tauto.
Qed.

(** After [d.pop(k)] on a well-formed dict, [k] is gone. *)
Lemma dict_pop_removes k d v d' :
  dict_wf d -> dict_pop k d = Ok (v, d') -> k ∉ dict_keys d'.
Proof.
  unfold dict_wf. intros Hwf (pre & post & -> & -> & Hn)%dict_pop_Ok_split.
  rewrite !dict_keys_app in Hwf |- *. simpl in Hwf.
  apply NoDup_app in Hwf as (_ & _ & H3). apply NoDup_cons in H3 as [H3 _].
  rewrite not_elem_of_app. auto.
Qed.

Lemma dict_pop_some k d v :
  dict_get k d = Some v -> exists d', dict_pop k d = Ok (v, d').
Proof.
  induction d as [|[k' v'] d IH]; simpl; [discriminate|].
  case_streq; [intros [= ->]; eauto|].
  intros (d' & ->)%IH. simpl. eauto.
Qed.

End Dict.

(** ** [d.setdefault(k, []).append(x)] on a dict of lists *)
Definition setdefault_append {X} (k : string) (x : X) (lists : dict (list X)) : dict (list X) :=
  dict_set k (default [] (dict_get k lists) ++ [x]) lists.

#[export] Hint Resolve dict_set_wf dict_pop_wf : h2s.

(** Grouping by repeated [setdefault(k, []).append(x)]: the list under
    a key is the values appended under it, in order. *)
Definition group_into {X} (acc : dict (list X)) (pairs : list (string * X)) : dict (list X) :=
  fold_left (fun d p => setdefault_append p.1 p.2 d) pairs acc.

(** Grouping pairs with [setdefault(k, []).append(v)] gives every key
    the values of its pairs, in order, after those it had. *)
Lemma group_into_get {X} (acc : dict (list X)) pairs k :
  default [] (dict_get k (group_into acc pairs)) =
  default [] (dict_get k acc) ++ map snd (filter (fun p => p.1 = k) pairs).
Proof.
  unfold group_into. revert acc.
  induction pairs as [|[k' x] pairs IH]; intros acc; simpl; [by rewrite app_nil_r|].
  rewrite IH. unfold setdefault_append. rewrite filter_cons. simpl.
  destruct (decide (k' = k)) as [<-|Hne]; simpl.
  - rewrite dict_get_set_eq. simpl. by rewrite <- app_assoc.
  - by rewrite dict_get_set_ne.
Qed.

Lemma group_into_keys {X} (acc : dict (list X)) pairs k :
  k ∈ dict_keys (group_into acc pairs) <-> k ∈ dict_keys acc \/ k ∈ map fst pairs.
Proof.
  unfold group_into. revert acc.
  induction pairs as [|[k' x] pairs IH]; intros acc; simpl.
  - rewrite elem_of_nil. tauto.
  - rewrite IH. unfold setdefault_append. rewrite dict_keys_set, elem_of_cons.
    case_decide; rewrite ?elem_of_app, ?list_elem_of_singleton; naive_solver.
Qed.

Lemma group_into_wf {X} (acc : dict (list X)) pairs : dict_wf acc -> dict_wf (group_into acc pairs).
Proof.
  unfold group_into. revert acc.
  induction pairs as [|p pairs IH]; intros acc Hwf; simpl; [done|].
  apply IH. unfold setdefault_append. by apply dict_set_wf.
Qed.

(** ** The grouping as a reference definition *)

(** The keys of a list not yet [seen], each once, in the order of their
    first occurrence. *)
Fixpoint new_keys (seen : list string) (l : list string) : list string :=
  match l with
  | [] => []
  | k :: l' => if decide (k ∈ seen) then new_keys seen l' else k :: new_keys (seen ++ [k]) l'
  end.

Lemma elem_of_new_keys x seen l : x ∈ new_keys seen l <-> x ∈ l /\ x ∉ seen.
Proof.
  revert seen. induction l as [|k l IH]; intros seen; cbn [new_keys].
  - set_solver.
  - destruct (decide (k ∈ seen)); [rewrite IH; set_solver|]. rewrite elem_of_cons, IH.
    destruct (decide (x = k)) as [->|Hne]; [set_solver|]. rewrite elem_of_cons, elem_of_app, list_elem_of_singleton.
    naive_solver.
Qed.

(** One entry per distinct key, in the order the keys first occur, with
    the values of that key's pairs in order. *)
Definition group_ref {X} (pairs : list (string * X)) : dict (list X) :=
  map (fun k => (k, map snd (filter (fun p => p.1 = k) pairs))) (new_keys [] (map fst pairs)).

(** A well-formed dict is determined by its keys and its lookups. *)
Lemma dict_eta {V} (dflt : V) (d : dict V) :
  dict_wf d -> d = map (fun k => (k, default dflt (dict_get k d))) (dict_keys d).
Proof.
  unfold dict_wf. induction d as [|[k v] d IH]; simpl; [done|].
  intros [Hk Hwf]%NoDup_cons. rewrite String.eqb_refl. f_equal.
  etransitivity; [apply (IH Hwf)|]. apply map_ext_in. intros k' Hin%list_elem_of_In.
  destruct (String.eqb_spec k' k) as [->|]; [done|]. done.
Qed.

Lemma group_into_dict_keys {X} (acc : dict (list X)) pairs :
  dict_keys (group_into acc pairs) = dict_keys acc ++ new_keys (dict_keys acc) (map fst pairs).
Proof.
  unfold group_into. revert acc.
  induction pairs as [|[k x] pairs IH]; intros acc; simpl; [by rewrite app_nil_r|].
  rewrite IH. unfold setdefault_append. rewrite dict_keys_set.
  destruct (decide (k ∈ dict_keys acc)); [done|]. by rewrite <- app_assoc.
Qed.

(** Grouping with [setdefault(k, []).append(v)] from an empty dict is the
    reference grouping. *)
Lemma group_into_ref {X} (pairs : list (string * X)) : group_into [] pairs = group_ref pairs.
Proof.
  rewrite (dict_eta [] (group_into [] pairs)) by (apply group_into_wf; constructor).
  rewrite group_into_dict_keys. unfold group_ref. apply map_ext. intros k.
  by rewrite group_into_get.
Qed.

(** ** Properties of every value *)

Lemma dict_set_Forall {V} (P : V -> Prop) k v (d : dict V) :
  Forall (fun kv => P kv.2) d -> P v -> Forall (fun kv => P kv.2) (dict_set k v d).
Proof.
  induction d as [|[k' v'] d IH]; intros Hd Hv; simpl; [by repeat constructor|].
  inversion Hd as [|? ? Hk Hrest]; subst.
  case_streq; constructor; auto.
Qed.

Lemma dict_get_Forall {V} (P : V -> Prop) k v (d : dict V) :
  Forall (fun kv => P kv.2) d -> dict_get k d = Some v -> P v.
Proof.
  intros Hd Hg. apply dict_get_Some_In in Hg.
  rewrite Forall_forall in Hd. apply (Hd (k, v)). by apply list_elem_of_In.
Qed.

Lemma group_into_Forall {X} (P : X -> Prop) (acc : dict (list X)) pairs :
  Forall (fun kv => Forall P kv.2) acc -> Forall (fun p => P p.2) pairs ->
  Forall (fun kv => Forall P kv.2) (group_into acc pairs).
Proof.
  unfold group_into. revert acc.
  induction pairs as [|[k x] pairs IH]; intros acc Hacc Hp; simpl; [done|].
  inversion Hp as [|? ? Hx Hrest]; subst. apply IH; [|done].
  unfold setdefault_append. apply dict_set_Forall; [done|].
  apply Forall_app. split; [|by constructor].
  destruct (dict_get k acc) as [old|] eqn:Hg; simpl; [|constructor].
  exact (dict_get_Forall (Forall P) k old acc Hacc Hg).
Qed.

(** The number of values held under all keys. *)
Definition dict_size {X} (d : dict (list X)) : nat := sum_list (map (fun kv => length kv.2) d).

Lemma dict_size_concat {X} (d : dict (list X)) : length (concat (map snd d)) = dict_size d.
Proof. unfold dict_size. induction d as [|[k v] d IH]; simpl; [done|]. by rewrite length_app, IH. Qed.

Lemma dict_size_set {X} k (v : list X) (d : dict (list X)) :
  dict_size (dict_set k v d) + length (default [] (dict_get k d)) = dict_size d + length v.
Proof.
  unfold dict_size. induction d as [|[k' v'] d IH]; simpl; [lia|].
  case_streq; simpl; lia.
Qed.

Lemma group_into_size {X} (acc : dict (list X)) pairs :
  dict_size (group_into acc pairs) = dict_size acc + length pairs.
Proof.
  unfold group_into. revert acc.
  induction pairs as [|[k x] pairs IH]; intros acc; simpl; [lia|].
  rewrite IH. unfold setdefault_append.
  pose proof (dict_size_set k (default [] (dict_get k acc) ++ [x]) acc) as H.
  rewrite length_app in H. simpl in H. lia.
Qed.
