(* ===== verification/PyStr.v ===== *)
(** * Python string operations the program calls

    [str_replace] is [str.replace] (every non-overlapping occurrence,
    scanned left to right), [str_split] is [str.split] on a
    one-character separator, [str_join] is [sep.join(parts)],
    [posix_join] is [os.path.join] on POSIX, and [text_after_header]
    is what [parse_gpx] hands to the GPX parser: the text decoded with
    universal newlines ([\r\n] and [\r] read as [\n]) with its first
    line dropped ([readline()] then [readlines()]). *)

From stdpp Require Import base list strings.
From Stdlib Require Import Ascii.
From S2P Require Import Prelude.

Local Open Scope string_scope.
Local Open Scope list_scope.

Definition LF : ascii := "010"%char.
Definition CR : ascii := "013"%char.
Definition SLASH : ascii := "/"%char.

(** ** [str.replace] *)

(** [skip] counts the characters of a match already replaced. *)
Fixpoint replace_aux (old new : string) (skip : nat) (s : string) : string :=
  match s with
  | EmptyString => EmptyString
  | String c s' =>
      match skip with
      | S n => replace_aux old new n s'
      | O =>
          if String.prefix old s
          then new +:+ replace_aux old new (String.length old - 1) s'
          else String c (replace_aux old new 0 s')
      end
  end.

(** With an empty pattern Python inserts [new] around every character. *)
Fixpoint interleave (new s : string) : string :=
  match s with
  | EmptyString => new
  | String c s' => new +:+ String c (interleave new s')
  end.

Definition str_replace (s old new : string) : string :=
  match old with
  | EmptyString => interleave new s
  | _ => replace_aux old new 0 s
  end.

(** ** [str.split(sep)] and [sep.join(parts)] *)

Fixpoint str_split (sep : ascii) (s : string) : list string :=
  match s with
  | EmptyString => [EmptyString]
  | String c s' =>
      match str_split sep s' with
      | [] => [String c EmptyString]
      | hd :: tl =>
          if Ascii.eqb c sep then EmptyString :: hd :: tl else String c hd :: tl
      end
  end.

Fixpoint str_join (sep : ascii) (parts : list string) : string :=
  match parts with
  | [] => EmptyString
  | [p] => p
  | p :: ps => p +:+ String sep (str_join sep ps)
  end.

(** ** [os.path.join] (posixpath.join) *)

Definition ends_with_slash (s : string) : bool :=
  match String.get (String.length s - 1) s with
  | Some c => Ascii.eqb c SLASH
  | None => false
  end.

Definition join_step (path b : string) : string :=
  if String.prefix "/" b then b
  else if String.eqb path "" || ends_with_slash path then path +:+ b
  else path +:+ "/" +:+ b.

Definition posix_join (a : string) (ps : list string) : string := fold_left join_step ps a.

(** A path with no two consecutive separators. *)
Fixpoint no_double_slash (s : string) : bool :=
  match s with
  | EmptyString => true
  | String c s' =>
      negb (Ascii.eqb c SLASH && match s' with String d _ => Ascii.eqb d SLASH | EmptyString => false end)
      && no_double_slash s'
  end.

(** The path without its leading separator, if any. *)
Definition strip_slash (s : string) : string :=
  match s with
  | String c s' => if Ascii.eqb c SLASH then s' else s
  | EmptyString => EmptyString
  end.

(** Each piece behind a separator. *)
Fixpoint concat_slash (ps : list string) : string :=
  match ps with
  | [] => ""
  | p :: ps' => "/" +:+ p +:+ concat_slash ps'
  end.

(** Pieces that are all non-empty, except perhaps the last. *)
Inductive ne_but_last : list string -> Prop :=
  | nbl_nil : ne_but_last []
  | nbl_one p : ne_but_last [p]
  | nbl_cons p q l : p <> "" -> ne_but_last (q :: l) -> ne_but_last (p :: q :: l).

(** ** Universal newlines and the header line of a GPX file *)

Fixpoint translate_newlines (s : string) : string :=
  match s with
  | EmptyString => EmptyString
  | String c s' =>
      if Ascii.eqb c CR then
        match s' with
        | String c2 s'' =>
            if Ascii.eqb c2 LF then String LF (translate_newlines s'')
            else String LF (translate_newlines s')
        | EmptyString => String LF EmptyString
        end
      else String c (translate_newlines s')
  end.

(** What remains after [readline()]: everything past the first [\n]. *)
Fixpoint after_first_line (s : string) : string :=
  match s with
  | EmptyString => EmptyString
  | String c s' => if Ascii.eqb c LF then s' else after_first_line s'
  end.

Definition text_after_header (raw : string) : string := after_first_line (translate_newlines raw).

Fixpoint has_newline (s : string) : bool :=
  match s with
  | EmptyString => false
  | String c s' => Ascii.eqb c CR || Ascii.eqb c LF || has_newline s'
  end.

Fixpoint has_char (x : ascii) (s : string) : bool :=
  match s with
  | EmptyString => false
  | String c s' => Ascii.eqb c x || has_char x s'
  end.

Lemma str_app_cons c s t : String c s +:+ t = String c (s +:+ t).
Proof. reflexivity. Qed.

Lemma has_char_cons_eqb x s : has_char x (String x s) = true.
Proof. simpl. by rewrite Ascii.eqb_refl. Qed.

(** ** Prefixes *)

Lemma prefix_iff (p s : string) : String.prefix p s = true <-> exists r, s = p +:+ r.
Proof.
  revert s. induction p as [|c p IH]; intros s; simpl.
  - destruct s; split; eauto.
  - destruct s as [|c' s]; simpl.
    + split; [discriminate|]. intros [r Hr]. discriminate.
    + destruct (Ascii.ascii_dec c c') as [<-|Hne].
      * rewrite IH. split; intros [r Hr]; exists r; [by subst|by injection Hr].
      * split; [discriminate|]. intros [r Hr]. injection Hr. congruence.
Qed.

Lemma prefix_app (p r : string) : String.prefix p (p +:+ r) = true.
Proof. apply prefix_iff. eauto. Qed.

Lemma append_assoc_str (a b c : string) : (a +:+ b) +:+ c = a +:+ (b +:+ c).
Proof. induction a as [|x a IH]; simpl; [done|by rewrite IH]. Qed.

Lemma length_append_str (a b : string) : String.length (a +:+ b) = String.length a + String.length b.
Proof. induction a as [|x a IH]; simpl; [done|by rewrite IH]. Qed.

Lemma append_nil_r_str (a : string) : a +:+ "" = a.
Proof. induction a as [|x a IH]; simpl; [done|by rewrite IH]. Qed.

(** ** [str.replace] *)

Lemma replace_aux_skip old new (a r : string) :
  replace_aux old new (String.length a) (a +:+ r) = replace_aux old new 0 r.
Proof. induction a as [|c a IH]; simpl; [done|exact IH]. Qed.

(** An occurrence at the front is replaced, and the scan resumes after it. *)
Lemma str_replace_front (old new r : string) :
  old <> "" -> str_replace (old +:+ r) old new = new +:+ str_replace r old new.
Proof.
  intros Hne. destruct old as [|c o]; [done|]. unfold str_replace.
  pose proof (prefix_app (String c o) r) as Hp. cbn [String.append replace_aux] in Hp |- *.
  assert (E : String.length (String c o) - 1 = String.length o) by (simpl; lia).
  rewrite Hp, E. by rewrite replace_aux_skip.
Qed.

(** Without an occurrence the string is returned unchanged. *)
Lemma str_replace_absent (s old new : string) :
  old <> "" -> (forall a b, s <> a +:+ old +:+ b) -> str_replace s old new = s.
Proof.
  intros Hne. destruct old as [|c o]; [done|]. unfold str_replace.
  induction s as [|x s IH]; intros Hocc; [done|]. simpl.
  destruct (String.prefix (String c o) (String x s)) eqn:Hp.
  - apply prefix_iff in Hp as [r Hr]. exfalso. apply (Hocc "" r). done.
  - simpl in Hp. rewrite Hp. rewrite IH; [done|].
    intros a b ->. apply (Hocc (String x a) b). done.
Qed.

(** A prefix that cannot start an occurrence is copied through. *)
Lemma str_replace_app_clean (a r old new : string) :
  old <> "" -> (forall a1 a2 b, a = a1 +:+ a2 -> a2 <> "" -> a2 +:+ r <> old +:+ b) ->
  str_replace (a +:+ r) old new = a +:+ str_replace r old new.
Proof.
  intros Hne. destruct old as [|c o]; [done|]. unfold str_replace.
  induction a as [|x a IH]; intros Hocc; [done|]. simpl.
  destruct (String.prefix (String c o) (String x (a +:+ r))) eqn:Hp.
  - apply prefix_iff in Hp as [b Hb]. exfalso. by apply (Hocc "" (String x a) b).
  - simpl in Hp. rewrite Hp. f_equal. apply IH.
    intros a1 a2 b -> Hn. apply (Hocc (String x a1) a2 b); done.
Qed.

(** ** [str.split] and [str.join] *)

Lemma str_split_nonempty sep s : str_split sep s <> [].
Proof.
  destruct s as [|c s]; simpl; [done|].
  destruct (str_split sep s); [done|]. by destruct (Ascii.eqb c sep).
Qed.

(** Splitting and joining on the same separator is the identity. *)
Lemma str_join_split sep s : str_join sep (str_split sep s) = s.
Proof.
  induction s as [|c s IH]; simpl; [done|].
  pose proof (str_split_nonempty sep s) as Hne.
  destruct (str_split sep s) as [|hd tl] eqn:Hs; [done|].
  destruct (Ascii.eqb_spec c sep) as [->|Hc].
  - simpl. destruct tl; simpl in *; by rewrite IH.
  - destruct tl; simpl in *; by rewrite IH.
Qed.

Lemma str_split_no_sep sep s : Forall (fun p => has_char sep p = false) (str_split sep s).
Proof.
  induction s as [|c s IH]; simpl; [by repeat constructor|].
  destruct (str_split sep s) as [|hd tl] eqn:Hs; [by destruct (str_split_nonempty sep s)|].
  inversion IH as [|? ? Hhd Htl]; subst.
  destruct (Ascii.eqb_spec c sep) as [->|Hc].
  - by repeat constructor.
  - constructor; [|done]. simpl. rewrite Hhd, orb_false_r. by apply Ascii.eqb_neq.
Qed.

(** ** [os.path.join] *)

Lemma prefix_slash_noslash b : has_char SLASH b = false -> String.prefix "/" b = false.
Proof.
  intros Hb. destruct (String.prefix "/" b) eqn:Hp; [|done].
  apply prefix_iff in Hp as [r ->]. by rewrite (str_app_cons "/" "" r), has_char_cons_eqb in Hb.
Qed.

(** A component without a separator is appended, never restarts the path. *)
Lemma join_step_extends path b :
  has_char SLASH b = false -> exists r, join_step path b = path +:+ r.
Proof.
  intros Hb. unfold join_step. rewrite prefix_slash_noslash by done.
  destruct (String.eqb path "" || ends_with_slash path); [by exists b|].
  exists ("/" +:+ b). done.
Qed.

Lemma posix_join_extends a ps :
  Forall (fun p => has_char SLASH p = false) ps -> exists r, posix_join a ps = a +:+ r.
Proof.
  unfold posix_join. revert a. induction ps as [|p ps IH]; intros a Hps; simpl.
  - exists "". symmetry. apply append_nil_r_str.
  - inversion Hps as [|? ? Hp Hrest]; subst.
    destruct (join_step_extends a p Hp) as [r1 ->].
    destruct (IH (a +:+ r1) Hrest) as [r2 ->].
    exists (r1 +:+ r2). apply append_assoc_str.
Qed.

(** Joining a root that does not end in [/] with the pieces of a split
    path stays below [root/]. *)
Lemma posix_join_split_under root s :
  root <> "" -> ends_with_slash root = false ->
  exists r, posix_join root (str_split SLASH s) = root +:+ "/" +:+ r.
Proof.
  intros Hne Hend. pose proof (str_split_no_sep SLASH s) as Hall.
  destruct (str_split SLASH s) as [|p ps] eqn:Hs; [by destruct (str_split_nonempty SLASH s)|].
  inversion Hall as [|? ? Hp Hrest]; subst. unfold posix_join. simpl.
  unfold join_step at 2. rewrite prefix_slash_noslash by done.
  rewrite Hend, orb_false_r. destruct (String.eqb_spec root ""); [done|].
  destruct (posix_join_extends (root +:+ "/" +:+ p) ps Hrest) as [r Hr].
  unfold posix_join in Hr. rewrite Hr. exists (p +:+ r).
  rewrite !append_assoc_str. done.
Qed.

(** ** Splitting a path and joining it under a root *)

Lemma append_nonempty_l (a b : string) : a <> "" -> a +:+ b <> "".
Proof. by destruct a. Qed.

Lemma ends_with_slash_app a b : b <> "" -> ends_with_slash (a +:+ b) = ends_with_slash b.
Proof.
  intros Hb. unfold ends_with_slash. rewrite length_append_str.
  destruct b as [|c b']; [done|]. cbn [String.length].
  replace (String.length a + S (String.length b') - 1) with ((S (String.length b') - 1) + String.length a)
    by lia.
  by rewrite <- String.append_correct2.
Qed.

Lemma ends_with_slash_free p : p <> "" -> has_char SLASH p = false -> ends_with_slash p = false.
Proof.
  induction p as [|c p IH]; [done|]. intros _ Hh. cbn [has_char] in Hh.
  apply orb_false_iff in Hh as [Hc Hp]. destruct p as [|d p'].
  - unfold ends_with_slash. cbn. by rewrite Hc.
  - change (String c (String d p')) with (String c "" +:+ String d p').
    rewrite ends_with_slash_app by done. by apply IH.
Qed.

Lemma join_step_noslash acc p :
  acc <> "" -> ends_with_slash acc = false -> has_char SLASH p = false ->
  join_step acc p = acc +:+ "/" +:+ p.
Proof.
  intros Hne Hend Hp. unfold join_step. rewrite prefix_slash_noslash by done.
  destruct (String.eqb_spec acc ""); [done|]. by rewrite Hend.
Qed.

Lemma join_step_slash acc p :
  ends_with_slash acc = true -> has_char SLASH p = false -> join_step acc p = acc +:+ p.
Proof.
  intros Hend Hp. unfold join_step. rewrite prefix_slash_noslash by done.
  by rewrite Hend, orb_true_r.
Qed.

(** Joining pieces that are non-empty (but perhaps the last) puts a
    separator before each. *)
Lemma fold_join_pieces tl acc :
  acc <> "" -> ends_with_slash acc = false -> Forall (fun p => has_char SLASH p = false) tl ->
  ne_but_last tl -> fold_left join_step tl acc = acc +:+ concat_slash tl.
Proof.
  intros Hne Hend Hfree Hnb. revert acc Hne Hend Hfree.
  induction Hnb as [|p|p q l Hp _ IH]; intros acc Hne Hend Hfree.
  - cbn. by rewrite append_nil_r_str.
  - inversion Hfree; subst. cbn [fold_left concat_slash].
    rewrite join_step_noslash by done. by rewrite append_nil_r_str.
  - inversion Hfree as [|? ? Hpf Hrest]; subst.
    change (fold_left join_step (q :: l) (join_step acc p) = acc +:+ concat_slash (p :: q :: l)).
    rewrite (join_step_noslash acc p) by done. rewrite IH; [|by apply append_nonempty_l| |done].
    + cbn [concat_slash]. by rewrite !append_assoc_str.
    + rewrite !ends_with_slash_app by done. by apply ends_with_slash_free.
Qed.

Lemma str_join_concat hd tl : str_join SLASH (hd :: tl) = hd +:+ concat_slash tl.
Proof.
  revert hd. induction tl as [|q tl IH]; intros hd.
  - cbn. by rewrite append_nil_r_str.
  - change (str_join SLASH (hd :: q :: tl)) with (hd +:+ String SLASH (str_join SLASH (q :: tl))).
    by rewrite IH.
Qed.

Lemma str_split_head_empty s tl : str_split SLASH s = "" :: tl -> tl <> [] -> exists s', s = String SLASH s'.
Proof.
  destruct s as [|c s']; cbn [str_split]; [by intros [= <-]|].
  destruct (str_split SLASH s') as [|hd tl0]; [done|].
  destruct (Ascii.eqb_spec c SLASH) as [->|]; [by eauto|done].
Qed.

(** The pieces of a path with no doubled separator: non-empty after the
    first, but perhaps the last. *)
Lemma str_split_tail s :
  no_double_slash s = true -> exists hd tl, str_split SLASH s = hd :: tl /\ ne_but_last tl.
Proof.
  induction s as [|c s IH]; [by exists "", []; split; [|constructor]|].
  cbn [no_double_slash]. intros [Hc Hs]%andb_true_iff.
  destruct (IH Hs) as (hd & tl & Hsplit & Hnb). cbn [str_split]. rewrite Hsplit.
  destruct (Ascii.eqb_spec c SLASH) as [->|]; [|by eauto].
  exists "", (hd :: tl). split; [done|]. destruct tl as [|q tl]; [constructor|].
  constructor; [|done]. intros ->.
  destruct (str_split_head_empty s (q :: tl) Hsplit ltac:(done)) as [s' ->].
  rewrite Ascii.eqb_refl in Hc. done.
Qed.

(** Splitting a path on [/] and joining the pieces under a root gives
    the path back below the root, without its leading [/]. *)
Lemma posix_join_split_roundtrip root s :
  root <> "" -> ends_with_slash root = false -> no_double_slash s = true ->
  posix_join root (str_split SLASH s) = root +:+ "/" +:+ strip_slash s.
Proof.
  intros Hne Hend Hs. destruct (str_split_tail s Hs) as (hd & tl & Hsplit & Hnb).
  pose proof (str_join_split SLASH s) as Hjoin. rewrite Hsplit, str_join_concat in Hjoin.
  pose proof (str_split_no_sep SLASH s) as Hfree. rewrite Hsplit in Hfree.
  inversion Hfree as [|? ? Hhd Htl]; subst. unfold posix_join. rewrite Hsplit. cbn [fold_left].
  rewrite join_step_noslash by done.
  destruct (decide (hd = "")) as [->|Hhd0].
  - destruct tl as [|q tl]; cbn [fold_left concat_slash]; [done|].
    inversion Htl as [|? ? Hq Htl']; subst.
    rewrite join_step_slash by (first [done | rewrite ends_with_slash_app; done]).
    cbn [String.append strip_slash SLASH]. rewrite Ascii.eqb_refl.
    inversion Hnb as [|?|? ? ? Hq0 Hnb']; subst.
    + cbn [fold_left concat_slash]. by rewrite append_nil_r_str, !append_assoc_str.
    + rewrite fold_join_pieces; [by rewrite !append_assoc_str| | |done|done].
      * apply append_nonempty_l. by apply append_nonempty_l.
      * rewrite !ends_with_slash_app by done. by apply ends_with_slash_free.
  - rewrite fold_join_pieces; [| |rewrite !ends_with_slash_app by done; by apply ends_with_slash_free|done|done].
    + rewrite !append_assoc_str. do 2 f_equal.
      destruct hd as [|c hd']; [done|]. cbn [String.append strip_slash].
      cbn [has_char] in Hhd. apply orb_false_iff in Hhd as [Hc _]. by rewrite Hc.
    + by apply append_nonempty_l.
Qed.

(** ** The header line of a GPX file *)

Lemma translate_newlines_app h s :
  has_char CR h = false -> translate_newlines (h +:+ s) = h +:+ translate_newlines s.
Proof.
  induction h as [|c h IH]; simpl; [done|].
  intros [Hc Hh]%orb_false_elim. rewrite Hc. by rewrite IH.
Qed.

Lemma after_first_line_app h t :
  has_char LF h = false -> after_first_line (h +:+ String LF t) = t.
Proof.
  induction h as [|c h IH]; simpl; [done|].
  intros [Hc Hh]%orb_false_elim. rewrite Hc. by apply IH.
Qed.

Lemma after_first_line_none s : has_char LF s = false -> after_first_line s = "".
Proof.
  induction s as [|c s IH]; simpl; [done|].
  intros [Hc Hs]%orb_false_elim. rewrite Hc. by apply IH.
Qed.

Lemma has_newline_chars s :
  has_newline s = false <-> has_char CR s = false /\ has_char LF s = false.
Proof.
  induction s as [|c s IH]; simpl; [done|].
  rewrite !orb_false_iff, IH. tauto.
Qed.

Lemma translate_newlines_clean s : has_newline s = false -> translate_newlines s = s.
Proof.
  induction s as [|c s IH]; simpl; [done|].
  rewrite !orb_false_iff. intros [[Hcr Hlf] Hs]. rewrite Hcr. by rewrite IH.
Qed.

Lemma translate_newlines_LF s : translate_newlines (String LF s) = String LF (translate_newlines s).
Proof. reflexivity. Qed.

Lemma translate_newlines_CRLF s :
  translate_newlines (String CR (String LF s)) = String LF (translate_newlines s).
Proof. reflexivity. Qed.

(** For a GPX file whose first line ends with a line feed, parse_gpx
    parses exactly the rest of the file, with newlines translated. *)
Lemma text_after_header_LF h body :
  has_newline h = false -> text_after_header (h +:+ String LF body) = translate_newlines body.
Proof.
  intros [Hcr Hlf]%has_newline_chars. unfold text_after_header.
  rewrite translate_newlines_app, translate_newlines_LF by done.
  by apply after_first_line_app.
Qed.

(** For a GPX file whose first line ends with CR LF, parse_gpx parses
    exactly the rest of the file, with newlines translated. *)
Lemma text_after_header_CRLF h body :
  has_newline h = false ->
  text_after_header (h +:+ String CR (String LF body)) = translate_newlines body.
Proof.
  intros [Hcr Hlf]%has_newline_chars. unfold text_after_header.
  rewrite translate_newlines_app, translate_newlines_CRLF by done.
  by apply after_first_line_app.
Qed.

(** C36: A GPX file written on a single line is parsed as the empty text:
    the skipped header line was the whole document. *)
Lemma text_after_header_one_line s : has_newline s = false -> text_after_header s = "".
Proof.
  intros Hs. unfold text_after_header. rewrite translate_newlines_clean by done.
  apply has_newline_chars in Hs as [_ Hlf]. by apply after_first_line_none.
Qed.

(** ** Substring test ([p in s]) *)

Fixpoint occurs (p s : string) : bool :=
  String.prefix p s ||
  match s with
  | EmptyString => false
  | String _ s' => occurs p s'
  end.

Lemma occurs_false p s : occurs p s = false -> forall a b, s <> a +:+ p +:+ b.
Proof.
  induction s as [|c s IH]; intros Hocc a b Hs; cbn [occurs] in Hocc.
  - destruct a; [|discriminate]. destruct p; [|discriminate]. discriminate.
  - apply orb_false_iff in Hocc as [Hp Hocc]. destruct a as [|c' a].
    + simpl in Hs. rewrite Hs, prefix_app in Hp. discriminate.
    + simpl in Hs. injection Hs as -> Hs. by apply (IH Hocc a b).
Qed.

(** A string none of whose suffixes can start an occurrence of [old]
    that runs past its end: a decidable condition for
    [str_replace_app_clean]. *)
Fixpoint suffixes_clean (old a : string) : bool :=
  match a with
  | EmptyString => true
  | String c a' => negb (String.prefix a old || String.prefix old a) && suffixes_clean old a'
  end.

Lemma app_eq_prefix a s old b :
  a +:+ s = old +:+ b -> String.prefix a old = true \/ String.prefix old a = true.
Proof.
  revert old. induction a as [|c a IH]; intros old Heq; [by left; destruct old|].
  destruct old as [|c' o]; [by right|]. simpl in Heq. injection Heq as <- Heq.
  destruct (IH o Heq) as [[r ->]%prefix_iff|[r ->]%prefix_iff].
  - left. apply prefix_iff. exists r. done.
  - right. apply prefix_iff. exists r. done.
Qed.

Lemma suffixes_clean_ok old a r :
  suffixes_clean old a = true ->
  forall a1 a2 b, a = a1 +:+ a2 -> a2 <> "" -> a2 +:+ r <> old +:+ b.
Proof.
  induction a as [|c a IH]; intros Hc a1 a2 b Ha Hne Heq.
  - destruct a1, a2; done.
  - cbn [suffixes_clean] in Hc. apply andb_true_iff in Hc as [Hn Hc]. destruct a1 as [|c1 a1].
    + simpl in Ha. subst a2. apply app_eq_prefix in Heq.
      rewrite negb_true_iff, orb_false_iff in Hn. destruct Hn as [H1 H2].
      destruct Heq as [H|H]; congruence.
    + simpl in Ha. injection Ha as _ Ha. exact (IH Hc a1 a2 b Ha Hne Heq).
Qed.
