(* ===== verification/Utf8.v ===== *)
(** * UTF-8: how [parse_gpx] decodes a side-car file

    [parse_gpx] (utils.py, lines 96-99) wraps the side-car file in
    [io.TextIOWrapper(xml_file, encoding='UTF-8', newline=None)]: the
    bytes of the file are decoded by Python's strict UTF-8 codec, which
    raises [UnicodeDecodeError] on any byte sequence that is not the
    encoding of Unicode scalar values (a stray continuation byte, an
    overlong form, a surrogate, a value above U+10FFFF, a sequence cut
    by the end of the file).

    [utf8_decode] is the codec, the lead byte and the ranges of the
    following bytes as in the Unicode standard's table of well-formed
    sequences; [utf8_encode] is its inverse.  The development represents
    a Python [str] by its UTF-8 encoding ([py_str]): [utf8_decode_spec]
    shows that decoding accepts exactly the encodings of scalar values
    and that the encoding of what it returns is the input, so the text
    [parse_gpx] reads is the file's bytes whenever it reads anything.
    On this representation the newline handling of [PyStr] is exact,
    because the bytes of CR and LF never occur inside the encoding of
    another character ([encode_cp_high]). *)

From stdpp Require Import base list strings.
From Stdlib Require Import ZArith Lia Strings.Byte.
From S2P Require Import Prelude.

Local Open Scope Z_scope.

(** ** Bytes as integers *)

Definition bval (b : byte) : Z := Z.of_N (Byte.to_N b).

Definition byte_of_Z (z : Z) : byte :=
  match Byte.of_N (Z.to_N z) with Some b => b | None => x00 end.

(** ** The codec *)

Definition is_cont (c : Z) : bool := (0x80 <=? c) && (c <=? 0xBF).

(** The second byte after the lead byte [c1] of a three- or four-byte
    sequence: narrower after E0 (no overlong form), ED (no surrogate),
    F0 (no overlong form) and F4 (nothing above U+10FFFF). *)
Definition second_lo (c1 : Z) : Z := if c1 =? 0xE0 then 0xA0 else if c1 =? 0xF0 then 0x90 else 0x80.
Definition second_hi (c1 : Z) : Z := if c1 =? 0xED then 0x9F else if c1 =? 0xF4 then 0x8F else 0xBF.
Definition second_ok (c1 c2 : Z) : bool := (second_lo c1 <=? c2) && (c2 <=? second_hi c1).

Definition decode_error {A} : result A :=
  Err (UnicodeDecodeError "'utf-8' codec can't decode byte").

Fixpoint utf8_decode (l : list byte) : result (list Z) :=
  match l with
  | [] => Ok []
  | b1 :: r1 =>
      let c1 := bval b1 in
      if c1 <? 0x80 then rbind (utf8_decode r1) (fun cs => Ok (c1 :: cs))
      else if (0xC2 <=? c1) && (c1 <=? 0xDF) then
        match r1 with
        | b2 :: r2 =>
            if is_cont (bval b2) then
              rbind (utf8_decode r2) (fun cs => Ok ((c1 - 0xC0) * 64 + (bval b2 - 0x80) :: cs))
            else decode_error
        | [] => decode_error
        end
      else if (0xE0 <=? c1) && (c1 <=? 0xEF) then
        match r1 with
        | b2 :: b3 :: r3 =>
            if second_ok c1 (bval b2) && is_cont (bval b3) then
              rbind (utf8_decode r3) (fun cs =>
                Ok ((c1 - 0xE0) * 4096 + (bval b2 - 0x80) * 64 + (bval b3 - 0x80) :: cs))
            else decode_error
        | _ => decode_error
        end
      else if (0xF0 <=? c1) && (c1 <=? 0xF4) then
        match r1 with
        | b2 :: b3 :: b4 :: r4 =>
            if second_ok c1 (bval b2) && is_cont (bval b3) && is_cont (bval b4) then
              rbind (utf8_decode r4) (fun cs =>
                Ok ((c1 - 0xF0) * 262144 + (bval b2 - 0x80) * 4096 + (bval b3 - 0x80) * 64
                    + (bval b4 - 0x80) :: cs))
            else decode_error
        | _ => decode_error
        end
      else decode_error
  end.

(** A Unicode scalar value: a code point that is not a surrogate. *)
Definition scalar (c : Z) : Prop := 0 <= c <= 0x10FFFF /\ ~ (0xD800 <= c <= 0xDFFF).

Definition encode_cp (c : Z) : list byte :=
  if c <? 0x80 then [byte_of_Z c]
  else if c <? 0x800 then [byte_of_Z (0xC0 + c / 64); byte_of_Z (0x80 + c mod 64)]
  else if c <? 0x10000 then
    [byte_of_Z (0xE0 + c / 4096); byte_of_Z (0x80 + (c / 64) mod 64); byte_of_Z (0x80 + c mod 64)]
  else
    [byte_of_Z (0xF0 + c / 262144); byte_of_Z (0x80 + (c / 4096) mod 64);
     byte_of_Z (0x80 + (c / 64) mod 64); byte_of_Z (0x80 + c mod 64)].

Definition utf8_encode (cs : list Z) : list byte := flat_map encode_cp cs.

(** A Python [str], represented by its UTF-8 encoding. *)
Definition py_str (cs : list Z) : string := String.string_of_list_byte (utf8_encode cs).

(** The text [io.TextIOWrapper(f, encoding='UTF-8')] reads from a file
    with contents [raw], before the translation of newlines. *)
Definition text_io_read (raw : list byte) : result string :=
  rbind (utf8_decode raw) (fun cs => Ok (py_str cs)).

(** * Lemmas *)

Ltac zlia := Z.to_euclidean_division_equations; lia.

Lemma bval_range b : 0 <= bval b < 256.
Proof. unfold bval. pose proof (Byte.to_N_bounded b). lia. Qed.

Lemma bval_byte_of_Z z : 0 <= z < 256 -> bval (byte_of_Z z) = z.
Proof.
  intros Hz. unfold byte_of_Z. destruct (Byte.of_N (Z.to_N z)) as [b|] eqn:E.
  - apply Byte.to_of_N in E. unfold bval. rewrite E. lia.
  - apply Byte.of_N_None_iff in E. lia.
Qed.

Lemma byte_of_Z_bval b : byte_of_Z (bval b) = b.
Proof. unfold byte_of_Z, bval. by rewrite N2Z.id, Byte.of_to_N. Qed.

Lemma bval_inj b c : bval b = bval c -> b = c.
Proof. intros H. by rewrite <- (byte_of_Z_bval b), H, byte_of_Z_bval. Qed.

Ltac byte_eq := apply bval_inj; rewrite bval_byte_of_Z by zlia; zlia.

(** ** The decoder, one sequence at a time *)

Lemma is_cont_spec c : is_cont c = true <-> 0x80 <= c <= 0xBF.
Proof. unfold is_cont. rewrite andb_true_iff, Z.leb_le, Z.leb_le. done. Qed.

Lemma second_ok_spec c1 c2 : second_ok c1 c2 = true <-> second_lo c1 <= c2 <= second_hi c1.
Proof. unfold second_ok. rewrite andb_true_iff, Z.leb_le, Z.leb_le. done. Qed.

Lemma ltb_false a b : b <= a -> (a <? b) = false.
Proof. apply Z.ltb_ge. Qed.

Lemma range_true a b c : a <= b <= c -> (a <=? b) && (b <=? c) = true.
Proof. intros. apply andb_true_iff. split; apply Z.leb_le; lia. Qed.

Lemma range_false a b c : ~ (a <= b <= c) -> (a <=? b) && (b <=? c) = false.
Proof. intros H. apply not_true_is_false. intros [?%Z.leb_le ?%Z.leb_le]%andb_true_iff. lia. Qed.

Lemma decode_1 b r :
  bval b < 0x80 -> utf8_decode (b :: r) = rbind (utf8_decode r) (fun cs => Ok (bval b :: cs)).
Proof. intros H. cbn [utf8_decode]. by rewrite (proj2 (Z.ltb_lt _ _) H). Qed.

Lemma decode_2 b1 b2 r :
  0xC2 <= bval b1 <= 0xDF -> is_cont (bval b2) = true ->
  utf8_decode (b1 :: b2 :: r) =
    rbind (utf8_decode r) (fun cs => Ok ((bval b1 - 0xC0) * 64 + (bval b2 - 0x80) :: cs)).
Proof. intros H1 H2. cbn [utf8_decode]. by rewrite ltb_false, range_true, H2 by lia. Qed.

Lemma decode_3 b1 b2 b3 r :
  0xE0 <= bval b1 <= 0xEF -> second_ok (bval b1) (bval b2) = true -> is_cont (bval b3) = true ->
  utf8_decode (b1 :: b2 :: b3 :: r) =
    rbind (utf8_decode r) (fun cs =>
      Ok ((bval b1 - 0xE0) * 4096 + (bval b2 - 0x80) * 64 + (bval b3 - 0x80) :: cs)).
Proof.
  intros H1 H2 H3. cbn [utf8_decode].
  by rewrite ltb_false, range_false, range_true, H2, H3 by lia.
Qed.

Lemma decode_4 b1 b2 b3 b4 r :
  0xF0 <= bval b1 <= 0xF4 -> second_ok (bval b1) (bval b2) = true ->
  is_cont (bval b3) = true -> is_cont (bval b4) = true ->
  utf8_decode (b1 :: b2 :: b3 :: b4 :: r) =
    rbind (utf8_decode r) (fun cs =>
      Ok ((bval b1 - 0xF0) * 262144 + (bval b2 - 0x80) * 4096 + (bval b3 - 0x80) * 64
          + (bval b4 - 0x80) :: cs)).
Proof.
  intros H1 H2 H3 H4. cbn [utf8_decode].
  by rewrite ltb_false, range_false, range_false, range_true, H2, H3, H4 by lia.
Qed.

(** ** Decoding an encoding *)

Ltac second_tac :=
  apply second_ok_spec; unfold second_lo, second_hi;
  repeat match goal with |- context [?a =? ?b] => destruct (Z.eqb_spec a b) end; zlia.

Ltac finish_decode rest :=
  rewrite ?bval_byte_of_Z by zlia;
  first [ destruct (utf8_decode rest); cbn; [repeat f_equal; zlia|done]
        | apply is_cont_spec; zlia | second_tac | zlia ].

Lemma decode_encode_cp c rest :
  scalar c -> utf8_decode (encode_cp c ++ rest) = rbind (utf8_decode rest) (fun cs => Ok (c :: cs)).
Proof.
  intros [Hc Hs]. unfold encode_cp.
  destruct (Z.ltb_spec c 0x80); [|destruct (Z.ltb_spec c 0x800); [|destruct (Z.ltb_spec c 0x10000)]];
    cbn [app].
  - rewrite decode_1. all: finish_decode rest.
  - rewrite decode_2. all: finish_decode rest.
  - rewrite decode_3. all: finish_decode rest.
  - rewrite decode_4. all: finish_decode rest.
Qed.

Lemma decode_encode cs rest :
  Forall scalar cs -> utf8_decode (utf8_encode cs ++ rest) = rbind (utf8_decode rest) (fun cs' => Ok (cs ++ cs')).
Proof.
  induction 1 as [|c cs Hc _ IH]; cbn [utf8_encode flat_map app].
  - by destruct (utf8_decode rest).
  - fold (utf8_encode cs). rewrite <- app_assoc, decode_encode_cp, IH by done.
    by destruct (utf8_decode rest).
Qed.

(** ** Encoding what was decoded *)

Lemma decode_step x r cps bs :
  rbind (utf8_decode r) (fun cs => Ok (x :: cs)) = Ok cps ->
  (forall cps, utf8_decode r = Ok cps -> Forall scalar cps /\ utf8_encode cps = r) ->
  scalar x -> encode_cp x = bs ->
  Forall scalar cps /\ utf8_encode cps = bs ++ r.
Proof.
  intros H IH Hx Hbs. destruct (utf8_decode r) as [cs|e] eqn:Hr; cbn in H; [|discriminate].
  injection H as <-. destruct (IH cs eq_refl) as [Hs He].
  split; [by constructor|]. cbn [utf8_encode flat_map]. fold (utf8_encode cs). by rewrite He, Hbs.
Qed.

Lemma range_spec a b c : (a <=? b) && (b <=? c) = true -> a <= b <= c.
Proof. intros [?%Z.leb_le ?%Z.leb_le]%andb_true_iff. lia. Qed.

Ltac encode_tac :=
  unfold encode_cp;
  repeat match goal with |- context [?a <? ?b] => destruct (Z.ltb_spec a b); try zlia end;
  repeat f_equal; byte_eq.

Ltac second_facts H :=
  apply second_ok_spec in H; unfold second_lo, second_hi in H;
  repeat match type of H with context [?a =? ?b] => destruct (Z.eqb_spec a b) end.

Ltac derr := unfold decode_error in *; discriminate.

Lemma decode_ok_inv raw cps :
  utf8_decode raw = Ok cps -> Forall scalar cps /\ utf8_encode cps = raw.
Proof.
  remember (length raw) as n eqn:Hn. revert raw cps Hn.
  induction n as [n IH] using (well_founded_induction lt_wf). intros raw cps Hn H.
  destruct raw as [|b1 r1]; [injection H as <-; split; constructor|].
  pose proof (bval_range b1) as R1. cbn [utf8_decode] in H. revert H.
  destruct (Z.ltb_spec (bval b1) 0x80) as [L|L]; intros H.
  { change (b1 :: r1) with ([b1] ++ r1). eapply decode_step; [exact H| |split; lia|encode_tac].
    intros; eapply IH; [|reflexivity|done]. subst n. cbn. lia. }
  revert H. destruct ((0xC2 <=? bval b1) && (bval b1 <=? 0xDF)) eqn:E2; intros H.
  { apply range_spec in E2. destruct r1 as [|b2 r2]; [derr|]. pose proof (bval_range b2).
    revert H. destruct (is_cont (bval b2)) eqn:C2; intros H; [|derr]. apply is_cont_spec in C2.
    change (b1 :: b2 :: r2) with ([b1; b2] ++ r2). eapply decode_step; [exact H| |unfold scalar; zlia|encode_tac].
    intros; eapply IH; [|reflexivity|done]. subst n. cbn. lia. }
  revert H. destruct ((0xE0 <=? bval b1) && (bval b1 <=? 0xEF)) eqn:E3; intros H.
  { apply range_spec in E3. destruct r1 as [|b2 [|b3 r3]]; [derr|derr|].
    pose proof (bval_range b2). pose proof (bval_range b3).
    revert H. destruct (second_ok (bval b1) (bval b2) && is_cont (bval b3)) eqn:C; intros H; [|derr].
    apply andb_true_iff in C as [C2 C3]. apply is_cont_spec in C3. second_facts C2.
    all: change (b1 :: b2 :: b3 :: r3) with ([b1; b2; b3] ++ r3);
      eapply decode_step; [exact H| |unfold scalar; zlia|encode_tac].
    all: intros; eapply IH; [|reflexivity|done]; subst n; cbn; lia. }
  revert H. destruct ((0xF0 <=? bval b1) && (bval b1 <=? 0xF4)) eqn:E4; intros H; [|derr].
  apply range_spec in E4. destruct r1 as [|b2 [|b3 [|b4 r4]]]; [derr|derr|derr|].
  pose proof (bval_range b2). pose proof (bval_range b3). pose proof (bval_range b4).
  revert H. destruct (second_ok (bval b1) (bval b2) && is_cont (bval b3) && is_cont (bval b4)) eqn:C;
    intros H; [|derr].
  apply andb_true_iff in C as [[C2 C3]%andb_true_iff C4]. apply is_cont_spec in C3, C4. second_facts C2.
  all: change (b1 :: b2 :: b3 :: b4 :: r4) with ([b1; b2; b3; b4] ++ r4);
    eapply decode_step; [exact H| |unfold scalar; zlia|encode_tac].
  all: intros; eapply IH; [|reflexivity|done]; subst n; cbn; lia.
Qed.

(** Every byte of the encoding of a non-ASCII character is at least
    0x80: the bytes of CR and LF only ever stand for themselves. *)
Lemma encode_cp_high c : scalar c -> 0x80 <= c -> Forall (fun b => 0x80 <= bval b) (encode_cp c).
Proof.
  intros [Hc Hs] Hh. unfold encode_cp.
  repeat match goal with |- context [?a <? ?b] => destruct (Z.ltb_spec a b); try zlia end.
  all: repeat constructor; rewrite bval_byte_of_Z by zlia; zlia.
Qed.

(** The codec on an ASCII text is the identity. *)
Lemma encode_cp_ascii c : 0 <= c < 0x80 -> encode_cp c = [byte_of_Z c].
Proof. intros Hc. unfold encode_cp. by rewrite (proj2 (Z.ltb_lt c 0x80)) by lia. Qed.

(** The UTF-8 codec of TextIOWrapper accepts exactly the encodings of
    sequences of Unicode scalar values: decoding the bytes raw succeeds
    with the code points cps if and only if they are scalar values (no
    surrogate, nothing above U+10FFFF) and their encoding is raw itself;
    overlong forms, stray continuation bytes, surrogates and sequences cut
    short raise UnicodeDecodeError. *)
Theorem utf8_decode_spec raw cps :
  utf8_decode raw = Ok cps <-> Forall scalar cps /\ utf8_encode cps = raw.
Proof.
  split; [apply decode_ok_inv|]. intros [Hs <-].
  pose proof (decode_encode cps [] Hs) as H. rewrite app_nil_r in H. rewrite H. cbn. by rewrite app_nil_r.
Qed.

(** The only error of the codec is [UnicodeDecodeError]. *)
Lemma decode_err raw e : utf8_decode raw = Err e -> e = UnicodeDecodeError "'utf-8' codec can't decode byte".
Proof.
  remember (length raw) as n eqn:Hn. revert raw e Hn.
  induction n as [n IH] using (well_founded_induction lt_wf). intros raw e Hn.
  destruct raw as [|b1 r1]; cbn [utf8_decode]; [done|].
  repeat case_match; subst; unfold decode_error; intros Hd; try (by injection Hd as <-);
    match type of Hd with
    | rbind (utf8_decode ?r) _ = _ =>
        destruct (utf8_decode r) eqn:Hr; cbn in Hd; [discriminate|injection Hd as <-];
        eapply IH; [|reflexivity|exact Hr]; cbn; lia
    end.
Qed.

(** What [TextIOWrapper] reads is the file's bytes, or it raises the
    decoding error. *)
Lemma text_io_read_cases raw :
  (exists cps, utf8_decode raw = Ok cps /\ text_io_read raw = Ok (String.string_of_list_byte raw)) \/
  (utf8_decode raw = decode_error /\ text_io_read raw = decode_error).
Proof.
  unfold text_io_read. destruct (utf8_decode raw) as [cps|e] eqn:H.
  - left. exists cps. split; [done|]. apply decode_ok_inv in H as [_ He]. cbn. unfold py_str. by rewrite He.
  - right. apply decode_err in H as ->. done.
Qed.
