(* ===== verification/Xml.v ===== *)
(** * ElementTree elements, parse events and the pull parser

    [element] is [xml.etree.ElementTree.Element] as the program uses it:
    a tag, an attribute dict and the list of child elements.  Attribute
    values are [value]s and not only strings because the program stores
    an [int] with [el.set("seq", workout_id)], and the rows it builds
    hold lists of dicts ([workout_events]) and the fields of GPX points.
    [findall_tag] and [findall_path] are [el.findall("T")] and
    [el.findall("A/B")].  The incremental parser [XMLPullParser] is a
    collaborator: the class [PullParser] states the interface
    [find_all_tags] needs (feed a chunk, read the events completed so
    far), and [scripted_parser] is one implementation, used to run the
    extractor on concrete inputs. *)

From stdpp Require Import base list strings.
From Stdlib Require Import ZArith.
From S2P Require Import Prelude PyDict.

#[local] Set Warnings "-register-all".

Local Open Scope string_scope.
Local Open Scope list_scope.

Inductive value : Type :=
  | VStr (s : string)
  | VInt (z : Z)
  | VNone
  | VDicts (ds : list (list (string * value)))
  | VRepr (r : string).

(** A row handed to the storage layer: a dict of column values. *)
Abbreviation row := (dict value).

Inductive element : Type :=
  | Element (tag : string) (attrib : dict value) (children : list element).

Definition el_tag (e : element) : string := let '(Element t _ _) := e in t.
Definition el_attrib (e : element) : dict value := let '(Element _ a _) := e in a.
Definition el_children (e : element) : list element := let '(Element _ _ c) := e in c.

(** Induction over elements with a hypothesis for every child. *)
Fixpoint element_ind' (P : element -> Prop)
    (H : forall t a cs, Forall P cs -> P (Element t a cs)) (e : element) : P e :=
  match e with
  | Element t a cs =>
      H t a cs
        ((fix go (l : list element) : Forall P l :=
            match l with
            | [] => List.Forall_nil P
            | x :: l' => List.Forall_cons P x l' (element_ind' P H x) (go l')
            end) cs)
  end.

(** [el.set(k, v)] *)
Definition el_set (k : string) (v : value) (e : element) : element :=
  let '(Element t a cs) := e in Element t (dict_set k v a) cs.

(** [el.findall("T")]: the children with tag [T], in document order. *)
Definition findall_tag (t : string) (e : element) : list element :=
  filter (fun c => el_tag c = t) (el_children e).

(** [el.findall("A/B")] *)
Definition findall_path (a b : string) (e : element) : list element :=
  flat_map (findall_tag b) (findall_tag a e).

(** ** Parse events *)

Inductive event : Type :=
  | EvStart (e : element)
  | EvEnd (e : element).

(** The events [XMLPullParser(("start", "end"))] reports for a subtree:
    at [start] the element has its attributes and no children yet, at
    [end] it is complete. *)
Fixpoint events_of (e : element) : list event :=
  match e with
  | Element t a cs => EvStart (Element t a []) :: flat_map events_of cs ++ [EvEnd e]
  end.

(** The elements whose [end] event carries an interesting tag, in the
    order their [end] events come: children before parents. *)
Fixpoint closing_matches (tags : list string) (e : element) : list element :=
  match e with
  | Element t a cs =>
      flat_map (closing_matches tags) cs ++ (if decide (t ∈ tags) then [e] else [])
  end.

(** ** The pull parser interface *)

Class PullParser : Type := {
  pp_state : Type;
  pp_init : pp_state;
  (** [parser.feed(chunk)] then [parser.read_events()]: the events the
      chunk completes, in order, then the new state, or the
      [XmlParseError] that [feed] queued behind the events reported
      before the malformed markup ([read_events] raises it when it
      reaches it). *)
  pp_feed : pp_state -> list Byte.byte -> M event pp_state
}.

(** A parser that releases each scripted event once the number of bytes
    fed reaches the event's offset: the offset is the position of the
    byte that completes the tag. *)
Fixpoint release (fed : nat) (script : list (nat * event)) : list event * list (nat * event) :=
  match script with
  | (n, ev) :: script' =>
      if Nat.leb n fed then let '(r, rest) := release fed script' in (ev :: r, rest)
      else ([], script)
  | [] => ([], [])
  end.

Definition scripted_feed (st : nat * list (nat * event)) (chunk : list Byte.byte)
    : M event (nat * list (nat * event)) :=
  let fed := st.1 + length chunk in
  let '(ready, rest) := release fed st.2 in
  (ready, Ok (fed, rest)).

Definition scripted_parser (script : list (nat * event)) : PullParser := {|
  pp_state := nat * list (nat * event);
  pp_init := (0, script);
  pp_feed := scripted_feed
|}.
