(* ===== verification/XmlParser.v ===== *)
(** * ElementTree's [XMLPullParser], on the markup an export uses

    [find_all_tags] (utils.py, lines 9-25) creates
    [ET.XMLPullParser(("start", "end"))], feeds it chunks of 1 MiB and reads
    the events each chunk completes.  The parser is the Python library's
    (expat under ElementTree's [TreeBuilder]); [Xml.PullParser] is the
    interface the extractor needs, and this file gives it an
    implementation, [xml_parser], on the part of XML the Apple Health
    export is written in:

    - markup [<...>] is cut out of the byte stream by a lexer that carries
      its state from one chunk to the next, so that a tag split across two
      chunks is reported once it is complete;
    - a tag is a start tag with its attributes ([name="value"] or
      [name='value'], with the five predefined entities), an empty-element
      tag [<t .../>], an end tag [</t>], or a declaration, comment or
      processing instruction ([<!...>], [<?...?>]), which reports nothing;
    - the tree builder keeps the stack of open elements: a start tag
      reports [start] with the element without children, an end tag
      [end] with the complete element; an end tag that does not match,
      a second root or a duplicate attribute raise [XmlParseError].

    Character data (text, tails) is skipped: the program never reads
    [el.text].  Not modelled: character references, a [>] inside an
    attribute value or a comment, CDATA sections, namespaces, and the
    decoding of names (bytes are kept as Latin-1 characters).

    [feed] (an error is queued behind the events reported before it) and
    [read_events] are one step [xml_feed] of the effect monad: the events
    are its trace, the new state or the error its outcome. *)

From stdpp Require Import base list strings sets.
From Stdlib Require Import Strings.Byte.
From S2P Require Import Prelude PyDict Xml.

Local Open Scope list_scope.

(** ** Bytes *)

Definition LT : byte := "<"%byte.
Definition GT : byte := ">"%byte.
Definition SLASH : byte := "/"%byte.
Definition EQ : byte := "="%byte.
Definition DQUOTE : byte := x22.
Definition SQUOTE : byte := "'"%byte.
Definition AMP : byte := "&"%byte.
Definition SEMI : byte := ";"%byte.
Definition QMARK : byte := "?"%byte.
Definition BANG : byte := "!"%byte.
Definition SPACE : byte := " "%byte.

#[export] Instance byte_eq_decision : EqDecision byte := Byte.byte_eq_dec.

Lemma byte_eqb_spec (b c : byte) : reflect (b = c) (Byte.eqb b c).
Proof. apply iff_reflect. split; [apply Byte.byte_dec_lb|apply Byte.byte_dec_bl]. Qed.

(** Names and values are bytes in the stream and strings in the tree. *)
Abbreviation bytes_of := String.list_byte_of_string.
Abbreviation string_of := String.string_of_list_byte.

Definition byte_in (b : byte) (l : list byte) : bool := existsb (Byte.eqb b) l.

(** XML white space: space, tab, line feed, carriage return. *)
Definition is_space (b : byte) : bool := byte_in b [SPACE; x09; x0a; x0d].

(** A byte that can be part of a name: no white space and none of the
    delimiters of markup. *)
Definition is_name_byte (b : byte) : bool :=
  negb (is_space b || byte_in b [LT; GT; SLASH; EQ; DQUOTE; SQUOTE; AMP; QMARK; BANG; SEMI]).

(** The longest prefix of bytes satisfying [p], and the rest. *)
Fixpoint span (p : byte -> bool) (l : list byte) : list byte * list byte :=
  match l with
  | b :: l' => if p b then let '(x, r) := span p l' in (b :: x, r) else ([], l)
  | [] => ([], [])
  end.

Definition xml_error {A} (what : string) : result A := Err (XmlParseError what).

(** ** The lexer: markup out of the byte stream *)

(** Outside markup, or inside [<...] with the bytes read so far
    (reversed). *)
Inductive lex_state : Type :=
  | LText
  | LTag (rbuf : list byte).

Definition lex_byte (ls : lex_state) (b : byte) : lex_state * list (list byte) :=
  match ls with
  | LText => if Byte.eqb b LT then (LTag [], []) else (LText, [])
  | LTag rbuf => if Byte.eqb b GT then (LText, [rev rbuf]) else (LTag (b :: rbuf), [])
  end.

(** The contents of the markup completed by [bs], and the state after. *)
Fixpoint lex (ls : lex_state) (bs : list byte) : lex_state * list (list byte) :=
  match bs with
  | [] => (ls, [])
  | b :: bs' =>
      let '(ls1, t1) := lex_byte ls b in
      let '(ls2, t2) := lex ls1 bs' in
      (ls2, t1 ++ t2)
  end.

(** ** Attribute values: the predefined entities *)

Definition entity_char (name : list byte) : result byte :=
  if decide (name = bytes_of "amp") then Ok AMP
  else if decide (name = bytes_of "lt") then Ok LT
  else if decide (name = bytes_of "gt") then Ok GT
  else if decide (name = bytes_of "quot") then Ok DQUOTE
  else if decide (name = bytes_of "apos") then Ok SQUOTE
  else xml_error "undefined entity".

(** Outside an entity, or inside [&...] with its name so far (reversed). *)
Definition unesc_byte (st : option (list byte)) (b : byte) : result (option (list byte) * list byte) :=
  match st with
  | None =>
      if Byte.eqb b AMP then Ok (Some [], [])
      else if Byte.eqb b LT then xml_error "not well-formed (invalid token)"
      else Ok (None, [b])
  | Some rname =>
      if Byte.eqb b SEMI then rbind (entity_char (rev rname)) (fun c => Ok (None, [c]))
      else Ok (Some (b :: rname), [])
  end.

Fixpoint unescape_from (st : option (list byte)) (l : list byte) : result (list byte) :=
  match l with
  | [] => match st with None => Ok [] | Some _ => xml_error "not well-formed (invalid token)" end
  | b :: l' =>
      rbind (unesc_byte st b) (fun '(st', out) =>
      rbind (unescape_from st' l') (fun rest => Ok (out ++ rest)))
  end.

Definition unescape (l : list byte) : result (list byte) := unescape_from None l.

(** ** Tags *)

Inductive tag_tok : Type :=
  | TOpen (name : string) (attrib : dict value) (empty : bool)
  | TClose (name : string)
  | TSkip.

Definition parse_name (l : list byte) : result (list byte * list byte) :=
  match span is_name_byte l with
  | ([], _) => xml_error "not well-formed (invalid token)"
  | (n, r) => Ok (n, r)
  end.

Definition is_quote (b : byte) : bool := Byte.eqb b DQUOTE || Byte.eqb b SQUOTE.

(** [="value"] after an attribute name, white space allowed around [=]:
    the unescaped value and the rest. *)
Definition parse_value (l : list byte) : result (list byte * list byte) :=
  match (span is_space l).2 with
  | e :: r =>
      if Byte.eqb e EQ then
        match (span is_space r).2 with
        | q :: r' =>
            if is_quote q then
              let '(v, r'') := span (fun c => negb (Byte.eqb c q)) r' in
              match r'' with
              | _ :: rest => rbind (unescape v) (fun v' => Ok (v', rest))
              | [] => xml_error "unclosed token"
              end
            else xml_error "not well-formed (invalid token)"
        | [] => xml_error "unclosed token"
        end
      else xml_error "not well-formed (invalid token)"
  | [] => xml_error "unclosed token"
  end.

(** The attributes after the tag name, in document order, and whether
    the tag ends with [/].  Every attribute follows white space; each
    round consumes at least one byte, so [length l] rounds are enough. *)
Fixpoint parse_attrs (fuel : nat) (acc : dict value) (l : list byte) : result (dict value * bool) :=
  match fuel with
  | O => xml_error "not well-formed (invalid token)"
  | S fuel' =>
      let '(sp, r) := span is_space l in
      match r with
      | [] => Ok (acc, false)
      | b :: r' =>
          if Byte.eqb b SLASH then
            match r' with [] => Ok (acc, true) | _ => xml_error "not well-formed (invalid token)" end
          else if decide (sp = []) then xml_error "not well-formed (invalid token)"
          else
            rbind (parse_name r) (fun '(k, r1) =>
            rbind (parse_value r1) (fun '(v, r2) =>
            match dict_get (string_of k) acc with
            | Some _ => xml_error "duplicate attribute"
            | None => parse_attrs fuel' (acc ++ [(string_of k, VStr (string_of v))]) r2
            end))
      end
  end.

(** The contents of [<...>] as a tag. *)
Definition parse_tag (c : list byte) : result tag_tok :=
  match c with
  | b :: r =>
      if Byte.eqb b SLASH then
        rbind (parse_name r) (fun '(n, r1) =>
          if forallb is_space r1 then Ok (TClose (string_of n))
          else xml_error "not well-formed (invalid token)")
      else if Byte.eqb b QMARK || Byte.eqb b BANG then Ok TSkip
      else
        rbind (parse_name c) (fun '(n, r1) =>
        rbind (parse_attrs (S (length r1)) [] r1) (fun '(a, empty) =>
        Ok (TOpen (string_of n) a empty)))
  | [] => xml_error "not well-formed (invalid token)"
  end.

(** ** The tree builder *)

(** An open element: its tag, attributes and the children closed so far. *)
Record xframe := XFrame { xf_tag : string; xf_attrib : dict value; xf_children : list element }.

(** The stack of open elements, innermost first, and whether the root
    has been closed. *)
Record builder := Builder { b_stack : list xframe; b_closed : bool }.

Definition builder_init : builder := Builder [] false.

Definition add_child (e : element) (f : xframe) : xframe :=
  XFrame (xf_tag f) (xf_attrib f) (xf_children f ++ [e]).

(** [end]: report the complete element and give it to its parent. *)
Definition close_el (e : element) (stack : list xframe) : M event builder :=
  emit (EvEnd e);;;
  match stack with
  | [] => ret (Builder [] true)
  | p :: stack' => ret (Builder (add_child e p :: stack') false)
  end.

Definition build_tok (bd : builder) (t : tag_tok) : M event builder :=
  match t with
  | TSkip => ret bd
  | TOpen n a empty =>
      if b_closed bd then lift (xml_error "junk after document element")
      else
        emit (EvStart (Element n a []));;;
        if empty then close_el (Element n a []) (b_stack bd)
        else ret (Builder (XFrame n a [] :: b_stack bd) false)
  | TClose n =>
      match b_stack bd with
      | [] => lift (xml_error (if b_closed bd then "junk after document element"
                               else "not well-formed (invalid token)"))
      | f :: stack' =>
          if String.eqb n (xf_tag f) then close_el (Element (xf_tag f) (xf_attrib f) (xf_children f)) stack'
          else lift (xml_error "mismatched tag")
      end
  end.

Definition build_markup (bd : builder) (c : list byte) : M event builder :=
  t <- lift (parse_tag c);;
  build_tok bd t.

(** ** The parser *)

Record xml_state := XState { xs_lex : lex_state; xs_builder : builder }.

Definition xml_init : xml_state := XState LText builder_init.

(** [parser.feed(chunk)] then [parser.read_events()]. *)
Definition xml_feed (st : xml_state) (chunk : list byte) : M event xml_state :=
  let '(ls, marks) := lex (xs_lex st) chunk in
  bd <- mfold build_markup (xs_builder st) marks;;
  ret (XState ls bd).

Definition xml_parser : PullParser := {|
  pp_state := xml_state;
  pp_init := xml_init;
  pp_feed := xml_feed
|}.

(** ** Serialization: the bytes of a document

    [render] writes an element the way the export does: attributes in
    dict order between double quotes, with ampersand, [<], [>] and the double
    quote escaped,
    an element without children as an empty-element tag. *)

Definition markup (m : list byte) : list byte := LT :: m ++ [GT].

Definition escape_byte (b : byte) : list byte :=
  if Byte.eqb b AMP then bytes_of "&amp;"
  else if Byte.eqb b LT then bytes_of "&lt;"
  else if Byte.eqb b GT then bytes_of "&gt;"
  else if Byte.eqb b DQUOTE then bytes_of "&quot;"
  else [b].

Definition escape (l : list byte) : list byte := flat_map escape_byte l.

Definition value_bytes (v : value) : list byte :=
  match v with VStr s => bytes_of s | _ => [] end.

Definition render_attr (kv : string * value) : list byte :=
  SPACE :: bytes_of kv.1 ++ EQ :: DQUOTE :: escape (value_bytes kv.2) ++ [DQUOTE].

Definition render_attrs (a : dict value) : list byte := flat_map render_attr a.

(** The contents of the markup of an element, in document order. *)
Fixpoint marks_of (e : element) : list (list byte) :=
  match e with
  | Element t a [] => [bytes_of t ++ render_attrs a ++ [SLASH]]
  | Element t a cs =>
      (bytes_of t ++ render_attrs a) :: flat_map marks_of cs ++ [SLASH :: bytes_of t]
  end.

Definition render (e : element) : list byte := flat_map markup (marks_of e).

(** An export file: the XML declaration, the document element, a final
    line feed. *)
Definition XML_DECL : list byte := markup (bytes_of "?xml version='1.0' encoding='UTF-8'?").

Definition export_bytes (doc : element) : list byte := XML_DECL ++ x0a :: render doc ++ [x0a].

(** The documents [render] writes and [xml_parser] reads back: non-empty
    names made of name bytes, distinct attribute names, string values. *)
Definition name_okb (s : string) : bool :=
  negb (bool_decide (bytes_of s = [])) && forallb is_name_byte (bytes_of s).

Definition attr_okb (kv : string * value) : bool :=
  name_okb kv.1 && match kv.2 with VStr _ => true | _ => false end.

Fixpoint el_xml_okb (e : element) : bool :=
  match e with
  | Element t a cs =>
      name_okb t && forallb attr_okb a && bool_decide (dict_wf a) && forallb el_xml_okb cs
  end.

(** The state after a whole document. *)
Definition xml_done : xml_state := XState LText (Builder [] true).

(** The builder after [e] closed on top of [stack]. *)
Definition after_close (e : element) (stack : list xframe) : builder :=
  match stack with
  | [] => Builder [] true
  | p :: stack' => Builder (add_child e p :: stack') false
  end.

(** * Lemmas *)

(** ** Chunks *)

Lemma lex_app ls l1 l2 :
  lex ls (l1 ++ l2) = let '(ls1, t1) := lex ls l1 in let '(ls2, t2) := lex ls1 l2 in (ls2, t1 ++ t2).
Proof.
  revert ls. induction l1 as [|b l1 IH]; intros ls; cbn [lex app].
  - by destruct (lex ls l2).
  - destruct (lex_byte ls b) as [ls1 t1]. rewrite IH.
    destruct (lex ls1 l1) as [ls2 t2]. destruct (lex ls2 l2) as [ls3 t3]. by rewrite app_assoc.
Qed.

(** Feeding two pieces is feeding their concatenation. *)
Lemma xml_feed_app st c1 c2 :
  xml_feed st (c1 ++ c2) = bind (xml_feed st c1) (fun st' => xml_feed st' c2).
Proof.
  unfold xml_feed. rewrite lex_app.
  destruct (lex (xs_lex st) c1) as [ls1 t1]. destruct (lex ls1 c2) as [ls2 t2] eqn:Hl2.
  rewrite mfold_app, !bind_assoc. apply bind_ext. intros bd.
  rewrite bind_ret_l. cbn [xs_lex xs_builder]. by rewrite Hl2.
Qed.

Lemma xml_feed_nil st : xml_feed st [] = ret st.
Proof. by destruct st. Qed.

(** ** Bytes *)

Definition no_gt (m : list byte) : bool := forallb (fun b => negb (Byte.eqb b GT)) m.

Lemma name_byte_not b c :
  is_name_byte b = true -> c ∈ [SPACE; x09; x0a; x0d; LT; GT; SLASH; EQ; DQUOTE; SQUOTE; AMP; QMARK; BANG; SEMI] ->
  Byte.eqb b c = false.
Proof.
  intros Hb Hc. destruct (byte_eqb_spec b c) as [->|]; [|done].
  exfalso. revert Hb. repeat (inversion Hc as [|? ? ? Hc']; subst; [done|clear Hc; rename Hc' into Hc]).
  inversion Hc.
Qed.

(** The side conditions of [name_byte_not]: the byte is a name byte, the
    delimiter is in the list. *)
Ltac delim_side := done || (vm_compute; repeat constructor).

Lemma span_app p x r :
  forallb p x = true -> (match r with [] => True | b :: _ => p b = false end) ->
  span p (x ++ r) = (x, r).
Proof.
  intros Hx Hr. induction x as [|b x IH]; cbn [app span].
  - destruct r as [|b r]; [done|]. cbn [span]. by rewrite Hr.
  - cbn [forallb] in Hx. apply andb_prop in Hx as [-> Hx]. by rewrite IH.
Qed.

(** ** The lexer on rendered markup *)

Lemma lex_tag rbuf m l :
  no_gt m = true ->
  lex (LTag rbuf) (m ++ GT :: l) = let '(ls, ts) := lex LText l in (ls, (rev rbuf ++ m) :: ts).
Proof.
  revert rbuf. induction m as [|b m IH]; intros rbuf Hm; cbn [app lex lex_byte].
  - cbn. destruct (lex LText l). by rewrite app_nil_r.
  - cbn [no_gt forallb] in Hm. apply andb_prop in Hm as [Hb Hm].
    apply negb_true_iff in Hb. rewrite Hb, IH by done. cbn [rev].
    destruct (lex LText l). by rewrite <- app_assoc.
Qed.

Lemma lex_open l : lex LText (LT :: l) = lex (LTag []) l.
Proof. cbn. by destruct (lex (LTag []) l). Qed.

Lemma lex_markups ms l :
  Forall (fun m => no_gt m = true) ms ->
  lex LText (flat_map markup ms ++ l) = let '(ls, ts) := lex LText l in (ls, ms ++ ts).
Proof.
  induction 1 as [|m ms Hm _ IH]; cbn [flat_map app]; [by destruct (lex LText l)|].
  rewrite <- app_assoc. unfold markup at 1. cbn [app]. rewrite lex_open, <- app_assoc.
  cbn [app]. rewrite lex_tag, IH by done. by destruct (lex LText l).
Qed.

(** ** Escaping *)

Lemma escape_byte_cases b :
  (b = AMP /\ escape_byte b = bytes_of "&amp;") \/ (b = LT /\ escape_byte b = bytes_of "&lt;") \/
  (b = GT /\ escape_byte b = bytes_of "&gt;") \/ (b = DQUOTE /\ escape_byte b = bytes_of "&quot;") \/
  (b <> AMP /\ b <> LT /\ b <> GT /\ b <> DQUOTE /\ escape_byte b = [b]).
Proof.
  unfold escape_byte.
  destruct (byte_eqb_spec b AMP); [by left|]. destruct (byte_eqb_spec b LT); [by right; left|].
  destruct (byte_eqb_spec b GT); [by do 2 right; left|].
  destruct (byte_eqb_spec b DQUOTE); [by do 3 right; left|]. by do 4 right.
Qed.

Lemma escape_no_gt v : no_gt (escape v) = true.
Proof.
  induction v as [|b v IH]; [done|]. unfold no_gt, escape in *. cbn [flat_map].
  rewrite forallb_app, IH, andb_true_r.
  destruct (escape_byte_cases b) as [[_ ->]|[[_ ->]|[[_ ->]|[[_ ->]|(_ & _ & Hgt & _ & ->)]]]]; [done..|].
  cbn. destruct (byte_eqb_spec b GT); done.
Qed.

Lemma escape_no_quote v : forallb (fun c => negb (Byte.eqb c DQUOTE)) (escape v) = true.
Proof.
  induction v as [|b v IH]; [done|]. unfold escape in *. cbn [flat_map].
  rewrite forallb_app, IH, andb_true_r.
  destruct (escape_byte_cases b) as [[_ ->]|[[_ ->]|[[_ ->]|[[_ ->]|(_ & _ & _ & Hq & ->)]]]]; [done..|].
  cbn. destruct (byte_eqb_spec b DQUOTE); done.
Qed.

Lemma unescape_escape_byte b l :
  unescape_from None (escape_byte b ++ l) = rbind (unescape_from None l) (fun r => Ok (b :: r)).
Proof.
  destruct (escape_byte_cases b) as [[-> ->]|[[-> ->]|[[-> ->]|[[-> ->]|(Ha & Hl & _ & _ & ->)]]]].
  1-4: cbn; lazymatch goal with
       | |- context [entity_char ?n] =>
           let r := eval vm_compute in (entity_char n) in change (entity_char n) with r
       end; cbn; by destruct (unescape_from None l).
  cbn [app unescape_from unesc_byte].
  destruct (byte_eqb_spec b AMP); [done|]. destruct (byte_eqb_spec b LT); [done|].
  cbn. by destruct (unescape_from None l).
Qed.

Lemma unescape_escape v l :
  unescape_from None (escape v ++ l) = rbind (unescape_from None l) (fun r => Ok (v ++ r)).
Proof.
  induction v as [|b v IH]; cbn [escape flat_map app].
  - by destruct (unescape_from None l).
  - rewrite <- app_assoc. fold (escape v). rewrite unescape_escape_byte, IH.
    by destruct (unescape_from None l).
Qed.

(** ** Names, values, attributes *)

Lemma span_stop p b r : p b = false -> span p (b :: r) = ([], b :: r).
Proof. intros Hb. cbn. by rewrite Hb. Qed.

Lemma parse_name_app n r :
  n <> [] -> forallb is_name_byte n = true ->
  (match r with [] => True | b :: _ => is_name_byte b = false end) ->
  parse_name (n ++ r) = Ok (n, r).
Proof. intros Hn Hb Hr. unfold parse_name. rewrite span_app by done. by destruct n. Qed.

Lemma parse_value_render v rest :
  parse_value (EQ :: DQUOTE :: escape v ++ DQUOTE :: rest) = Ok (v, rest).
Proof.
  unfold parse_value. rewrite span_stop by done. cbn [snd].
  replace (Byte.eqb EQ EQ) with true by done. rewrite span_stop by done. cbn [snd].
  replace (is_quote DQUOTE) with true by done.
  rewrite span_app; [|apply escape_no_quote|done].
  unfold unescape. rewrite <- (app_nil_r (escape v)), unescape_escape. cbn. by rewrite app_nil_r.
Qed.

Lemma name_okb_spec s :
  name_okb s = true -> exists b bs, bytes_of s = b :: bs /\ is_name_byte b = true /\
                                    forallb is_name_byte bs = true.
Proof.
  unfold name_okb. intros [Hn Hb]%andb_prop. destruct (bytes_of s) as [|b bs]; [done|].
  cbn in Hb. apply andb_prop in Hb as [? ?]. by exists b, bs.
Qed.

Lemma render_attrs_length a : length a <= length (render_attrs a).
Proof.
  induction a as [|kv a IH]; [done|]. unfold render_attrs in *. cbn [flat_map].
  rewrite length_app. unfold render_attr at 1. cbn [length]. lia.
Qed.

Lemma parse_attrs_step fuel acc kb v rest :
  kb <> [] -> forallb is_name_byte kb = true -> dict_get (string_of kb) acc = None ->
  parse_attrs (S fuel) acc (SPACE :: kb ++ EQ :: DQUOTE :: escape v ++ DQUOTE :: rest) =
  parse_attrs fuel (acc ++ [(string_of kb, VStr (string_of v))]) rest.
Proof.
  intros Hkb Hn Hget. destruct kb as [|b bs]; [done|]. cbn [forallb] in Hn.
  apply andb_prop in Hn as [Hb Hbs]. cbn [parse_attrs span].
  replace (is_space SPACE) with true by done. cbn [app].
  rewrite span_stop by (destruct (is_space b) eqn:Hs; [|done]; unfold is_name_byte in Hb; by rewrite Hs in Hb).
  rewrite (name_byte_not b SLASH) by delim_side.
  rewrite decide_False by done.
  change (b :: bs ++ EQ :: ?X) with ((b :: bs) ++ EQ :: X).
  rewrite parse_name_app by (cbn; rewrite ?Hb; done). cbn [rbind].
  rewrite parse_value_render. cbn [rbind]. by rewrite Hget.
Qed.

Lemma render_attrs_cons k s a tl :
  render_attrs ((k, VStr s) :: a) ++ tl =
  SPACE :: bytes_of k ++ EQ :: DQUOTE :: escape (bytes_of s) ++ DQUOTE :: render_attrs a ++ tl.
Proof.
  unfold render_attrs, render_attr. cbn [flat_map fst snd value_bytes].
  do 3 (rewrite <- ?app_assoc; cbn [app]). reflexivity.
Qed.

Definition ends_empty (tl : list byte) : bool := match tl with [] => false | _ => true end.

Lemma parse_attrs_render fuel acc a tl :
  Forall (fun kv => attr_okb kv = true) a -> NoDup (dict_keys (acc ++ a)) ->
  length a < fuel -> tl = [] \/ tl = [SLASH] ->
  parse_attrs fuel acc (render_attrs a ++ tl) = Ok (acc ++ a, ends_empty tl).
Proof.
  revert acc fuel. induction a as [|[k v] a IH]; intros acc [|fuel] Ha Hnd Hf Htl; try lia.
  - rewrite app_nil_r. by destruct Htl as [-> | ->].
  - inversion Ha as [|? ? Hkv Ha']; subst. unfold attr_okb in Hkv. cbn [fst snd] in Hkv.
    apply andb_prop in Hkv as [Hk Hv]. destruct v as [s| | | |]; try done.
    destruct (name_okb_spec k Hk) as (b & bs & Hkb & Hb & Hbs).
    rewrite render_attrs_cons, Hkb, parse_attrs_step; cycle 1.
    + done.
    + cbn. by rewrite Hb, Hbs.
    + rewrite <- Hkb, String.string_of_list_byte_of_string. apply dict_get_None.
      rewrite dict_keys_app in Hnd. cbn in Hnd. apply NoDup_app in Hnd as (_ & Hd & _).
      intros Hin. apply (Hd k Hin). set_solver.
    + rewrite <- Hkb, !String.string_of_list_byte_of_string.
      rewrite IH; [by rewrite <- app_assoc|done| |cbn in Hf; lia|done].
      by rewrite <- app_assoc.
Qed.

(** ** Tags *)

Lemma el_xml_okb_Element t a cs :
  el_xml_okb (Element t a cs) = true <->
  name_okb t = true /\ Forall (fun kv => attr_okb kv = true) a /\ dict_wf a /\
  Forall (fun c => el_xml_okb c = true) cs.
Proof.
  cbn [el_xml_okb]. rewrite !andb_true_iff, bool_decide_eq_true, !forallb_forall, !Forall_forall.
  setoid_rewrite list_elem_of_In. tauto.
Qed.

Lemma render_attrs_head a tl :
  Forall (fun kv => attr_okb kv = true) a -> tl = [] \/ tl = [SLASH] ->
  match render_attrs a ++ tl with [] => True | c :: _ => is_name_byte c = false end.
Proof. intros _ Htl. destruct a as [|kv a]; [by destruct Htl as [-> | ->]|done]. Qed.

Lemma parse_tag_open t a tl :
  name_okb t = true -> Forall (fun kv => attr_okb kv = true) a -> dict_wf a ->
  tl = [] \/ tl = [SLASH] ->
  parse_tag (bytes_of t ++ render_attrs a ++ tl) = Ok (TOpen t a (ends_empty tl)).
Proof.
  intros Ht Ha Hwf Htl. destruct (name_okb_spec t Ht) as (b & bs & Hkb & Hb & Hbs).
  rewrite Hkb. cbn [app parse_tag].
  rewrite (name_byte_not b SLASH), (name_byte_not b QMARK), (name_byte_not b BANG)
    by delim_side.
  cbn [orb]. change (b :: bs ++ ?X) with ((b :: bs) ++ X).
  rewrite parse_name_app; [|done|cbn; by rewrite Hb, Hbs|by apply render_attrs_head].
  cbn [rbind]. rewrite parse_attrs_render; [|done|done| |done].
  - cbn [rbind app]. by rewrite <- Hkb, String.string_of_list_byte_of_string.
  - pose proof (render_attrs_length a). rewrite length_app. lia.
Qed.

Lemma parse_tag_close t : name_okb t = true -> parse_tag (SLASH :: bytes_of t) = Ok (TClose t).
Proof.
  intros Ht. destruct (name_okb_spec t Ht) as (b & bs & Hkb & Hb & Hbs).
  cbn [parse_tag]. replace (Byte.eqb SLASH SLASH) with true by done.
  pose proof (parse_name_app (bytes_of t) []) as Hn. rewrite app_nil_r in Hn.
  rewrite Hn; [|by rewrite Hkb|by rewrite Hkb; cbn; rewrite Hb|done].
  cbn. by rewrite String.string_of_list_byte_of_string.
Qed.

(** ** The tree builder on the markup of an element *)

Lemma build_open t a stack :
  name_okb t = true -> Forall (fun kv => attr_okb kv = true) a -> dict_wf a ->
  build_markup (Builder stack false) (bytes_of t ++ render_attrs a) =
    ([EvStart (Element t a [])], Ok (Builder (XFrame t a [] :: stack) false)).
Proof.
  intros Ht Ha Hwf. pose proof (parse_tag_open t a [] Ht Ha Hwf (or_introl eq_refl)) as Hp.
  rewrite app_nil_r in Hp. unfold build_markup. by rewrite Hp.
Qed.

Lemma build_leaf t a stack :
  name_okb t = true -> Forall (fun kv => attr_okb kv = true) a -> dict_wf a ->
  build_markup (Builder stack false) (bytes_of t ++ render_attrs a ++ [SLASH]) =
    ([EvStart (Element t a []); EvEnd (Element t a [])], Ok (after_close (Element t a []) stack)).
Proof.
  intros Ht Ha Hwf. unfold build_markup. rewrite (parse_tag_open t a [SLASH]) by auto.
  cbn. by destruct stack.
Qed.

Lemma build_close t a cs stack :
  name_okb t = true ->
  build_markup (Builder (XFrame t a cs :: stack) false) (SLASH :: bytes_of t) =
    ([EvEnd (Element t a cs)], Ok (after_close (Element t a cs) stack)).
Proof.
  intros Ht. unfold build_markup. rewrite parse_tag_close by done. cbn.
  rewrite String.eqb_refl. by destruct stack.
Qed.

Section BuildChildren.
Variables (t : string) (a : dict value).

Lemma build_children acc cs stack :
  Forall (fun c => forall stack, mfold build_markup (Builder stack false) (marks_of c) =
                                 (events_of c, Ok (after_close c stack))) cs ->
  mfold build_markup (Builder (XFrame t a acc :: stack) false) (flat_map marks_of cs) =
    (flat_map events_of cs, Ok (Builder (XFrame t a (acc ++ cs) :: stack) false)).
Proof.
  intros Hcs. revert acc. induction Hcs as [|c cs Hc _ IH]; intros acc; cbn [flat_map].
  - by rewrite app_nil_r.
  - rewrite mfold_app, Hc, bind_Ok_eq. unfold after_close, add_child. cbn [xf_tag xf_attrib xf_children].
    rewrite IH. cbn. by rewrite <- app_assoc.
Qed.
End BuildChildren.

(** The markup of an element, read with [stack] open, reports the
    element's events and closes it onto [stack]. *)
Lemma build_element e stack :
  el_xml_okb e = true ->
  mfold build_markup (Builder stack false) (marks_of e) = (events_of e, Ok (after_close e stack)).
Proof.
  revert stack. induction e as [t a cs IH] using element_ind'. intros stack He.
  apply el_xml_okb_Element in He as (Ht & Ha & Hwf & Hcs).
  destruct cs as [|c cs].
  - cbn [marks_of mfold]. rewrite build_leaf, bind_Ok_eq by done. cbn. done.
  - assert (Hch : Forall (fun c => forall stack, mfold build_markup (Builder stack false) (marks_of c) =
                                                (events_of c, Ok (after_close c stack))) (c :: cs)).
    { rewrite Forall_forall in IH, Hcs |- *. intros x Hx st. apply IH; [done|]. by apply Hcs. }
    cbn [marks_of mfold]. rewrite build_open, bind_Ok_eq by done.
    rewrite mfold_app, (build_children t a [] (c :: cs) stack Hch), bind_Ok_eq.
    cbn [mfold app]. rewrite build_close, bind_Ok_eq by done. cbn. by rewrite ?app_nil_r.
Qed.

(** ** The lexer on a rendered element *)

Lemma no_gt_app l1 l2 : no_gt (l1 ++ l2) = no_gt l1 && no_gt l2.
Proof. apply forallb_app. Qed.

Lemma name_no_gt s : name_okb s = true -> no_gt (bytes_of s) = true.
Proof.
  intros Hs. destruct (name_okb_spec s Hs) as (b & bs & -> & Hb & Hbs).
  apply forallb_forall. intros c Hc%list_elem_of_In%elem_of_cons.
  rewrite (name_byte_not c GT); [done| |delim_side].
  destruct Hc as [->|Hc]; [done|]. rewrite forallb_forall in Hbs. apply Hbs, list_elem_of_In, Hc.
Qed.

Lemma attrs_no_gt a : Forall (fun kv => attr_okb kv = true) a -> no_gt (render_attrs a) = true.
Proof.
  induction 1 as [|[k v] a Hkv _ IH]; [done|]. unfold render_attrs in *. cbn [flat_map].
  rewrite no_gt_app, IH, andb_true_r. unfold attr_okb in Hkv. apply andb_prop in Hkv as [Hk _].
  unfold render_attr. cbn [fst snd]. change (SPACE :: ?l) with ([SPACE] ++ l).
  rewrite !no_gt_app, name_no_gt by done. cbn [no_gt forallb].
  rewrite no_gt_app, escape_no_gt. done.
Qed.

Lemma marks_no_gt e : el_xml_okb e = true -> Forall (fun m => no_gt m = true) (marks_of e).
Proof.
  induction e as [t a cs IH] using element_ind'.
  intros (Ht & Ha & Hwf & Hcs)%el_xml_okb_Element.
  assert (Hn : no_gt (bytes_of t ++ render_attrs a) = true).
  { by rewrite no_gt_app, name_no_gt, attrs_no_gt. }
  destruct cs as [|c cs]; cbn [marks_of].
  - constructor; [|done]. by rewrite app_assoc, no_gt_app, Hn.
  - constructor; [done|]. apply Forall_app. split.
    + apply List.Forall_flat_map. rewrite Forall_forall in IH, Hcs |- *. intros x Hx. by apply IH, Hcs.
    + repeat constructor. change (SLASH :: bytes_of t) with ([SLASH] ++ bytes_of t).
      by rewrite no_gt_app, name_no_gt.
Qed.

Lemma lex_render e l :
  el_xml_okb e = true ->
  lex LText (render e ++ l) = let '(ls, ts) := lex LText l in (ls, marks_of e ++ ts).
Proof. intros He. apply lex_markups, marks_no_gt, He. Qed.

Lemma lex_text b l : Byte.eqb b LT = false -> lex LText (b :: l) = lex LText l.
Proof. intros Hb. cbn. rewrite Hb. by destruct (lex LText l). Qed.

(** The markup of the XML declaration. *)
Definition DECL : list byte := bytes_of "?xml version='1.0' encoding='UTF-8'?".

Lemma lex_export doc :
  el_xml_okb doc = true -> lex LText (export_bytes doc) = (LText, DECL :: marks_of doc).
Proof.
  intros Hd. unfold export_bytes, XML_DECL. fold DECL.
  change (markup DECL ++ ?l) with (flat_map markup [DECL] ++ l).
  rewrite lex_markups by (repeat constructor). rewrite lex_text by done.
  rewrite lex_render by done. cbn. by rewrite app_nil_r.
Qed.

(** ** Whole documents *)

Lemma mfold_xml_feed st chunks : mfold xml_feed st chunks = xml_feed st (concat chunks).
Proof.
  revert st. induction chunks as [|c cs IH]; intros st; cbn [mfold concat].
  - by rewrite xml_feed_nil.
  - rewrite xml_feed_app. apply bind_ext, IH.
Qed.

Lemma xml_feed_export doc :
  el_xml_okb doc = true -> xml_feed xml_init (export_bytes doc) = (events_of doc, Ok xml_done).
Proof.
  intros Hd. unfold xml_feed. cbn [xs_lex xml_init]. rewrite lex_export by done.
  cbn [mfold xs_builder xml_init builder_init].
  replace (build_markup builder_init DECL) with (@ret event _ (Builder [] false)) by done.
  rewrite bind_ret_l, build_element, bind_Ok_eq by done. cbn. by rewrite ?app_nil_r.
Qed.

(** Serialization round trip, whatever the chunking: an export
    written by render (names of name bytes, distinct attributes with
    string values), cut into chunks anywhere and fed to the parser one
    chunk after the other, is read back as exactly the events of the
    document (events_of), and the parser ends with the root closed and no
    markup pending. *)
Theorem xml_roundtrip_chunks doc chunks :
  el_xml_okb doc = true -> concat chunks = export_bytes doc ->
  mfold xml_feed xml_init chunks = (events_of doc, Ok xml_done).
Proof. intros Hd Hc. by rewrite mfold_xml_feed, Hc, xml_feed_export. Qed.

Lemma marks_of_open e :
  el_xml_okb e = true ->
  exists m ms empty, marks_of e = m :: ms /\ parse_tag m = Ok (TOpen (el_tag e) (el_attrib e) empty).
Proof.
  destruct e as [t a cs]. intros (Ht & Ha & Hwf & _)%el_xml_okb_Element.
  destruct cs as [|c cs]; cbn [marks_of el_tag el_attrib].
  - do 3 eexists. split; [done|]. by apply parse_tag_open; [..|right].
  - do 3 eexists. split; [done|]. pose proof (parse_tag_open t a [] Ht Ha Hwf (or_introl eq_refl)) as Hp.
    rewrite app_nil_r in Hp. exact Hp.
Qed.

(** A second document element after the first is an error, raised after
    the first document's events. *)
Lemma xml_feed_second_root d1 d2 :
  el_xml_okb d1 = true -> el_xml_okb d2 = true ->
  xml_feed xml_init (export_bytes d1 ++ render d2) =
    (events_of d1, Err (XmlParseError "junk after document element")).
Proof.
  intros H1 H2. rewrite xml_feed_app, xml_feed_export, bind_Ok_eq by done.
  pose proof (lex_render d2 [] H2) as Hl. rewrite app_nil_r in Hl. cbn in Hl.
  destruct (marks_of_open d2 H2) as (m & ms & empty & Hm & Hp).
  unfold xml_feed. cbn [xs_lex xml_done]. rewrite Hl, app_nil_r, Hm. cbn [mfold xs_builder xml_done].
  unfold build_markup. rewrite Hp. cbn. by rewrite app_nil_r.
Qed.
