(* ===== verification/Storage.v ===== *)
(** * The collaborators and the observable effects

    The program talks to four collaborators the specification places out
    of scope: the sqlite-utils database ([db[table].insert_all],
    [db[table].insert(...).last_pk]), the file system and the zip archive
    ([open_file_or_zip]), the GPX parser ([gpxpy.parse(...).walk]) and
    the progress callback.  Every call that changes the outside world is
    an [effect] of the trace the effect monad of [Prelude] accumulates;
    what the collaborators answer is the class [Collaborators].  A
    storage call is recorded with the rows and the options the program
    passes; [SqliteUtils] runs these calls against a model of the
    database, with the library's batching, schema changes and errors. *)

From stdpp Require Import base list strings.
From Stdlib Require Import ZArith.
From S2P Require Import Prelude PyDict Xml.

Local Open Scope string_scope.
Local Open Scope list_scope.

(** The keyword arguments of [insert] / [insert_all]. *)
Record insert_opts : Type := mk_opts {
  opt_alter : bool;
  opt_column_order : list string;
  opt_batch_size : nat;
  opt_foreign_keys : list (string * string);
  opt_hash_id : option string
}.

(** sqlite-utils' defaults for the arguments a call leaves out. *)
Definition default_opts : insert_opts := mk_opts false [] 100 [] None.

Inductive effect : Type :=
  | EInsertAll (table : string) (rows : list row) (opts : insert_opts)
  | EInsert (table : string) (r : row) (opts : insert_opts)
  | EOpen (from_zip : bool) (path : string)
  | EProgress (n : Z).

Abbreviation prog := (M effect).

(** A zip archive: member name to its bytes. *)
Abbreviation archive := (dict (list Byte.byte)).

Class Collaborators : Type := {
  (** [db[table].insert(row, hash_id="id").last_pk]: with [hash_id] the
      key is a digest of the row's content. *)
  db_insert_pk : string -> row -> value;
  (** The bytes [builtins.open(path, 'rb')] reads; [None] when the file
      is absent. *)
  fs_read : string -> option (list Byte.byte);
  (** [[vars(p) for p in gpxpy.parse(text).walk(only_points=True)]] *)
  gpx_points : string -> result (list row)
}.

Section Ops.
Context `{Collaborators}.

Definition db_insert_all (table : string) (rows : list row) (opts : insert_opts) : prog unit :=
  emit (EInsertAll table rows opts).

Definition db_insert (table : string) (r : row) (opts : insert_opts) : prog value :=
  emit (EInsert table r opts);;; ret (db_insert_pk table r).
Lemma db_insert_all_eq table rows opts :
  db_insert_all table rows opts = ([EInsertAll table rows opts], Ok tt).
Proof. reflexivity. Qed.

Lemma db_insert_eq table r opts :
  db_insert table r opts = ([EInsert table r opts], Ok (db_insert_pk table r)).
Proof. reflexivity. Qed.
End Ops.

(** ** What a trace writes *)

(** The rows a trace writes into [table], in order. *)
Fixpoint rows_written (table : string) (tr : list effect) : list row :=
  match tr with
  | [] => []
  | EInsertAll t rs _ :: tr' => (if String.eqb t table then rs else []) ++ rows_written table tr'
  | EInsert t r _ :: tr' => (if String.eqb t table then [r] else []) ++ rows_written table tr'
  | _ :: tr' => rows_written table tr'
  end.

Lemma rows_written_app table tr1 tr2 :
  rows_written table (tr1 ++ tr2) = rows_written table tr1 ++ rows_written table tr2.
Proof.
  induction tr1 as [|[t rs o|t r o|z p|n] tr1 IH]; simpl; rewrite ?IH, ?app_assoc; done.
Qed.

(** The files a trace opens, in order. *)
Fixpoint files_opened (tr : list effect) : list string :=
  match tr with
  | [] => []
  | EOpen _ p :: tr' => p :: files_opened tr'
  | _ :: tr' => files_opened tr'
  end.

Lemma files_opened_app tr1 tr2 : files_opened (tr1 ++ tr2) = files_opened tr1 ++ files_opened tr2.
Proof. induction tr1 as [|[] tr1 IH]; simpl; rewrite ?IH; done. Qed.

#[export] Hint Rewrite rows_written_app files_opened_app : h2s_rw.

(** A storage whose row digest is the row itself (an injective digest),
    a file system and a GPX parser given as tables: used to run the
    program on concrete inputs. *)
Definition table_collaborators (files : dict (list Byte.byte)) (gpx : dict (list row)) : Collaborators := {|
  db_insert_pk := fun _ r => VDicts [r];
  fs_read := fun p => dict_get p files;
  gpx_points := fun text =>
    match dict_get text gpx with
    | Some pts => Ok pts
    | None => Err (GpxParseError text)
    end
|}.
