(* ===== verification/SqliteUtils.v ===== *)
(** * The storage layer: sqlite-utils' [Table.insert_all] on SQLite

    The program hands its rows to sqlite-utils ([db[table].insert_all],
    [db[table].insert], which is [insert_all] of one row); the
    specification places the storage engine out of scope and describes it
    by the interface the core needs: it accepts batches of flat records,
    creates and (on request) alters the schema, assigns the key of a row
    from a hash of its content, and raises on a schema conflict it cannot
    resolve.  This file runs the trace of storage effects [Storage.effect]
    against a model of that engine, so that what the program asks of the
    storage (its options: [alter], [batch_size], [hash_id]) has its
    consequences.

    - A [database] is an insertion-ordered dict of tables, a table its
      column names and its rows.
    - [insert_all] follows sqlite-utils: an empty call does nothing; the
      first row's width is asserted to be at most 999 and gives the
      batch size [max(1, min(batch_size, 999 // width))] (a first row
      without a column divides by zero); the rows are cut in [chunks] of
      that size; the first chunk creates the table when it is absent,
      with the columns of that chunk; each chunk is one INSERT statement
      whose columns are those seen so far in the call ([all_columns]).
    - An INSERT naming a column the table lacks raises SQLite's
      [OperationalError('table T has no column named C')]; with
      [alter=True] sqlite-utils catches it, adds the chunk's missing
      columns and executes the statement again.  With [hash_id] each row
      carries its digest in that column, the table's primary key: a
      digest already present raises [IntegrityError].
    - Every chunk is committed on its own, so an error keeps the chunks
      and the tables written before it ([database * option exn]). *)

From stdpp Require Import base list strings sets sorting.
From Stdlib Require Import ZArith.
From S2P Require Import Prelude PyDict PyStr Xml Storage.

Local Open Scope string_scope.
Local Open Scope list_scope.

(** Decidable equality of cell values (the digests of [hash_id] are
    compared by the primary-key constraint). *)
Fixpoint value_eq_dec (a b : value) {struct a} : {a = b} + {a <> b}.
Proof.
  decide equality; try apply String.string_dec; try apply Z.eq_dec.
  apply List.list_eq_dec. apply List.list_eq_dec. intros [k v] [k' v'].
  destruct (String.string_dec k k') as [<-|Hk]; [|right; congruence].
  destruct (value_eq_dec v v') as [<-|Hv]; [by left|right; congruence].
Defined.

#[export] Instance value_eq_decision : EqDecision value := value_eq_dec.

(** ** The database *)

Record table : Type := mk_table {
  tbl_columns : list string;
  tbl_rows : list row
}.

(** The tables of the database file, in creation order. *)
Abbreviation database := (dict table).

Definition table_rows (t : string) (d : database) : list row :=
  match dict_get t d with Some tb => tbl_rows tb | None => [] end.

Definition table_columns (t : string) (d : database) : list string :=
  match dict_get t d with Some tb => tbl_columns tb | None => [] end.

(** [sqlite_utils.db.SQLITE_MAX_VARS] *)
Definition SQLITE_MAX_VARS : nat := 999.

(** ** Batching *)

Section Chunks.
Context {A : Type}.

(** [sqlite_utils.utils.chunks(sequence, size)]: the first [size] items,
    then the rest cut the same way.  Each round takes at least one item,
    so [length l] rounds reach the end. *)
Fixpoint chunks_fuel (fuel size : nat) (l : list A) : list (list A) :=
  match fuel with
  | O => []
  | S fuel' =>
      match l with
      | [] => []
      | _ :: _ => take size l :: chunks_fuel fuel' size (drop size l)
      end
  end.

Definition chunks (size : nat) (l : list A) : list (list A) := chunks_fuel (length l) size l.
End Chunks.

(** [batch_size = max(1, min(batch_size, SQLITE_MAX_VARS // num_columns))] *)
Definition effective_batch_size (batch_size num_columns : nat) : nat :=
  Nat.max 1 (Nat.min batch_size (SQLITE_MAX_VARS / num_columns)).

(** The INSERT statements of one call: its rows cut with the batch size
    the first row's width gives. *)
Definition insert_batches (o : insert_opts) (rs : list row) : list (list row) :=
  match rs with
  | [] => []
  | r0 :: _ => chunks (effective_batch_size (opt_batch_size o) (length (dict_keys r0))) rs
  end.

(** The INSERT statements a storage effect issues when it runs through:
    [insert] is [insert_all] of one row. *)
Definition statements (e : effect) : list (list row) :=
  match e with
  | EInsertAll _ rs o => insert_batches o rs
  | EInsert _ r o => insert_batches o [r]
  | EOpen _ _ | EProgress _ => []
  end.

(** ** Columns *)

(** [suggest_column_types(chunk)]'s keys: every key of the chunk, in
    the order first seen ([dict.setdefault]). *)
Definition chunk_keys (chunk : list row) : list string := new_keys [] (concat (map dict_keys chunk)).

Definition str_le (a b : string) : Prop := String.leb a b = true.
#[export] Instance str_le_dec : RelDecision str_le.
Proof. intros a b. unfold str_le. apply _. Defined.

(** The first chunk's [all_columns]: [sorted(set(keys))], with the
    [hash_id] column in front. *)
Definition first_columns (o : insert_opts) (chunk : list row) : list string :=
  (match opt_hash_id o with Some h => [h] | None => [] end) ++
  merge_sort str_le (remove_dups (concat (map dict_keys chunk))).

(** A later chunk: [all_columns += [c for c in record if c not in
    all_columns]] for each record. *)
Definition next_columns (cols : list string) (chunk : list row) : list string :=
  foldl (fun cols r => cols ++ filter (fun c => c ∉ cols) (dict_keys r)) cols chunk.

(** [create()]'s columns: the [hash_id] column, then the chunk's keys
    sorted by their position in [column_order] (the others after, in
    their order). *)
Definition order_rank (column_order : list string) (c : string) : nat :=
  default 999 (fst <$> list_find (fun x => x = c) column_order).

(** Python's [list.sort(key=...)] is stable: an insertion sort that
    puts an item after those of a rank at most its own. *)
Fixpoint insert_by_rank (rank : string -> nat) (x : string) (l : list string) : list string :=
  match l with
  | [] => [x]
  | y :: l' => if Nat.leb (rank y) (rank x) then y :: insert_by_rank rank x l' else x :: l
  end.

Definition sort_by_rank (rank : string -> nat) (l : list string) : list string :=
  foldl (fun acc x => insert_by_rank rank x acc) [] l.

Definition create_columns (o : insert_opts) (chunk : list row) : list string :=
  (match opt_hash_id o with Some h => [h] | None => [] end) ++
  sort_by_rank (order_rank (opt_column_order o)) (chunk_keys chunk).

(** ** Statements *)

Section Engine.
Context `{Collaborators}.

(** The row an INSERT stores: with [hash_id], its digest in front
    ([record_values.insert(0, hash_record(record))]); the digest is the
    key [insert(...).last_pk] returns. *)
Definition stamp (t : string) (o : insert_opts) (r : row) : row :=
  match opt_hash_id o with
  | Some h => (h, db_insert_pk t r) :: r
  | None => r
  end.

(** The first column of the statement the table lacks. *)
Definition missing_column (tb : table) (cols : list string) : option string :=
  List.find (fun c => negb (bool_decide (c ∈ tbl_columns tb))) cols.

(** The values of the key column. *)
Definition key_values (h : string) (rs : list row) : list value := omap (dict_get h) rs.

(** SQLite's error for an INSERT naming a column the table lacks. *)
Definition no_column (t c : string) : exn :=
  OperationalError ("table " +:+ t +:+ " has no column named " +:+ c).

(** [self.db.execute(INSERT INTO [t] (cols) VALUES ..., params)]. *)
Definition exec_insert (t : string) (o : insert_opts) (cols : list string) (chunk : list row)
    (d : database) : result database :=
  match dict_get t d with
  | None => Err (OperationalError ("no such table: " +:+ t))
  | Some tb =>
      match missing_column tb cols with
      | Some c => Err (no_column t c)
      | None =>
          let tb' := mk_table (tbl_columns tb) (tbl_rows tb ++ map (stamp t o) chunk) in
          match opt_hash_id o with
          | Some h =>
              if bool_decide (NoDup (key_values h (tbl_rows tb'))) then Ok (dict_set t tb' d)
              else Err (IntegrityError ("UNIQUE constraint failed: " +:+ t +:+ "." +:+ h))
          | None => Ok (dict_set t tb' d)
          end
      end
  end.

(** [add_missing_columns(chunk)]: [ALTER TABLE ADD COLUMN] for every key
    of the chunk the table lacks. *)
Definition add_missing_columns (t : string) (chunk : list row) (d : database) : database :=
  match dict_get t d with
  | Some tb =>
      dict_set t (mk_table (tbl_columns tb ++ filter (fun c => c ∉ tbl_columns tb) (chunk_keys chunk))
                           (tbl_rows tb)) d
  | None => d
  end.

Definition column_error (e : exn) : bool :=
  match e with
  | OperationalError msg => occurs " column" msg
  | _ => false
  end.

(** The digest a statement would store are new: the key column the
    table has without duplicates once the chunk is appended. *)
Definition key_fresh (t : string) (o : insert_opts) (tb : table) (chunk : list row) : Prop :=
  match opt_hash_id o with
  | Some h => NoDup (key_values h (tbl_rows tb ++ map (stamp t o) chunk))
  | None => True
  end.

(** [insert_chunk]: the statement, and with [alter=True] on an error
    about a column, the missing columns added and the statement again. *)
Definition insert_chunk (t : string) (o : insert_opts) (cols : list string) (chunk : list row)
    (d : database) : database * option exn :=
  match exec_insert t o cols chunk d with
  | Ok d' => (d', None)
  | Err e =>
      if opt_alter o && column_error e then
        let d1 := add_missing_columns t chunk d in
        match exec_insert t o cols chunk d1 with
        | Ok d2 => (d2, None)
        | Err e' => (d1, Some e')
        end
      else (d, Some e)
  end.

(** The chunks after the first, [all_columns] growing with each. *)
Fixpoint insert_chunks (t : string) (o : insert_opts) (cols : list string) (cs : list (list row))
    (d : database) : database * option exn :=
  match cs with
  | [] => (d, None)
  | c :: cs' =>
      let cols' := next_columns cols c in
      match insert_chunk t o cols' c d with
      | (d', None) => insert_chunks t o cols' cs' d'
      | err => err
      end
  end.

(** [self.create(...)] when the table does not exist. *)
Definition create_table (t : string) (o : insert_opts) (chunk : list row) (d : database) : database :=
  match dict_get t d with
  | Some _ => d
  | None => dict_set t (mk_table (create_columns o chunk) []) d
  end.

(** [db[t].insert_all(rs, **o)] *)
Definition insert_all (t : string) (rs : list row) (o : insert_opts) (d : database)
    : database * option exn :=
  match rs with
  | [] => (d, None)
  | r0 :: _ =>
      let n := length (dict_keys r0) in
      if bool_decide (SQLITE_MAX_VARS < n) then
        (d, Some (AssertionError "Rows can have a maximum of 999 columns"))
      else if bool_decide (n = 0) then
        (d, Some (ZeroDivisionError "integer division or modulo by zero"))
      else
        match insert_batches o rs with
        | [] => (d, None)
        | c :: cs =>
            let d1 := create_table t o c d in
            let cols := first_columns o c in
            match insert_chunk t o cols c d1 with
            | (d2, None) => insert_chunks t o cols cs d2
            | err => err
            end
        end
  end.

(** A storage effect against the database; the other effects leave it
    alone. *)
Definition apply_effect (e : effect) (d : database) : database * option exn :=
  match e with
  | EInsertAll t rs o => insert_all t rs o d
  | EInsert t r o => insert_all t [r] o d
  | EOpen _ _ | EProgress _ => (d, None)
  end.

(** The program's storage calls, in order, until one raises: the
    database they leave and the storage error the program receives. *)
Fixpoint db_exec (d : database) (tr : list effect) : database * option exn :=
  match tr with
  | [] => (d, None)
  | e :: tr' =>
      match apply_effect e d with
      | (d', None) => db_exec d' tr'
      | err => err
      end
  end.
End Engine.

(** ** Batching lemmas *)

Section ChunkLemmas.
Context {A : Type}.

Lemma chunks_fuel_concat fuel size (l : list A) :
  0 < size -> length l <= fuel -> concat (chunks_fuel fuel size l) = l.
Proof.
  intros Hs. revert l. induction fuel as [|fuel IH]; intros l Hl; cbn [chunks_fuel].
  - destruct l; [done|cbn in Hl; lia].
  - destruct l as [|x l]; [done|]. cbn [concat]. rewrite IH; [apply take_drop|].
    rewrite length_drop. cbn in Hl |- *. lia.
Qed.

Lemma chunks_fuel_sizes fuel size (l : list A) :
  Forall (fun c => 0 < length c <= size) (chunks_fuel fuel size l) \/ size = 0.
Proof.
  destruct size as [|size]; [by right|left].
  revert l. induction fuel as [|fuel IH]; intros l; cbn [chunks_fuel]; [constructor|].
  destruct l as [|x l]; constructor; [|apply IH]. rewrite length_take. cbn. lia.
Qed.

Lemma chunks_concat size (l : list A) : 0 < size -> concat (chunks size l) = l.
Proof. intros Hs. by apply chunks_fuel_concat. Qed.

Lemma chunks_sizes size (l : list A) : 0 < size -> Forall (fun c => 0 < length c <= size) (chunks size l).
Proof. intros Hs. destruct (chunks_fuel_sizes (length l) size l); [done|lia]. Qed.
End ChunkLemmas.

Lemma effective_batch_size_pos bs n : 0 < effective_batch_size bs n.
Proof. unfold effective_batch_size. lia. Qed.

Lemma effective_batch_size_le bs n : 0 < bs -> effective_batch_size bs n <= bs.
Proof. unfold effective_batch_size. lia. Qed.

(** The statements of a call hold its rows, in order, at most
    [batch_size] each. *)
Lemma insert_batches_concat o rs : concat (insert_batches o rs) = rs.
Proof. destruct rs as [|r0 rs]; [done|]. apply chunks_concat, effective_batch_size_pos. Qed.

Lemma insert_batches_sizes o rs :
  0 < opt_batch_size o -> Forall (fun c => 0 < length c <= opt_batch_size o) (insert_batches o rs).
Proof.
  intros Hb. destruct rs as [|r0 rs]; [constructor|]. unfold insert_batches.
  eapply Forall_impl; [apply chunks_sizes, effective_batch_size_pos|].
  intros c Hc. cbv beta in Hc. pose proof (effective_batch_size_le (opt_batch_size o) (length (dict_keys r0)) Hb). lia.
Qed.

Lemma insert_batches_one o r : insert_batches o [r] = [[r]].
Proof.
  unfold insert_batches, chunks. cbn [length chunks_fuel].
  pose proof (effective_batch_size_pos (opt_batch_size o) (length (dict_keys r))) as Hp.
  destruct (effective_batch_size _ _) as [|k]; [lia|cbn; by rewrite take_nil].
Qed.

(** ** Column lemmas *)

(** A key of the chunk: a key of one of its rows. *)
Definition chunk_key (x : string) (chunk : list row) : Prop := exists r, r ∈ chunk /\ x ∈ dict_keys r.

Lemma elem_of_concat_keys x (chunk : list row) : x ∈ concat (map dict_keys chunk) <-> chunk_key x chunk.
Proof.
  unfold chunk_key. induction chunk as [|r chunk IH]; cbn [map concat].
  - split; [set_solver|]. intros (r & Hr & _). set_solver.
  - rewrite elem_of_app, IH. split.
    + intros [Hx|(r' & Hr' & Hx)]; [exists r|exists r']; set_solver.
    + intros (r' & [->|Hr']%elem_of_cons & Hx); [by left|right; eauto].
Qed.

Lemma elem_of_chunk_keys x chunk : x ∈ chunk_keys chunk <-> chunk_key x chunk.
Proof. unfold chunk_keys. rewrite elem_of_new_keys, elem_of_concat_keys. set_solver. Qed.

Lemma elem_of_first_columns x o chunk :
  x ∈ first_columns o chunk <-> opt_hash_id o = Some x \/ chunk_key x chunk.
Proof.
  unfold first_columns. rewrite elem_of_app, merge_sort_Permutation, elem_of_remove_dups,
    elem_of_concat_keys. destruct (opt_hash_id o); set_solver.
Qed.

Lemma elem_of_next_columns x cols chunk : x ∈ next_columns cols chunk <-> x ∈ cols \/ chunk_key x chunk.
Proof.
  unfold next_columns, chunk_key. revert cols. induction chunk as [|r chunk IH]; intros cols; cbn [foldl].
  - set_solver.
  - rewrite IH, elem_of_app, list_elem_of_filter. split.
    + intros [[Hx|[_ Hx]]|(r' & Hr' & Hx)]; [by left|right; exists r; set_solver|right; exists r'; set_solver].
    + intros [Hx|(r' & [->|Hr']%elem_of_cons & Hx)]; [by do 2 left| |by right; eauto].
      destruct (decide (x ∈ cols)); [by do 2 left|left; right; done].
Qed.

Lemma insert_by_rank_perm rank x l : insert_by_rank rank x l ≡ₚ x :: l.
Proof.
  induction l as [|y l IH]; cbn [insert_by_rank]; [done|].
  destruct (Nat.leb _ _); [|done]. rewrite IH. apply perm_swap.
Qed.

Lemma sort_by_rank_perm rank l : sort_by_rank rank l ≡ₚ l.
Proof.
  unfold sort_by_rank. change l with ([] ++ l) at 2. generalize (@nil string).
  induction l as [|x l IH]; intros acc; cbn [foldl]; [by rewrite app_nil_r|].
  rewrite IH, insert_by_rank_perm. by rewrite <- Permutation_middle.
Qed.

Lemma elem_of_create_columns x o chunk :
  x ∈ create_columns o chunk <-> opt_hash_id o = Some x \/ chunk_key x chunk.
Proof.
  unfold create_columns. rewrite elem_of_app, sort_by_rank_perm, elem_of_chunk_keys.
  destruct (opt_hash_id o); set_solver.
Qed.

(** The first statement of a call holds its first row. *)
Lemma insert_batches_head o r0 rs c cs : insert_batches o (r0 :: rs) = c :: cs -> r0 ∈ c.
Proof.
  intros Hb. pose proof (insert_batches_concat o (r0 :: rs)) as Hcat.
  unfold insert_batches in Hb, Hcat. pose proof (chunks_sizes _ (r0 :: rs)
    (effective_batch_size_pos (opt_batch_size o) (length (dict_keys r0)))) as Hs.
  rewrite Hb in Hs, Hcat. apply Forall_cons_1 in Hs as [Hc _].
  destruct c as [|x c]; cbn in Hc; [lia|]. injection Hcat as -> _. set_solver.
Qed.

Lemma missing_column_None tb cols : missing_column tb cols = None <-> cols ⊆ tbl_columns tb.
Proof.
  unfold missing_column. split.
  - intros Hf x Hx. apply list_elem_of_In in Hx. pose proof (List.find_none _ _ Hf x Hx) as Hn.
    apply negb_false_iff, bool_decide_eq_true in Hn. done.
  - intros Hs. destruct (List.find _ cols) as [c|] eqn:Hf; [|done].
    apply List.find_some in Hf as [Hc Hn]. apply list_elem_of_In in Hc.
    apply negb_true_iff, bool_decide_eq_false in Hn. set_solver.
Qed.

Lemma missing_column_Some tb cols c : missing_column tb cols = Some c -> c ∈ cols /\ c ∉ tbl_columns tb.
Proof.
  unfold missing_column. intros Hf. apply List.find_some in Hf as [Hc Hn].
  apply negb_true_iff, bool_decide_eq_false in Hn. split; [by apply list_elem_of_In|done].
Qed.

(** ** The engine's lemmas *)

Lemma elem_of_concat_inv {A} (x : A) (ls : list (list A)) : x ∈ concat ls -> exists l, l ∈ ls /\ x ∈ l.
Proof.
  induction ls as [|l ls IH]; cbn [concat]; [set_solver|].
  intros [Hx|(l' & Hl' & Hx)%IH]%elem_of_app; [exists l; set_solver|exists l'; set_solver].
Qed.


Lemma occurs_app_r p a b : occurs p b = true -> occurs p (a +:+ b) = true.
Proof. induction a as [|x a IH]; intros Hb; cbn [String.append occurs]; [done|]. by rewrite IH, orb_true_r. Qed.

(** sqlite-utils recognises SQLite's missing-column error as one to
    repair with [alter=True]. *)
Lemma column_error_no_column t c : column_error (no_column t c) = true.
Proof. unfold column_error, no_column. do 2 apply occurs_app_r. reflexivity. Qed.

(** [t] now holds [tb'] and the other tables are as they were. *)
Definition updates (t : string) (tb' : table) (d d' : database) : Prop :=
  dict_get t d' = Some tb' /\ forall t', t' <> t -> dict_get t' d' = dict_get t' d.

Lemma updates_set t tb' d : updates t tb' d (dict_set t tb' d).
Proof. split; [apply dict_get_set_eq|intros t' Hne; by apply dict_get_set_ne]. Qed.

Lemma updates_trans t tb1 tb2 d d1 d2 : updates t tb1 d d1 -> updates t tb2 d1 d2 -> updates t tb2 d d2.
Proof. intros [_ H1] [H2 H2']. split; [done|]. intros t' Hne. by rewrite H2', H1. Qed.

Lemma updates_rows t tb' d d' t' :
  updates t tb' d d' -> table_rows t' d' = if String.eqb t' t then tbl_rows tb' else table_rows t' d.
Proof.
  intros [Ht Ho]. unfold table_rows. destruct (String.eqb_spec t' t) as [->|Hne]; [by rewrite Ht|].
  by rewrite Ho.
Qed.

Section EngineLemmas.
Context `{Collaborators}.

Lemma stamp_plain t o r : opt_hash_id o = None -> stamp t o r = r.
Proof. unfold stamp. by intros ->. Qed.

Lemma map_stamp_plain t o rs : opt_hash_id o = None -> map (stamp t o) rs = rs.
Proof. intros Ho. induction rs as [|r rs IH]; [done|]. cbn. by rewrite stamp_plain, IH. Qed.

Lemma exec_insert_Ok t o cols c d d' :
  exec_insert t o cols c d = Ok d' ->
  exists tb, dict_get t d = Some tb /\ cols ⊆ tbl_columns tb /\
    d' = dict_set t (mk_table (tbl_columns tb) (tbl_rows tb ++ map (stamp t o) c)) d.
Proof.
  unfold exec_insert. destruct (dict_get t d) as [tb|]; [|discriminate].
  destruct (missing_column tb cols) as [x|] eqn:Hm; [discriminate|]. apply missing_column_None in Hm.
  intros Hex. exists tb. split_and!; [done|done|].
  destruct (opt_hash_id o); [case_bool_decide|]; congruence.
Qed.

(** Without [hash_id] the statement fails only on a missing column. *)
Lemma exec_insert_plain t o cols c d tb :
  opt_hash_id o = None -> dict_get t d = Some tb ->
  exec_insert t o cols c d =
    match missing_column tb cols with
    | Some x => Err (no_column t x)
    | None => Ok (dict_set t (mk_table (tbl_columns tb) (tbl_rows tb ++ c)) d)
    end.
Proof.
  intros Hh Ht. unfold exec_insert. rewrite Ht, map_stamp_plain by done.
  destruct (missing_column tb cols); [done|]. by rewrite Hh.
Qed.

(** With new digests (or none), the statement fails only on a missing
    column. *)
Lemma exec_insert_fresh t o cols c d tb :
  dict_get t d = Some tb -> key_fresh t o tb c ->
  exec_insert t o cols c d =
    match missing_column tb cols with
    | Some x => Err (no_column t x)
    | None => Ok (dict_set t (mk_table (tbl_columns tb) (tbl_rows tb ++ map (stamp t o) c)) d)
    end.
Proof.
  intros Ht Hk. unfold exec_insert, key_fresh in *. rewrite Ht.
  destruct (missing_column tb cols); [done|]. cbn [tbl_rows tbl_columns].
  destruct (opt_hash_id o); [by rewrite bool_decide_eq_true_2|done].
Qed.

(** A statement whose columns the table has goes through at once. *)
Lemma insert_chunk_fits t o cols c d tb :
  dict_get t d = Some tb -> key_fresh t o tb c -> cols ⊆ tbl_columns tb ->
  insert_chunk t o cols c d =
    (dict_set t (mk_table (tbl_columns tb) (tbl_rows tb ++ map (stamp t o) c)) d, None).
Proof.
  intros Ht Hk Hc. unfold insert_chunk. rewrite (exec_insert_fresh t o cols c d tb Ht Hk).
  by rewrite (proj2 (missing_column_None tb cols) Hc).
Qed.

(** [create()]: the table as it was, or a new one with the chunk's
    columns and no row. *)
Lemma create_table_cases t o c d tb :
  dict_get t (create_table t o c d) = Some tb ->
  dict_get t d = Some tb \/ (dict_get t d = None /\ tbl_columns tb = create_columns o c /\ tbl_rows tb = []).
Proof.
  unfold create_table. destruct (dict_get t d) as [tb0|] eqn:Ht; [rewrite Ht; by left|].
  rewrite dict_get_set_eq. intros [= <-]. by right.
Qed.

Lemma add_missing_columns_get t c d tb :
  dict_get t d = Some tb ->
  updates t (mk_table (tbl_columns tb ++ filter (fun x => x ∉ tbl_columns tb) (chunk_keys c)) (tbl_rows tb))
    d (add_missing_columns t c d).
Proof. intros Ht. unfold add_missing_columns. rewrite Ht. apply updates_set. Qed.

(** A statement that went through: the chunk's rows appended, the
    statement's columns present. *)
Lemma insert_chunk_Ok t o cols c d d' :
  insert_chunk t o cols c d = (d', None) ->
  exists tb tb', dict_get t d = Some tb /\ updates t tb' d d' /\
    tbl_rows tb' = tbl_rows tb ++ map (stamp t o) c /\ cols ⊆ tbl_columns tb'.
Proof.
  unfold insert_chunk. destruct (exec_insert t o cols c d) as [d1|e] eqn:He.
  - intros [= <-]. apply exec_insert_Ok in He as (tb & Ht & Hc & ->).
    eexists tb, _. split_and!; [done|apply updates_set|done|done].
  - destruct (opt_alter o && column_error e); [|discriminate].
    destruct (exec_insert t o cols c (add_missing_columns t c d)) as [d2|e'] eqn:He2; [|discriminate].
    intros [= <-]. apply exec_insert_Ok in He2 as (tb1 & Ht1 & Hc & ->).
    unfold add_missing_columns in Ht1 |- *. destruct (dict_get t d) as [tb|] eqn:Ht; [|congruence].
    rewrite dict_get_set_eq in Ht1. injection Ht1 as <-. cbn [tbl_rows tbl_columns] in Hc |- *.
    eexists tb, _. split; [done|]. split; [eapply updates_trans; apply updates_set|by split].
Qed.

Lemma create_table_get t o c d :
  exists tb, updates t tb d (create_table t o c d) /\ tbl_rows tb = table_rows t d.
Proof.
  unfold create_table, table_rows. destruct (dict_get t d) as [tb|] eqn:Ht.
  - exists tb. split; [by split|done].
  - eexists. split; [apply updates_set|done].
Qed.

Lemma insert_chunks_Ok t o cols cs d d' tb :
  dict_get t d = Some tb -> insert_chunks t o cols cs d = (d', None) ->
  exists tb', updates t tb' d d' /\ tbl_rows tb' = tbl_rows tb ++ map (stamp t o) (concat cs).
Proof.
  revert cols d tb. induction cs as [|c cs IH]; intros cols d tb Ht; cbn [insert_chunks].
  - intros [= <-]. exists tb. split; [by split|by rewrite app_nil_r].
  - destruct (insert_chunk t o (next_columns cols c) c d) as [d1 [e|]] eqn:Hc; [discriminate|].
    apply insert_chunk_Ok in Hc as (tb0 & tb1 & Ht0 & Hu1 & Hr1 & _). rewrite Ht in Ht0. injection Ht0 as <-.
    intros Hcs. destruct (IH _ d1 tb1 (proj1 Hu1) Hcs) as (tb2 & Hu2 & Hr2).
    exists tb2. split; [by eapply updates_trans|]. cbn [concat]. by rewrite Hr2, Hr1, map_app, app_assoc.
Qed.

(** A call that goes through appends its rows, stamped, to its table and
    leaves the other tables alone. *)
Lemma insert_all_Ok t rs o d d' :
  insert_all t rs o d = (d', None) ->
  table_rows t d' = table_rows t d ++ map (stamp t o) rs /\
  forall t', t' <> t -> dict_get t' d' = dict_get t' d.
Proof.
  unfold insert_all. destruct rs as [|r0 rs'] eqn:Hrs.
  - intros [= <-]. rewrite app_nil_r. by split.
  - rewrite <- Hrs. repeat case_bool_decide; [discriminate|discriminate|].
    pose proof (insert_batches_concat o rs) as Hcat.
    destruct (insert_batches o rs) as [|c cs]; [subst; discriminate|].
    destruct (create_table_get t o c d) as (tb & Hu & Hr).
    destruct (insert_chunk t o (first_columns o c) c (create_table t o c d)) as [d2 [e|]] eqn:Hc;
      [discriminate|].
    apply insert_chunk_Ok in Hc as (tb0 & tb1 & Ht0 & Hu1 & Hr1 & _).
    rewrite (proj1 Hu) in Ht0. injection Ht0 as <-.
    intros Hcs. destruct (insert_chunks_Ok t o _ cs d2 d' tb1 (proj1 Hu1) Hcs) as (tb2 & Hu2 & Hr2).
    pose proof (updates_trans _ _ _ _ _ _ (updates_trans _ _ _ _ _ _ Hu Hu1) Hu2) as Hall.
    split; [|apply Hall]. rewrite (updates_rows _ _ _ _ t Hall), String.eqb_refl.
    by rewrite Hr2, Hr1, Hr, <- app_assoc, <- map_app, <- Hcat.
Qed.
(** Only a digest column can make a statement violate a key: the
    digest of a row is already in the table, or twice in the chunk. *)
Lemma exec_insert_integrity t o cols c d w :
  exec_insert t o cols c d = Err (IntegrityError w) ->
  exists h tb, opt_hash_id o = Some h /\ dict_get t d = Some tb /\
    ~ NoDup (key_values h (tbl_rows tb ++ map (stamp t o) c)).
Proof.
  unfold exec_insert. destruct (dict_get t d) as [tb|]; [|discriminate].
  destruct (missing_column tb cols); [discriminate|]. cbn [tbl_rows].
  destruct (opt_hash_id o) as [h|]; [|discriminate]. case_bool_decide; [discriminate|].
  intros _. by exists h, tb.
Qed.

Lemma insert_chunk_integrity t o cols c d d' w :
  insert_chunk t o cols c d = (d', Some (IntegrityError w)) ->
  exists h, opt_hash_id o = Some h /\ ~ NoDup (key_values h (table_rows t d ++ map (stamp t o) c)).
Proof.
  unfold insert_chunk. destruct (exec_insert t o cols c d) as [d1|e] eqn:He; [discriminate|].
  destruct (opt_alter o && column_error e) eqn:Ha.
  - destruct (exec_insert t o cols c (add_missing_columns t c d)) as [d2|e'] eqn:He2; [discriminate|].
    intros [= _ ->]. apply exec_insert_integrity in He2 as (h & tb1 & Hh & Ht1 & Hn).
    exists h. split; [done|]. unfold add_missing_columns, table_rows in *.
    destruct (dict_get t d) as [tb|] eqn:Ht; [|congruence]. rewrite dict_get_set_eq in Ht1.
    by injection Ht1 as <-.
  - intros [= _ ->]. apply exec_insert_integrity in He as (h & tb & Hh & Ht & Hn).
    exists h. unfold table_rows. by rewrite Ht.
Qed.

(** An [insert] of one row raises [IntegrityError] only when its digest
    is already in the table. *)
Lemma insert_all_one_integrity t r o d d' w :
  insert_all t [r] o d = (d', Some (IntegrityError w)) ->
  exists h, opt_hash_id o = Some h /\ ~ NoDup (key_values h (table_rows t d ++ [stamp t o r])).
Proof.
  unfold insert_all. rewrite insert_batches_one. repeat case_bool_decide; try discriminate.
  destruct (create_table_get t o [r] d) as (tb & [Ht _] & Hr).
  destruct (insert_chunk t o (first_columns o [r]) [r] (create_table t o [r] d)) as [d2 [e|]] eqn:Hc;
    cbn [insert_chunks]; [|discriminate].
  intros [= <- ->]. apply insert_chunk_integrity in Hc as (h & Hh & Hn). exists h. split; [done|].
  unfold table_rows at 1 in Hn. by rewrite Ht, Hr in Hn.
Qed.

Lemma insert_chunk_plain_integrity t o cols c d d' w :
  opt_hash_id o = None -> insert_chunk t o cols c d <> (d', Some (IntegrityError w)).
Proof. intros Hh Hc. apply insert_chunk_integrity in Hc as (h & Hh' & _). congruence. Qed.

(** Without [hash_id] a call never raises [IntegrityError]. *)
Lemma insert_all_plain_integrity t rs o d d' w :
  opt_hash_id o = None -> insert_all t rs o d <> (d', Some (IntegrityError w)).
Proof.
  intros Hh. unfold insert_all. destruct rs as [|r0 rs']; [discriminate|].
  repeat case_bool_decide; try discriminate. destruct (insert_batches o _) as [|c cs]; [discriminate|].
  destruct (insert_chunk t o _ c _) as [d2 [e|]] eqn:Hc.
  - intros [= <- ->]. by eapply insert_chunk_plain_integrity.
  - clear Hc. generalize (first_columns o c). revert d2. induction cs as [|c' cs IH]; intros d2 cols; cbn [insert_chunks];
      [discriminate|].
    destruct (insert_chunk t o (next_columns cols c') c' d2) as [d3 [e|]] eqn:Hc'; [|apply IH].
    intros [= <- ->]. by eapply insert_chunk_plain_integrity.
Qed.
End EngineLemmas.

Section AlterLemmas.
Context `{Collaborators}.

(** With [alter=True], a statement whose columns the table has or the
    chunk brings goes through: the missing ones are added first. *)
Lemma insert_chunk_columns t o cols c d tb :
  opt_alter o = true -> dict_get t d = Some tb -> key_fresh t o tb c ->
  (forall x, x ∈ cols -> x ∈ tbl_columns tb \/ chunk_key x c) ->
  exists d', insert_chunk t o cols c d = (d', None).
Proof.
  intros Halter Ht Hk Hcols. unfold insert_chunk. rewrite (exec_insert_fresh t o cols c d tb Ht Hk).
  destruct (missing_column tb cols) as [x|]; [|by eexists].
  rewrite Halter, column_error_no_column. cbn [andb].
  pose proof (add_missing_columns_get t c d tb Ht) as [Ht1 _].
  rewrite (exec_insert_fresh t o cols c _ _ Ht1 Hk).
  replace (missing_column _ cols) with (@None string); [by eexists|].
  symmetry. apply missing_column_None. intros y Hy. cbn [tbl_columns].
  destruct (Hcols y Hy) as [Hin|Hky]; [set_solver|].
  destruct (decide (y ∈ tbl_columns tb)); [set_solver|].
  apply elem_of_app. right. apply list_elem_of_filter. split; [done|]. by apply elem_of_chunk_keys.
Qed.

(** [insert(r, alter=True, hash_id=h)] of a row between one and 999
    columns wide goes through when its digest is new and the table, if
    it exists, has the digest column; the table keeps that column. *)
Lemma insert_all_one_keyed t o h r d :
  opt_alter o = true -> opt_hash_id o = Some h -> 0 < length (dict_keys r) <= SQLITE_MAX_VARS ->
  (forall tb, dict_get t d = Some tb -> h ∈ tbl_columns tb) ->
  NoDup (key_values h (table_rows t d ++ [stamp t o r])) ->
  exists d', insert_all t [r] o d = (d', None) /\ forall tb, dict_get t d' = Some tb -> h ∈ tbl_columns tb.
Proof.
  intros Ha Hh Hw Hcol Hnd. unfold insert_all. rewrite insert_batches_one.
  rewrite !bool_decide_eq_false_2 by (unfold SQLITE_MAX_VARS in *; lia). cbn [insert_chunks].
  destruct (create_table_get t o [r] d) as (tb & [Ht _] & Hr).
  assert (Hh1 : h ∈ tbl_columns tb).
  { destruct (create_table_cases t o [r] d tb Ht) as [Ht0|(_ & -> & _)]; [by apply Hcol|].
    apply elem_of_create_columns. by left. }
  destruct (insert_chunk_columns t o (first_columns o [r]) [r] _ tb Ha Ht) as [d2 Hc].
  - unfold key_fresh. rewrite Hh, Hr. exact Hnd.
  - intros x [Hx|Hx]%elem_of_first_columns; [left; congruence|by right].
  - exists d2. split; [by rewrite Hc|]. apply insert_chunk_Ok in Hc as (tb0 & tb1 & _ & [Ht1 _] & _ & Hsub).
    intros tb' Ht'. rewrite Ht1 in Ht'. injection Ht' as <-. apply Hsub, elem_of_first_columns. by left.
Qed.
End AlterLemmas.

(** ** Schema on write: [alter=True] *)

Section Alter.
Context `{Collaborators}.
Variables (t : string) (o : insert_opts).
Hypotheses (Halter : opt_alter o = true) (Hplain : opt_hash_id o = None).

(** A statement whose columns the table has or the chunk brings goes
    through: the missing ones are added first. *)
Lemma insert_chunk_alter cols c d tb :
  dict_get t d = Some tb -> (forall x, x ∈ cols -> x ∈ tbl_columns tb \/ chunk_key x c) ->
  exists d', insert_chunk t o cols c d = (d', None).
Proof.
  intros Ht. apply (insert_chunk_columns t o cols c d tb Halter Ht). unfold key_fresh. by rewrite Hplain.
Qed.

(** The later chunks all go through, and the columns of the call so far
    and of every chunk end up in the table. *)
Lemma insert_chunks_alter cols cs d tb :
  dict_get t d = Some tb -> cols ⊆ tbl_columns tb ->
  exists d' tb', insert_chunks t o cols cs d = (d', None) /\ dict_get t d' = Some tb' /\
    cols ⊆ tbl_columns tb' /\ forall c x, c ∈ cs -> chunk_key x c -> x ∈ tbl_columns tb'.
Proof.
  revert cols d tb. induction cs as [|c cs IH]; intros cols d tb Ht Hsub; cbn [insert_chunks].
  - exists d, tb. split_and!; [done|done|done|]. intros c x Hc. set_solver.
  - destruct (insert_chunk_alter (next_columns cols c) c d tb Ht) as [d1 Hc].
    { intros x Hx. apply elem_of_next_columns in Hx as [Hx|Hx]; [left; set_solver|by right]. }
    rewrite Hc. apply insert_chunk_Ok in Hc as (tb0 & tb1 & _ & [Ht1 _] & _ & Hsub1).
    destruct (IH _ d1 tb1 Ht1 Hsub1) as (d' & tb' & Hcs & Ht' & Hsub' & Hk).
    exists d', tb'. split_and!; [done|done| |].
    + intros x Hx. apply Hsub', elem_of_next_columns. by left.
    + intros c' x [->|Hc']%elem_of_cons Hx; [|by eapply Hk].
      apply Hsub', elem_of_next_columns. by right.
Qed.
(** A call that [alter=True] lets through: its first row has between one
    and 999 columns.  Every column of every row ends up in the table. *)
Lemma insert_all_alter rs d :
  (forall r0 rs', rs = r0 :: rs' -> 0 < length (dict_keys r0) <= SQLITE_MAX_VARS) ->
  exists d', insert_all t rs o d = (d', None) /\
    forall r x, r ∈ rs -> x ∈ dict_keys r -> x ∈ table_columns t d'.
Proof.
  intros Hw. unfold insert_all. destruct rs as [|r0 rs'] eqn:Hrs.
  - exists d. split; [done|]. intros r x Hr. set_solver.
  - rewrite <- Hrs. specialize (Hw r0 rs' eq_refl).
    rewrite !bool_decide_eq_false_2 by (unfold SQLITE_MAX_VARS in *; lia).
    pose proof (insert_batches_concat o rs) as Hcat.
    destruct (insert_batches o rs) as [|c cs]; [subst; discriminate|].
    destruct (create_table_get t o c d) as (tb & [Ht _] & _).
    destruct (insert_chunk_alter (first_columns o c) c _ tb Ht) as [d2 Hc].
    { intros x Hx. apply elem_of_first_columns in Hx as [Hx|Hx]; [congruence|by right]. }
    rewrite Hc. apply insert_chunk_Ok in Hc as (tb0 & tb1 & _ & [Ht1 _] & _ & Hsub1).
    destruct (insert_chunks_alter _ cs d2 tb1 Ht1 Hsub1) as (d' & tb' & Hcs & Ht' & Hsub' & Hk).
    exists d'. split; [done|]. intros r x Hr Hx. unfold table_columns. rewrite Ht'.
    rewrite <- Hcat in Hr. apply elem_of_concat_inv in Hr as (c' & [->|Hc']%elem_of_cons & Hr).
    + apply Hsub', elem_of_first_columns. right. by exists r.
    + apply (Hk c'); [done|]. by exists r.
Qed.
End Alter.

(** ** A fixed schema: no [alter] *)

Section NoAlter.
Context `{Collaborators}.
Variables (t : string) (o : insert_opts).
Hypotheses (Hnoalter : opt_alter o = false) (Hplain : opt_hash_id o = None).

(** One statement: it raises SQLite's error on the first column the
    table lacks, or appends the chunk and leaves the schema as it was. *)
Lemma insert_chunk_fixed cols c d tb :
  dict_get t d = Some tb -> (forall x, chunk_key x c -> x ∈ cols) ->
  (exists x, (x ∉ tbl_columns tb) /\ insert_chunk t o cols c d = (d, Some (no_column t x))) \/
  (exists d1 tb1, insert_chunk t o cols c d = (d1, None) /\ dict_get t d1 = Some tb1 /\
     tbl_columns tb1 = tbl_columns tb /\ forall x, chunk_key x c -> x ∈ tbl_columns tb).
Proof.
  intros Ht Hc. unfold insert_chunk. rewrite (exec_insert_plain t o cols c d tb Hplain Ht).
  destruct (missing_column tb cols) as [x|] eqn:Hm.
  - left. apply missing_column_Some in Hm as [_ Hx]. exists x. by rewrite Hnoalter.
  - right. apply missing_column_None in Hm. eexists _, _. split_and!; [done|apply dict_get_set_eq|done|].
    intros x Hx. by apply Hm, Hc.
Qed.

Lemma insert_chunks_unseen cols cs d tb :
  dict_get t d = Some tb ->
  (exists c x, c ∈ cs /\ chunk_key x c /\ x ∉ tbl_columns tb) ->
  exists x, (x ∉ tbl_columns tb) /\ snd (insert_chunks t o cols cs d) = Some (no_column t x).
Proof.
  revert cols d tb. induction cs as [|c cs IH]; intros cols d tb Ht (c' & y & Hc' & Hy & Hyn);
    [set_solver|cbn [insert_chunks]].
  destruct (insert_chunk_fixed (next_columns cols c) c d tb Ht) as [(x & Hx & ->)|(d1 & tb1 & -> & Ht1 & Hcol & Hk)].
  - intros x Hx. apply elem_of_next_columns. by right.
  - by exists x.
  - apply elem_of_cons in Hc' as [->|Hc']; [exfalso; by apply Hyn, Hk|].
    rewrite <- Hcol. apply (IH _ d1 tb1 Ht1). rewrite Hcol. eauto.
Qed.

(** A call one of whose rows has a column the existing table lacks
    raises SQLite's [OperationalError] naming a column the table lacks;
    the rows before the statement that raised stay written. *)
Lemma insert_all_unseen rs d tb :
  dict_get t d = Some tb ->
  (forall r0 rs', rs = r0 :: rs' -> 0 < length (dict_keys r0) <= SQLITE_MAX_VARS) ->
  (exists r x, r ∈ rs /\ x ∈ dict_keys r /\ x ∉ tbl_columns tb) ->
  exists x, (x ∉ tbl_columns tb) /\ snd (insert_all t rs o d) = Some (no_column t x).
Proof.
  intros Ht Hw (r & y & Hr & Hy & Hyn). unfold insert_all. destruct rs as [|r0 rs'] eqn:Hrs; [set_solver|].
  rewrite <- Hrs. specialize (Hw r0 rs' eq_refl).
  rewrite !bool_decide_eq_false_2 by (unfold SQLITE_MAX_VARS in *; lia).
  pose proof (insert_batches_concat o rs) as Hcat.
  destruct (insert_batches o rs) as [|c cs]; [subst; discriminate|].
  assert (Hd : create_table t o c d = d) by (unfold create_table; by rewrite Ht). rewrite Hd.
  destruct (insert_chunk_fixed (first_columns o c) c d tb Ht) as [(x & Hx & ->)|(d1 & tb1 & -> & Ht1 & Hcol & Hk)].
  - intros x Hx. apply elem_of_first_columns. by right.
  - by exists x.
  - rewrite <- Hrs, <- Hcat in Hr. apply elem_of_concat_inv in Hr as (c' & [->|Hc']%elem_of_cons & Hr).
    + exfalso. apply Hyn, Hk. by exists r.
    + rewrite <- Hcol. apply (insert_chunks_unseen _ cs d1 tb1 Ht1). rewrite Hcol. exists c', y.
      split_and!; [done|by exists r|done].
Qed.
End NoAlter.

(** ** A uniform schema *)

(** Calls whose rows all have the same keys [K], into a table that is
    new or has those columns, never meet a missing column, with or
    without [alter]. *)
Section Fits.
Context `{Collaborators}.
Variables (t : string) (o : insert_opts) (K : list string).
Hypothesis (Hplain : opt_hash_id o = None).

Lemma key_fresh_plain tb c : key_fresh t o tb c.
Proof. unfold key_fresh. by rewrite Hplain. Qed.

Lemma insert_chunks_fits cols cs d tb :
  dict_get t d = Some tb -> K ⊆ tbl_columns tb -> cols ⊆ K ->
  (forall c x, c ∈ cs -> chunk_key x c -> x ∈ K) ->
  exists d' tb', insert_chunks t o cols cs d = (d', None) /\ dict_get t d' = Some tb' /\
    tbl_columns tb' = tbl_columns tb.
Proof.
  revert cols d tb. induction cs as [|c cs IH]; intros cols d tb Ht HK Hcols Hcs; cbn [insert_chunks].
  - by exists d, tb.
  - rewrite (insert_chunk_fits t o _ c d tb Ht (key_fresh_plain tb c)).
    + destruct (IH (next_columns cols c) (dict_set t (mk_table (tbl_columns tb) (tbl_rows tb ++ map (stamp t o) c)) d)
                  (mk_table (tbl_columns tb) (tbl_rows tb ++ map (stamp t o) c)))
        as (d' & tb' & Hx & Ht' & Hc'); [apply dict_get_set_eq|done| |set_solver|].
      * intros x [Hx|Hx]%elem_of_next_columns; [by apply Hcols|]. apply (Hcs c); set_solver.
      * by exists d', tb'.
    + intros x [Hx|Hx]%elem_of_next_columns; [by apply HK, Hcols|]. apply HK, (Hcs c); set_solver.
Qed.

(** A call whose rows all have the keys [K], the first between one and
    999 of them, goes through, and the table then has the columns [K]. *)
Lemma insert_all_fits rs d :
  (forall tb, dict_get t d = Some tb -> K ⊆ tbl_columns tb) ->
  (forall r, r ∈ rs -> dict_keys r ⊆ K /\ K ⊆ dict_keys r) ->
  (forall r0 rs', rs = r0 :: rs' -> 0 < length (dict_keys r0) <= SQLITE_MAX_VARS) ->
  exists d', insert_all t rs o d = (d', None) /\ forall tb, dict_get t d' = Some tb -> K ⊆ tbl_columns tb.
Proof.
  intros HK Hrs Hw. unfold insert_all. destruct rs as [|r0 rs'] eqn:Hrs0; [by exists d|].
  rewrite <- Hrs0. specialize (Hw r0 rs' eq_refl).
  rewrite !bool_decide_eq_false_2 by (unfold SQLITE_MAX_VARS in *; lia).
  pose proof (insert_batches_concat o rs) as Hcat.
  destruct (insert_batches o rs) as [|c cs] eqn:Hb; [subst; discriminate|].
  assert (Hkey : forall c' x, c' ∈ c :: cs -> chunk_key x c' -> x ∈ K).
  { intros c' x Hc' (r & Hr & Hx). apply (Hrs r); [|done]. rewrite <- Hrs0, <- Hcat.
    apply list_elem_of_In, in_concat. exists c'. split; by apply list_elem_of_In. }
  subst rs. pose proof (insert_batches_head o r0 rs' c cs Hb) as Hr0.
  destruct (create_table_get t o c d) as (tb & [Ht _] & _).
  assert (HKtb : K ⊆ tbl_columns tb).
  { destruct (create_table_cases t o c d tb Ht) as [Ht0|(_ & -> & _)]; [by apply HK|].
    intros x Hx. apply elem_of_create_columns. right. exists r0. split; [done|]. apply (Hrs r0); set_solver. }
  assert (Hfirst : first_columns o c ⊆ K).
  { intros x [Hx|Hx]%elem_of_first_columns; [congruence|]. apply (Hkey c); set_solver. }
  rewrite (insert_chunk_fits t o _ c _ tb Ht (key_fresh_plain tb c)) by set_solver.
  destruct (insert_chunks_fits (first_columns o c) cs
              (dict_set t (mk_table (tbl_columns tb) (tbl_rows tb ++ map (stamp t o) c)) (create_table t o c d))
              (mk_table (tbl_columns tb) (tbl_rows tb ++ map (stamp t o) c)))
    as (d' & tb' & Hx & Ht' & Hc'); [apply dict_get_set_eq|done|done| |].
  - intros c' x Hc'. apply Hkey. set_solver.
  - exists d'. split; [done|]. intros tb'' Ht''. rewrite Ht' in Ht''. injection Ht'' as <-. by rewrite Hc'.
Qed.
End Fits.

(** ** Running a trace *)

Section Exec.
Context `{Collaborators}.

(** The rows a trace stores into [table], digests included. *)
Fixpoint rows_stored (table : string) (tr : list effect) : list row :=
  match tr with
  | [] => []
  | EInsertAll t rs o :: tr' => (if String.eqb t table then map (stamp t o) rs else []) ++ rows_stored table tr'
  | EInsert t r o :: tr' => (if String.eqb t table then [stamp t o r] else []) ++ rows_stored table tr'
  | _ :: tr' => rows_stored table tr'
  end.

(** The calls on [table] ask for no digest. *)
Definition plain_for (table : string) (e : effect) : Prop :=
  match e with
  | EInsertAll t _ o | EInsert t _ o => t = table -> opt_hash_id o = None
  | EOpen _ _ | EProgress _ => True
  end.

Lemma rows_stored_plain table tr :
  Forall (plain_for table) tr -> rows_stored table tr = rows_written table tr.
Proof.
  induction 1 as [|[t rs o|t r o|z p|n] tr Hp _ IH]; cbn [rows_stored rows_written]; try done;
    destruct (String.eqb_spec t table) as [->|]; rewrite IH; try done;
    cbn [plain_for] in Hp; [by rewrite map_stamp_plain by auto|by rewrite stamp_plain by auto].
Qed.

Lemma db_exec_app d tr1 tr2 :
  db_exec d (tr1 ++ tr2) =
    match db_exec d tr1 with
    | (d1, None) => db_exec d1 tr2
    | err => err
    end.
Proof.
  revert d. induction tr1 as [|e tr1 IH]; intros d; cbn [db_exec app]; [done|].
  destruct (apply_effect e d) as [d1 [x|]]; [done|apply IH].
Qed.

(** A trace the storage accepts stores its rows, in order, after those
    the tables had. *)
Lemma db_exec_Ok d tr d' :
  db_exec d tr = (d', None) -> forall table, table_rows table d' = table_rows table d ++ rows_stored table tr.
Proof.
  revert d. induction tr as [|e tr IH]; intros d; cbn [db_exec].
  - intros [= <-] table. by rewrite app_nil_r.
  - destruct (apply_effect e d) as [d1 [x|]] eqn:He; [discriminate|]. intros Hex table.
    rewrite (IH d1 Hex table).
    destruct e as [t rs o|t r o|z p|n]; cbn [apply_effect rows_stored] in He |- *;
      [| |injection He as <-; done..];
      apply insert_all_Ok in He as [Hr Ho]; rewrite app_assoc; f_equal;
      destruct (String.eqb_spec t table) as [->|Hne]; [done| |done|];
      rewrite app_nil_r; unfold table_rows; by rewrite Ho.
Qed.
(** A trace the storage stops: the calls before the one that raised
    went through. *)
Lemma db_exec_Err d tr d' e :
  db_exec d tr = (d', Some e) ->
  exists tr1 x tr2 d1, tr = tr1 ++ x :: tr2 /\ db_exec d tr1 = (d1, None) /\ apply_effect x d1 = (d', Some e).
Proof.
  revert d. induction tr as [|x tr IH]; intros d; cbn [db_exec]; [discriminate|].
  destruct (apply_effect x d) as [d1 [e'|]] eqn:Hx.
  - intros [= <- <-]. by exists [], x, tr, d.
  - intros Hex. destruct (IH d1 Hex) as (tr1 & y & tr2 & d2 & -> & H1 & H2).
    exists (x :: tr1), y, tr2, d2. cbn [db_exec app]. by rewrite Hx.
Qed.

(** The effects that do not touch the database. *)
Definition db_neutral (e : effect) : Prop :=
  match e with
  | EOpen _ _ | EProgress _ => True
  | EInsertAll _ _ _ | EInsert _ _ _ => False
  end.

Lemma db_exec_neutral d tr : Forall db_neutral tr -> db_exec d tr = (d, None).
Proof. induction 1 as [|[] tr Hx _ IH]; cbn in *; done. Qed.
End Exec.
