(* ===== verification/Extractor.v ===== *)
(** * The tag stream extractor: [find_all_tags] (utils.py, lines 10-25)

    The generator reads the input in chunks of 1 MiB until [read]
    returns nothing, feeds each chunk to the pull parser, and for every
    event the parser reports remembers the first [start] element as the
    root, yields [(el.tag, el)] for an [end] event whose tag is
    interesting, and calls [root.clear()]; after a chunk's events it
    calls the progress callback with the chunk's length.

    A Python generator interleaves its work with its consumer's.  It is
    modelled as a computation of the effect monad whose trace is the
    sequence of [gen_item]s it produces: the yields and the progress
    calls, in the order they happen.  [Convert] consumes this sequence;
    since the generator reads nothing the consumer writes, running it
    first and consuming its items in order is the same interleaving.
    An exception ends the sequence, as it ends the generator.

    Here an element is a value: the subtree the parser built for it,
    whole.  What [root.clear()] does to the live elements (it empties the
    root, and with it every element still attached to the root) is
    modelled in [LiveTree]: on export-shaped documents the live builder
    yields these same elements ([LiveTree.live_refines],
    [Convert.convert_live_pipeline]), while a root that is an element of
    interest reaches the consumer emptied
    ([Convert.live_root_record_raises]).  The effect of [root.clear()]
    modelled here is the [AttributeError] when no [start] event came
    first. *)

From stdpp Require Import base list strings.
From S2P Require Import Prelude PyDict Xml.

Local Open Scope string_scope.
Local Open Scope list_scope.

Definition CHUNK_SIZE : nat := 1024 * 1024.

(** ** Reading the stream: [fp.read(1024 * 1024)] until it is empty *)

(** The [while True] loop: each round reads [fp.read(CHUNK_SIZE)] and
    stops at the first empty read ([if not chunk: break]).  The loop is
    given [fuel] rounds; running out of them is [None], a result of its
    own, so that a loop that does not stop is told apart from one that
    does ([read_chunks_terminates]). *)
Fixpoint read_chunks (fuel : nat) (fp : list Byte.byte) : option (list (list Byte.byte)) :=
  match fuel with
  | O => None
  | S fuel' =>
      match take CHUNK_SIZE fp with
      | [] => Some []
      | chunk => cons chunk <$> read_chunks fuel' (drop CHUNK_SIZE fp)
      end
  end.

(** Every round before the last consumes at least one byte, so
    [length fp + 1] rounds reach the empty read; [file_chunks] is the
    chunks the loop reads with that fuel. *)
Definition file_chunks (fp : list Byte.byte) : list (list Byte.byte) :=
  default [] (read_chunks (S (length fp)) fp).

(** ** The generator *)

Inductive gen_item : Type :=
  | GYield (tag : string) (el : element)
  | GProgress (n : nat).

Section FindAllTags.
Context `{PP : PullParser}.
Variable tags : list string.

(** One iteration of [for event, el in parser.read_events()]. *)
Definition scan_event (root : option element) (ev : event) : M gen_item (option element) :=
  let root' :=
    match ev, root with
    | EvStart el, None => Some el
    | _, _ => root
    end in
  (match ev with
   | EvEnd el => if decide (el_tag el ∈ tags) then emit (GYield (el_tag el) el) else ret tt
   | EvStart _ => ret tt
   end);;;
  match root' with
  | None => throw (AttributeError "'NoneType' object has no attribute 'clear'")
  | Some _ => ret root'
  end.

(** One iteration of the [while True] loop, after a non-empty read: the
    events [read_events] gives are handled in order, then the error
    [feed] queued behind them, if any, is raised. *)
Definition scan_chunk (progress : bool) (st : pp_state * option element)
    (chunk : list Byte.byte) : M gen_item (pp_state * option element) :=
  let fed := pp_feed st.1 chunk in
  root <- mfold scan_event st.2 (trace_of fed);;
  ps <- lift (outcome fed);;
  (if progress then emit (GProgress (length chunk)) else ret tt);;;
  ret (ps, root).

Definition find_all_tags (fp : list Byte.byte) (progress : bool) : M gen_item unit :=
  _ <- mfold (scan_chunk progress) (pp_init, None) (file_chunks fp);;
  ret tt.

(** ** Specification *)

(** The event batches the parser reports for a sequence of chunks. *)
Fixpoint parser_run (ps : pp_state) (chunks : list (list Byte.byte)) : result (list (list event)) :=
  match chunks with
  | [] => Ok []
  | c :: cs =>
      rbind (outcome (pp_feed ps c)) (fun ps' =>
      rbind (parser_run ps' cs) (fun rest => Ok (trace_of (pp_feed ps c) :: rest)))
  end.

(** The items an event batch yields. *)
Definition yields_of (evs : list event) : list gen_item :=
  flat_map (fun ev =>
    match ev with
    | EvEnd el => if decide (el_tag el ∈ tags) then [GYield (el_tag el) el] else []
    | EvStart _ => []
    end) evs.

Definition chunk_items (progress : bool) (c : list Byte.byte) (evs : list event) : list gen_item :=
  yields_of evs ++ (if progress then [GProgress (length c)] else []).

(** The event stream starts with a [start] event, or is empty. *)
Definition starts_with_start (evs : list event) : Prop :=
  match evs with
  | [] => True
  | EvStart _ :: _ => True
  | EvEnd _ :: _ => False
  end.
End FindAllTags.

(** ** Lemmas *)

Lemma CHUNK_SIZE_pos : 0 < CHUNK_SIZE.
Proof. unfold CHUNK_SIZE. lia. Qed.

Lemma take_chunk_nil (fp : list Byte.byte) : take CHUNK_SIZE fp = [] -> fp = [].
Proof.
  pose proof CHUNK_SIZE_pos. destruct fp as [|b fp]; [done|].
  destruct CHUNK_SIZE; [lia|done].
Qed.

(** With more rounds than the input has bytes, the loop reaches the
    empty read; the chunks it read concatenate to the input, each
    non-empty and at most 1 MiB. *)
Lemma read_chunks_terminates fuel (fp : list Byte.byte) :
  length fp < fuel ->
  exists cs, read_chunks fuel fp = Some cs /\ concat cs = fp /\
    Forall (fun c => 0 < length c <= CHUNK_SIZE) cs.
Proof.
  revert fp. induction fuel as [|fuel IH]; intros fp Hlen; [lia|]. cbn [read_chunks].
  pose proof CHUNK_SIZE_pos as Hpos.
  assert (Hl : length (take CHUNK_SIZE fp) <= CHUNK_SIZE) by (rewrite length_take; lia).
  destruct (take CHUNK_SIZE fp) as [|b c] eqn:Ht.
  - exists []. by rewrite (take_chunk_nil fp Ht).
  - destruct (IH (drop CHUNK_SIZE fp)) as (cs & -> & Hc & Hs).
    { rewrite length_drop. destruct fp as [|x fp]; [discriminate|]. cbn [length] in *. lia. }
    exists ((b :: c) :: cs). split_and!; [done| |].
    + cbn [concat]. by rewrite <- Ht, Hc, take_drop.
    + constructor; [|done]. cbn [length] in *. lia.
Qed.

Lemma file_chunks_read fp : read_chunks (S (length fp)) fp = Some (file_chunks fp).
Proof.
  destruct (read_chunks_terminates (S (length fp)) fp) as (cs & Hr & _); [lia|].
  unfold file_chunks. by rewrite Hr.
Qed.

Lemma file_chunks_concat fp : concat (file_chunks fp) = fp.
Proof.
  destruct (read_chunks_terminates (S (length fp)) fp) as (cs & Hr & Hc & _); [lia|].
  unfold file_chunks. by rewrite Hr.
Qed.

Lemma file_chunks_sizes fp : Forall (fun c => 0 < length c <= CHUNK_SIZE) (file_chunks fp).
Proof.
  destruct (read_chunks_terminates (S (length fp)) fp) as (cs & Hr & _ & Hs); [lia|].
  unfold file_chunks. by rewrite Hr.
Qed.

(** C20: The read loop of find_all_tags stops: given one iteration more
    than the stream has bytes, it reaches the empty read and breaks
    (read_chunks returns its chunks, not the None of exhausted fuel), and
    the chunks it read concatenate to the input, each non-empty and at
    most 1 MiB. *)
Theorem file_chunks_spec (fp : list Byte.byte) :
  read_chunks (S (length fp)) fp = Some (file_chunks fp) /\
  concat (file_chunks fp) = fp /\ Forall (fun c => 0 < length c <= CHUNK_SIZE) (file_chunks fp).
Proof.
  destruct (read_chunks_terminates (S (length fp)) fp) as (cs & Hr & Hc & Hs); [lia|].
  unfold file_chunks. rewrite Hr. by split_and!.
Qed.

Section FindAllTagsLemmas.
Context `{PP : PullParser}.
Variable tags : list string.

Definition root_after (root : option element) (evs : list event) : option element :=
  match root, evs with
  | Some r, _ => Some r
  | None, EvStart el :: _ => Some el
  | None, _ => None
  end.

Lemma scan_event_some r ev :
  scan_event tags (Some r) ev = (yields_of tags [ev], Ok (Some r)).
Proof.
  destruct ev as [el|el]; unfold scan_event, yields_of; simpl; [done|].
  by case_decide.
Qed.

Lemma yields_of_app l1 l2 : yields_of tags (l1 ++ l2) = yields_of tags l1 ++ yields_of tags l2.
Proof. apply flat_map_app. Qed.

Lemma mfold_scan_event_some r evs :
  mfold (scan_event tags) (Some r) evs = (yields_of tags evs, Ok (Some r)).
Proof.
  induction evs as [|ev evs IH]; [done|]. cbn [mfold].
  rewrite scan_event_some, bind_Ok_eq, IH.
  change (ev :: evs) with ([ev] ++ evs). by rewrite yields_of_app.
Qed.

(** The events of one chunk: their yields, and the root afterwards. *)
Lemma mfold_scan_event root evs :
  root <> None \/ starts_with_start evs ->
  mfold (scan_event tags) root evs = (yields_of tags evs, Ok (root_after root evs)).
Proof.
  intros Hroot. destruct root as [r|]; [apply mfold_scan_event_some|].
  destruct Hroot as [Hn|Hs]; [done|]. destruct evs as [|[el|el] evs]; [done| |done].
  cbn [mfold]. assert (Hs0 : scan_event tags None (EvStart el) = ([], Ok (Some el))) by done.
  rewrite Hs0, bind_Ok_eq, mfold_scan_event_some. done.
Qed.
Lemma root_cond_split root evs more :
  root <> None \/ starts_with_start (evs ++ more) ->
  (root <> None \/ starts_with_start evs) /\ (root_after root evs <> None \/ starts_with_start more).
Proof.
  destruct root as [r|]; [intros _; split; left; done|].
  intros [H|H]; [done|]. destruct evs as [|[el|el] evs]; simpl in *; [tauto| |done].
  split; [by right|by left].
Qed.

Lemma scan_chunk_ok progress ps root c ps' evs :
  pp_feed ps c = (evs, Ok ps') -> root <> None \/ starts_with_start evs ->
  scan_chunk tags progress (ps, root) c =
    (chunk_items tags progress c evs, Ok (ps', root_after root evs)).
Proof.
  intros Hf Hc. unfold scan_chunk. cbn [fst snd]. rewrite Hf. cbn [trace_of outcome fst snd].
  rewrite mfold_scan_event by done. rewrite bind_Ok_eq. unfold lift. rewrite bind_Ok_eq.
  unfold chunk_items. destruct progress; cbn; by rewrite ?app_nil_r.
Qed.

Lemma mfold_scan_chunk progress chunks ps root evss :
  parser_run ps chunks = Ok evss ->
  root <> None \/ starts_with_start (concat evss) ->
  exists st, mfold (scan_chunk tags progress) (ps, root) chunks =
             (concat (zip_with (chunk_items tags progress) chunks evss), Ok st).
Proof.
  revert ps root evss. induction chunks as [|c cs IH]; intros ps root evss; simpl.
  - intros [= <-] _. by exists (ps, root).
  - destruct (pp_feed ps c) as [evs [ps'|e]] eqn:Hf; simpl; [|discriminate].
    destruct (parser_run ps' cs) as [rest|e] eqn:Hr; simpl; [|discriminate].
    intros [= <-] Hc. simpl in Hc. apply root_cond_split in Hc as [Hc1 Hc2].
    rewrite (scan_chunk_ok progress ps root c ps' evs Hf Hc1), bind_Ok_eq.
    destruct (IH ps' (root_after root evs) rest Hr Hc2) as [st ->].
    by exists st.
Qed.
Lemma parser_run_length ps chunks evss :
  parser_run ps chunks = Ok evss -> length evss = length chunks.
Proof.
  revert ps evss. induction chunks as [|c cs IH]; intros ps evss; simpl; [by intros [= <-]|].
  destruct (pp_feed ps c) as [evs [ps'|e]]; simpl; [|discriminate].
  destruct (parser_run ps' cs) as [rest|e] eqn:Hr; simpl; [|discriminate].
  intros [= <-]. simpl. f_equal. eauto.
Qed.

Lemma yields_of_flat_map {X} (f : X -> list event) l :
  yields_of tags (flat_map f l) = flat_map (fun x => yields_of tags (f x)) l.
Proof. induction l as [|x l IH]; [done|]. cbn [flat_map]. by rewrite yields_of_app, IH. Qed.

(** The yields of the events of a whole subtree are its interesting
    elements in closing order. *)
Lemma yields_of_events_of e :
  yields_of tags (events_of e) = map (fun x => GYield (el_tag x) x) (closing_matches tags e).
Proof.
  induction e as [t a cs IH] using element_ind'. cbn [events_of closing_matches].
  change (EvStart (Element t a []) :: ?l) with ([EvStart (Element t a [])] ++ l).
  rewrite !yields_of_app, yields_of_flat_map, map_app.
  change (yields_of tags [EvStart (Element t a [])]) with (@nil gen_item).
  rewrite app_nil_l. f_equal.
  - induction IH as [|c cs Hc Hcs IHcs]; [done|]. cbn [flat_map].
    by rewrite map_app, <- Hc, IHcs.
  - unfold yields_of. simpl. by case_decide.
Qed.
End FindAllTagsLemmas.

(** The arguments of the progress callback's calls, in order. *)
Definition progress_calls (items : list gen_item) : list nat :=
  omap (fun i => match i with GProgress n => Some n | GYield _ _ => None end) items.

Definition is_yield (i : gen_item) : bool :=
  match i with GYield _ _ => true | GProgress _ => false end.

Definition yielded (items : list gen_item) : list gen_item :=
  filter (fun i => is_yield i = true) items.

Lemma yielded_app l1 l2 : yielded (l1 ++ l2) = yielded l1 ++ yielded l2.
Proof. apply filter_app. Qed.

Lemma progress_calls_app l1 l2 : progress_calls (l1 ++ l2) = progress_calls l1 ++ progress_calls l2.
Proof. apply omap_app. Qed.

Lemma sum_list_map_length {A} (l : list (list A)) : sum_list (map length l) = length (concat l).
Proof. induction l as [|x l IH]; simpl; [done|]. by rewrite length_app, IH. Qed.

Section ExtractorTheorems.
Context `{PP : PullParser}.
Variable tags : list string.

Lemma yielded_yields_of evs : yielded (yields_of tags evs) = yields_of tags evs.
Proof.
  induction evs as [|ev evs IH]; [done|].
  change (ev :: evs) with ([ev] ++ evs). rewrite yields_of_app, yielded_app, IH. f_equal.
  destruct ev as [el|el]; unfold yields_of; simpl; [done|]. by destruct (decide _).
Qed.

Lemma progress_calls_yields_of evs : progress_calls (yields_of tags evs) = [].
Proof.
  induction evs as [|ev evs IH]; [done|].
  change (ev :: evs) with ([ev] ++ evs). rewrite yields_of_app, progress_calls_app, IH.
  destruct ev as [el|el]; unfold yields_of; simpl; [done|]. by destruct (decide _).
Qed.

Lemma yielded_chunks progress chunks evss :
  length evss = length chunks ->
  yielded (concat (zip_with (chunk_items tags progress) chunks evss)) = yields_of tags (concat evss).
Proof.
  revert evss. induction chunks as [|c cs IH]; intros [|evs evss] Hl;
    cbn [zip_with concat length] in *; try done.
  unfold chunk_items at 1. rewrite !yielded_app, yielded_yields_of, IH by lia.
  rewrite yields_of_app. destruct progress; simpl; by rewrite ?app_nil_r.
Qed.

Lemma progress_calls_chunks chunks evss :
  length evss = length chunks ->
  progress_calls (concat (zip_with (chunk_items tags true) chunks evss)) = map length chunks.
Proof.
  revert evss. induction chunks as [|c cs IH]; intros [|evs evss] Hl;
    cbn [zip_with concat length map] in *; try done.
  unfold chunk_items at 1. rewrite !progress_calls_app, progress_calls_yields_of, IH by lia. done.
Qed.

(** [find_all_tags] yields, for every chunk, the interesting [end]
    events the parser reports for it, then reports the chunk's length;
    it ends normally when the event stream opens with a [start]. *)
Theorem find_all_tags_trace fp progress evss :
  parser_run pp_init (file_chunks fp) = Ok evss -> starts_with_start (concat evss) ->
  find_all_tags tags fp progress =
    (concat (zip_with (chunk_items tags progress) (file_chunks fp) evss), Ok tt).
Proof.
  intros Hrun Hs. unfold find_all_tags.
  destruct (mfold_scan_chunk tags progress (file_chunks fp) pp_init None evss Hrun)
    as [st ->]; [by right|].
  rewrite bind_Ok_eq. simpl. by rewrite app_nil_r.
Qed.

(** The generator ends normally on the chunks of a document. *)
Lemma find_all_tags_doc_Ok fp progress evss doc :
  parser_run pp_init (file_chunks fp) = Ok evss -> concat evss = events_of doc ->
  find_all_tags tags fp progress =
    (concat (zip_with (chunk_items tags progress) (file_chunks fp) evss), Ok tt).
Proof.
  intros Hrun Hev. apply (find_all_tags_trace fp progress evss Hrun).
  rewrite Hev. by destruct doc.
Qed.

Lemma find_all_tags_doc_yielded fp progress evss doc :
  parser_run pp_init (file_chunks fp) = Ok evss -> concat evss = events_of doc ->
  yielded (trace_of (find_all_tags tags fp progress)) =
    map (fun x => GYield (el_tag x) x) (closing_matches tags doc).
Proof.
  intros Hrun Hev. rewrite (find_all_tags_doc_Ok fp progress evss doc Hrun Hev).
  cbn [trace_of fst]. rewrite yielded_chunks by (eapply parser_run_length; eauto).
  rewrite Hev. apply yields_of_events_of.
Qed.

(** Without a progress callback the generator's items are its yields. *)
Lemma chunks_silent chunks evss :
  length evss = length chunks ->
  concat (zip_with (chunk_items tags false) chunks evss) = yields_of tags (concat evss).
Proof.
  revert evss. induction chunks as [|c cs IH]; intros [|evs evss] Hl;
    cbn [zip_with concat length] in *; try done.
  unfold chunk_items at 1. rewrite yields_of_app, IH by lia. by rewrite app_nil_r.
Qed.

Lemma find_all_tags_doc_silent fp evss doc :
  parser_run pp_init (file_chunks fp) = Ok evss -> concat evss = events_of doc ->
  find_all_tags tags fp false = (map (fun x => GYield (el_tag x) x) (closing_matches tags doc), Ok tt).
Proof.
  intros Hrun Hev. rewrite (find_all_tags_doc_Ok fp false evss doc Hrun Hev).
  rewrite chunks_silent by (eapply parser_run_length; eauto). by rewrite Hev, yields_of_events_of.
Qed.

(** C11: When the parser reports the events of a document, find_all_tags
    ends normally and yields exactly the document's elements with a tag of
    interest, each at its closing tag, children before parents, in
    document order. *)
Theorem find_all_tags_refines fp progress evss doc :
  parser_run pp_init (file_chunks fp) = Ok evss -> concat evss = events_of doc ->
  outcome (find_all_tags tags fp progress) = Ok tt /\
  yielded (trace_of (find_all_tags tags fp progress)) =
    map (fun x => GYield (el_tag x) x) (closing_matches tags doc).
Proof.
  intros Hrun Hev. split; [|by eapply find_all_tags_doc_yielded].
  by rewrite (find_all_tags_doc_Ok fp progress evss doc Hrun Hev).
Qed.

(** C19: With a progress callback, find_all_tags calls it once per chunk
    with the chunk's length; the calls are positive, at most 1 MiB each,
    and add up to the length of the input. *)
Theorem find_all_tags_progress fp evss :
  parser_run pp_init (file_chunks fp) = Ok evss -> starts_with_start (concat evss) ->
  progress_calls (trace_of (find_all_tags tags fp true)) = map length (file_chunks fp) /\
  sum_list (progress_calls (trace_of (find_all_tags tags fp true))) = length fp /\
  Forall (fun n => 0 < n <= CHUNK_SIZE) (progress_calls (trace_of (find_all_tags tags fp true))).
Proof.
  intros Hrun Hs. rewrite (find_all_tags_trace fp true evss Hrun Hs). cbn [trace_of fst].
  rewrite progress_calls_chunks by (eapply parser_run_length; eauto).
  split_and!; [done| |].
  - by rewrite sum_list_map_length, file_chunks_concat.
  - apply Forall_map, file_chunks_sizes.
Qed.

Lemma progress_calls_yields_only l : Forall (fun i => is_yield i = true) l -> progress_calls l = [].
Proof. induction 1 as [|[] l Hx Hl IH]; simpl in *; congruence. Qed.

Lemma scan_event_yields_only root ev :
  mspec (fun _ => True) (fun i => is_yield i = true) (scan_event tags root ev).
Proof.
  unfold scan_event. apply mspec_bind with (P1 := fun _ => True).
  - destruct ev as [el|el]; [by apply mspec_ret|]. case_decide; [by apply mspec_emit|by apply mspec_ret].
  - intros _ _. repeat case_match; auto with h2s.
Qed.

Lemma progress_calls_scan_events root evs :
  progress_calls (trace_of (mfold (scan_event tags) root evs)) = [].
Proof.
  revert root. induction evs as [|ev evs IH]; intros root; [done|]. cbn [mfold].
  rewrite trace_bind, progress_calls_app.
  assert (Hev : progress_calls (trace_of (scan_event tags root ev)) = []).
  { apply progress_calls_yields_only. apply (proj1 (scan_event_yields_only root ev)). }
  rewrite Hev. destruct (outcome _); [apply IH|done].
Qed.

Lemma scan_chunk_progress st c st' :
  outcome (scan_chunk tags true st c) = Ok st' ->
  progress_calls (trace_of (scan_chunk tags true st c)) = [length c].
Proof.
  unfold scan_chunk. destruct (pp_feed st.1 c) as [evs [ps|e]]; cbn [trace_of outcome fst snd].
  all: rewrite trace_bind, outcome_bind, progress_calls_app, progress_calls_scan_events.
  all: destruct (outcome (mfold (scan_event tags) st.2 evs)); [|done]; unfold lift.
  - rewrite bind_Ok_eq. intros _. cbn. done.
  - done.
Qed.

Lemma mfold_scan_chunk_progress chunks st st' :
  outcome (mfold (scan_chunk tags true) st chunks) = Ok st' ->
  progress_calls (trace_of (mfold (scan_chunk tags true) st chunks)) = map length chunks.
Proof.
  revert st. induction chunks as [|c cs IH]; intros st Ho; [done|]. cbn [mfold] in *.
  rewrite outcome_bind in Ho. rewrite trace_bind.
  destruct (outcome (scan_chunk tags true st c)) as [st1|e] eqn:Hc; [|discriminate].
  rewrite progress_calls_app, (scan_chunk_progress st c st1 Hc), (IH st1 Ho). done.
Qed.

(** When the generator finishes normally, it has called the progress
    callback once per chunk, with the chunk's length. *)
Lemma find_all_tags_progress_ok fp :
  outcome (find_all_tags tags fp true) = Ok tt ->
  progress_calls (trace_of (find_all_tags tags fp true)) = map length (file_chunks fp).
Proof.
  unfold find_all_tags. rewrite outcome_bind, trace_bind.
  destruct (outcome (mfold _ _ _)) eqn:Ho; [|discriminate]. intros _.
  rewrite progress_calls_app, (mfold_scan_chunk_progress _ _ _ Ho). by rewrite app_nil_r.
Qed.
End ExtractorTheorems.
