(* ===== verification/XmlPipeline.v ===== *)
(** * The extractor on the bytes of an export

    [find_all_tags] (utils.py, lines 9-25) composed with the model of
    ElementTree's pull parser ([XmlParser.xml_parser]): the generator run
    on the bytes of a file, cut into the 1 MiB chunks [fp.read] returns.

    The first section holds for every parser behind [Xml.PullParser]: the
    generator's yields are those of the events the parser reports over
    all the chunks, and an error the parser raises ends the generator
    after the events reported before it were handled.  The theorems then
    instantiate it with [xml_parser]: a whole export, a truncated one,
    and two document elements one after the other. *)

From stdpp Require Import base list strings.
From S2P Require Import Prelude PyDict Xml XmlParser Extractor.

Local Open Scope list_scope.

(** ** Any pull parser *)

Section AnyParser.
Context `{PP : PullParser}.
Variable tags : list string.

(** Chunks the parser accepts give [parser_run]'s event batches. *)
Lemma parser_run_mfold ps chunks st :
  outcome (mfold pp_feed ps chunks) = Ok st ->
  exists evss, parser_run ps chunks = Ok evss /\ concat evss = trace_of (mfold pp_feed ps chunks).
Proof.
  revert ps. induction chunks as [|c cs IH]; intros ps; cbn [mfold parser_run].
  - intros _. by exists [].
  - destruct (pp_feed ps c) as [evs [ps'|e]] eqn:Hf; cbn [bind outcome snd]; [|discriminate].
    destruct (mfold pp_feed ps' cs) as [t r] eqn:Hm. intros Hr.
    destruct (IH ps') as (evss & Hrun & Hc); [by rewrite Hm|].
    exists (evs :: evss). cbn [outcome trace_of fst snd rbind]. rewrite Hrun. cbn.
    by rewrite Hc, Hm.
Qed.

Lemma yielded_chunk_items progress c evs : yielded (chunk_items tags progress c evs) = yields_of tags evs.
Proof. unfold chunk_items. rewrite yielded_app, yielded_yields_of. destruct progress; cbn; by rewrite app_nil_r. Qed.

(** The generator's loop against the parser's: the same yields, and the
    parser's error, raised once the events before it are handled. *)
Lemma mfold_scan_chunk_feed progress chunks ps root :
  root <> None \/ starts_with_start (trace_of (mfold pp_feed ps chunks)) ->
  yielded (trace_of (mfold (scan_chunk tags progress) (ps, root) chunks)) =
    yields_of tags (trace_of (mfold pp_feed ps chunks)) /\
  (forall e, outcome (mfold pp_feed ps chunks) = Err e ->
             outcome (mfold (scan_chunk tags progress) (ps, root) chunks) = Err e).
Proof.
  revert ps root. induction chunks as [|c cs IH]; intros ps root; cbn [mfold].
  - intros _. split; [done|]. by intros e [=].
  - destruct (pp_feed ps c) as [evs [ps'|e]] eqn:Hf.
    + rewrite trace_bind, outcome_bind. cbn [trace_of outcome fst snd]. intros Hc.
      apply root_cond_split in Hc as [Hc1 Hc2].
      rewrite (scan_chunk_ok tags progress ps root c ps' evs Hf Hc1), bind_Ok_eq.
      cbn [trace_of outcome fst snd]. destruct (IH ps' (root_after root evs) Hc2) as [Hy Ho].
      rewrite yielded_app, yielded_chunk_items, Hy, yields_of_app. split; [done|].
      intros e He. by apply Ho.
    + cbn [bind trace_of outcome fst snd]. intros Hc.
      unfold scan_chunk. cbn [fst snd]. rewrite Hf. cbn [trace_of outcome fst snd].
      rewrite mfold_scan_event by done. cbn [bind lift]. rewrite ?app_nil_r.
      split; [apply yielded_yields_of|]. by intros e' [= ->].
Qed.

Lemma find_all_tags_feed fp progress :
  starts_with_start (trace_of (mfold pp_feed pp_init (file_chunks fp))) ->
  yielded (trace_of (find_all_tags tags fp progress)) =
    yields_of tags (trace_of (mfold pp_feed pp_init (file_chunks fp))) /\
  (forall e, outcome (mfold pp_feed pp_init (file_chunks fp)) = Err e ->
             outcome (find_all_tags tags fp progress) = Err e).
Proof.
  intros Hs. destruct (mfold_scan_chunk_feed progress (file_chunks fp) pp_init None (or_intror Hs))
    as [Hy Ho].
  unfold find_all_tags. rewrite trace_bind, outcome_bind, yielded_app, Hy.
  revert Hy Ho; generalize (file_chunks fp); intros cs Hy Ho.
  split; [by destruct (outcome (mfold (scan_chunk tags progress) (pp_init, None) cs)); cbn; rewrite ?app_nil_r|].
  intros e He. by rewrite (Ho e He).
Qed.
End AnyParser.

(** ** The model of ElementTree *)

Lemma mfold_xml_parser fp :
  mfold (@pp_feed xml_parser) (@pp_init xml_parser) (file_chunks fp) = xml_feed xml_init fp.
Proof.
  change (mfold xml_feed xml_init (file_chunks fp) = xml_feed xml_init fp).
  rewrite mfold_xml_feed. by rewrite file_chunks_concat.
Qed.

Lemma starts_with_start_prefix evs doc : evs `prefix_of` events_of doc -> starts_with_start evs.
Proof. destruct doc as [t a cs]. intros [k Hk]. destruct evs as [|ev evs]; [done|]. cbn in Hk. injection Hk as Hev _. by subst. Qed.

(** Over the chunks of a whole export the parser reports the events of
    the document: the hypothesis of the extractor's and the conversion's
    theorems on documents holds for [xml_parser]. *)
Lemma xml_parser_run_export doc :
  el_xml_okb doc = true ->
  exists evss, @parser_run xml_parser pp_init (file_chunks (export_bytes doc)) = Ok evss /\
               concat evss = events_of doc.
Proof.
  intros Hd. pose proof (mfold_xml_parser (export_bytes doc)) as Hm.
  rewrite xml_feed_export in Hm by done.
  destruct (@parser_run_mfold xml_parser pp_init (file_chunks (export_bytes doc)) xml_done) as (evss & Hrun & Hc); [by rewrite Hm|].
  exists evss. split; [done|]. by rewrite Hc, Hm.
Qed.

(** The yields of a prefix of a document's events are a prefix of the
    document's yields. *)
Lemma yields_of_prefix tags evs doc :
  evs `prefix_of` events_of doc ->
  yields_of tags evs `prefix_of` map (fun x => GYield (el_tag x) x) (closing_matches tags doc).
Proof.
  intros [k Hk]. rewrite <- yields_of_events_of, Hk, yields_of_app. by exists (yields_of tags k).
Qed.

Section ExportBytes.
Variable tags : list string.

(** C12: On the bytes of a whole export, read in chunks of 1 MiB and fed
    to the model of ElementTree's parser, find_all_tags ends normally and
    yields exactly the document's elements with a tag of interest, each at
    its closing tag, in document order. *)
Theorem find_all_tags_export doc progress :
  el_xml_okb doc = true ->
  outcome (@find_all_tags xml_parser tags (export_bytes doc) progress) = Ok tt /\
  yielded (trace_of (@find_all_tags xml_parser tags (export_bytes doc) progress)) =
    map (fun x => GYield (el_tag x) x) (closing_matches tags doc).
Proof.
  intros Hd. destruct (xml_parser_run_export doc Hd) as (evss & Hrun & Hc). split.
  - by rewrite (@find_all_tags_doc_Ok xml_parser tags _ progress evss doc Hrun Hc).
  - exact (@find_all_tags_doc_yielded xml_parser tags _ progress evss doc Hrun Hc).
Qed.

(** C13: A truncated export (any prefix of the bytes of an export) does
    not make find_all_tags raise: the loop never calls parser.close(), so
    the unclosed elements are dropped silently; it ends normally and
    yields a prefix of what the whole export yields: the elements of
    interest closed before the cut. *)
Theorem find_all_tags_truncated doc p q progress :
  el_xml_okb doc = true -> p ++ q = export_bytes doc ->
  outcome (@find_all_tags xml_parser tags p progress) = Ok tt /\
  yielded (trace_of (@find_all_tags xml_parser tags p progress)) `prefix_of`
    map (fun x => GYield (el_tag x) x) (closing_matches tags doc).
Proof.
  intros Hd Hpq. pose proof (xml_feed_export doc Hd) as Hx. rewrite <- Hpq, xml_feed_app in Hx.
  apply bind_Ok_prefix in Hx as (st & Hst & Hpre).
  pose proof (mfold_xml_parser p) as Hm.
  destruct (@parser_run_mfold xml_parser pp_init (file_chunks p) st) as (evss & Hrun & Hc);
    [by rewrite Hm|].
  rewrite Hm in Hc.
  rewrite (@find_all_tags_trace xml_parser tags p progress evss Hrun);
    [|rewrite Hc; by apply (starts_with_start_prefix _ doc)].
  split; [done|]. cbn [trace_of fst].
  rewrite yielded_chunks by (eapply parser_run_length; eauto).
  rewrite Hc. by apply yields_of_prefix.
Qed.

(** C14: Two document elements one after the other (an export with a
    second document appended) make find_all_tags raise XmlParseError('junk
    after document element'), after it has yielded every element of
    interest of the first document. *)
Theorem find_all_tags_second_root d1 d2 progress :
  el_xml_okb d1 = true -> el_xml_okb d2 = true ->
  yielded (trace_of (@find_all_tags xml_parser tags (export_bytes d1 ++ render d2) progress)) =
    map (fun x => GYield (el_tag x) x) (closing_matches tags d1) /\
  outcome (@find_all_tags xml_parser tags (export_bytes d1 ++ render d2) progress) =
    Err (XmlParseError "junk after document element").
Proof.
  intros H1 H2. pose proof (mfold_xml_parser (export_bytes d1 ++ render d2)) as Hm.
  rewrite xml_feed_second_root in Hm by done.
  destruct (@find_all_tags_feed xml_parser tags (export_bytes d1 ++ render d2) progress)
    as [Hy Ho]; [rewrite Hm; by destruct d1|].
  rewrite Hm in Hy, Ho. cbn [trace_of outcome fst snd] in Hy, Ho. split; [by rewrite Hy, yields_of_events_of|by apply Ho].
Qed.
End ExportBytes.
