(* ===== verification/LiveTree.v ===== *)
(** * The element tree under [root.clear()] and [el.clear()]
    (utils.py, lines 17-23 and 52)

    [Xml] and [Extractor] hand the consumer each element as the document
    has it.  The program works on the live objects ElementTree's tree
    builder is growing, and mutates them: after every parser event the
    generator calls [root.clear()] (line 23), which empties the root's
    attributes and children, and after every yielded element the
    consumer calls [el.clear()] (line 52), which empties that element;
    the element is still a child of its parent, which therefore holds
    the cleared object (the two names alias one object).

    The tree builder is modelled as the stack of the elements still
    open, innermost first, each a [frame] holding its tag, attributes
    and the children closed so far.  A [TStart] token opens a frame; a
    [TEnd] token closes the innermost one into an element, which is
    yielded when its tag is of interest, and attaches it to its parent:
    cleared when it was yielded (the consumer cleared it before the
    generator resumed), as built otherwise.  After every token the
    bottom frame, the root, is cleared.

    The theorems: on a document whose root has no interesting tag and
    whose interesting elements contain no interesting element (the
    shape of an export: Records, Workouts and ActivitySummaries under
    [HealthData], Records also under Correlations), the live generator
    yields exactly what the tree specification yields
    ([closing_matches]), so the memory release is invisible to the
    consumer; between two top-level elements the builder holds nothing
    but the empty root, whatever came before; and a document whose root
    is itself of interest is yielded emptied. *)

From stdpp Require Import base list strings.
From S2P Require Import Prelude PyDict Xml.

Local Open Scope string_scope.
Local Open Scope list_scope.

(** The tokens the XML tokenizer reports: a start tag with its
    attributes, or an end tag (the tokenizer checks that it matches). *)
Inductive token : Type :=
  | TStart (tag : string) (attrib : row)
  | TEnd.

(** The tokens of a document, in order. *)
Fixpoint tokens_of (e : element) : list token :=
  match e with
  | Element t a cs => TStart t a :: flat_map tokens_of cs ++ [TEnd]
  end.

(** An element under construction. *)
Record frame : Type := mk_frame {
  f_tag : string;
  f_attrib : row;
  f_children : list element
}.

Definition close (f : frame) : element := Element (f_tag f) (f_attrib f) (f_children f).

(** [el.clear()]: the tag stays, attributes and children go. *)
Definition el_clear (e : element) : element := Element (el_tag e) [] [].

Definition frame_clear (f : frame) : frame := mk_frame (f_tag f) [] [].

(** The parent's [append] of a closed child. *)
Definition attach (e : element) (st : list frame) : list frame :=
  match st with
  | [] => []
  | p :: st' => mk_frame (f_tag p) (f_attrib p) (f_children p ++ [e]) :: st'
  end.

(** [root.clear()]: the root is the bottom frame. *)
Fixpoint clear_root (st : list frame) : list frame :=
  match st with
  | [] => []
  | [f] => [frame_clear f]
  | f :: st' => f :: clear_root st'
  end.

Section Live.
Variable tags : list string.

(** One parser event and what follows it in the generator and the
    consumer: the element yielded, if any, and the stack after the
    consumer's [el.clear()] and the generator's [root.clear()].  An end
    tag with nothing open is a parse error. *)
Definition live_token (st : list frame) (tok : token) : option (list frame * list element) :=
  match tok with
  | TStart t a => Some (clear_root (mk_frame t a [] :: st), [])
  | TEnd =>
      match st with
      | [] => None
      | f :: st' =>
          let e := close f in
          if decide (f_tag f ∈ tags) then Some (clear_root (attach (el_clear e) st'), [e])
          else Some (clear_root (attach e st'), [])
      end
  end.

(** The whole stream: the final stack and the elements yielded, in order. *)
Fixpoint live_run (st : list frame) (toks : list token) : option (list frame * list element) :=
  match toks with
  | [] => Some (st, [])
  | tok :: toks' =>
      match live_token st tok with
      | None => None
      | Some (st1, ys1) =>
          match live_run st1 toks' with
          | None => None
          | Some (st2, ys2) => Some (st2, ys1 ++ ys2)
          end
      end
  end.

(** Interesting elements hold no interesting element. *)
Definition no_nested (e : element) : Prop :=
  Forall (fun x => flat_map (closing_matches tags) (el_children x) = []) (closing_matches tags e).
End Live.

(** ** Lemmas *)

Lemma clear_root_cons f st : st <> [] -> clear_root (f :: st) = f :: clear_root st.
Proof. by destruct st. Qed.

Lemma clear_root_nonempty st : st <> [] -> clear_root st <> [].
Proof. destruct st as [|f [|g st]]; done. Qed.

Lemma clear_root_idem st : clear_root (clear_root st) = clear_root st.
Proof.
  induction st as [|f st IH]; [done|]. destruct st as [|g st]; [done|].
  rewrite !clear_root_cons by (done || by apply clear_root_nonempty). by rewrite IH.
Qed.

(** Clearing the root before a push or an append changes nothing: it is
    cleared again after the event. *)
Lemma clear_root_push f st : clear_root (f :: clear_root st) = clear_root (f :: st).
Proof.
  destruct st as [|g st]; [done|].
  rewrite !clear_root_cons by (done || by apply clear_root_nonempty). by rewrite clear_root_idem.
Qed.

Lemma clear_root_attach e st : clear_root (attach e (clear_root st)) = clear_root (attach e st).
Proof.
  destruct st as [|p [|q st]]; [done|done|]. cbn [attach]. rewrite clear_root_cons by done.
  cbn [attach]. apply clear_root_push.
Qed.

Section LiveLemmas.
Variable tags : list string.

Lemma live_run_app st l1 l2 :
  live_run tags st (l1 ++ l2) =
    match live_run tags st l1 with
    | None => None
    | Some (st1, ys1) =>
        match live_run tags st1 l2 with
        | None => None
        | Some (st2, ys2) => Some (st2, ys1 ++ ys2)
        end
    end.
Proof.
  revert st. induction l1 as [|tok l1 IH]; intros st; simpl.
  - by destruct (live_run tags st l2) as [[]|].
  - destruct (live_token tags st tok) as [[st1 ys1]|]; [|done]. rewrite IH.
    destruct (live_run tags st1 l1) as [[st2 ys2]|]; [|done].
    destruct (live_run tags st2 l2) as [[st3 ys3]|]; [|done]. by rewrite app_assoc.
Qed.

Lemma no_nested_children t a cs :
  no_nested tags (Element t a cs) -> Forall (no_nested tags) cs.
Proof.
  unfold no_nested. cbn [closing_matches]. intros [Hcs _]%Forall_app.
  induction cs as [|c cs IH]; [constructor|]. cbn [flat_map] in Hcs.
  apply Forall_app in Hcs as [Hc Hrest]. constructor; auto.
Qed.

Lemma no_nested_leaf e : closing_matches tags e = [] -> no_nested tags e.
Proof. unfold no_nested. intros ->. constructor. Qed.

(** What the tokens of one element do to a stack whose root is cleared:
    the element (as the parent ends up holding it) is attached to the
    top frame, and, when no interesting element holds another, the
    yields are those of the tree specification and an element with
    nothing of interest in it is attached as it is. *)
Definition elem_spec (e : element) : Prop :=
  forall st, st <> [] ->
  exists e' ys,
    live_run tags (clear_root st) (tokens_of e) = Some (clear_root (attach e' st), ys) /\
    (no_nested tags e -> ys = closing_matches tags e /\ (closing_matches tags e = [] -> e' = e)).

Lemma children_spec cs :
  Forall elem_spec cs -> forall f st,
  exists cs' ys,
    live_run tags (clear_root (f :: st)) (flat_map tokens_of cs) =
      Some (clear_root (mk_frame (f_tag f) (f_attrib f) (f_children f ++ cs') :: st), ys) /\
    (Forall (no_nested tags) cs ->
       ys = flat_map (closing_matches tags) cs /\ (flat_map (closing_matches tags) cs = [] -> cs' = cs)).
Proof.
  induction 1 as [|c cs Hc _ IH]; intros f st.
  - exists [], []. rewrite app_nil_r. split; [by destruct f|done].
  - destruct (Hc (f :: st) ltac:(done)) as (c' & ys1 & Hrun1 & Hspec1).
    destruct (IH (mk_frame (f_tag f) (f_attrib f) (f_children f ++ [c'])) st)
      as (cs' & ys2 & Hrun2 & Hspec2).
    exists (c' :: cs'), (ys1 ++ ys2). cbn [flat_map]. rewrite live_run_app, Hrun1.
    cbn [attach] in *. rewrite Hrun2. cbn [f_tag f_attrib f_children]. rewrite <- app_assoc.
    split; [done|]. intros [Hnc Hncs]%Forall_cons.
    destruct (Hspec1 Hnc) as [-> Hc'], (Hspec2 Hncs) as [-> Hcs']. split; [done|].
    intros [Hc0 Hcs0]%app_eq_nil. by rewrite Hc', Hcs'.
Qed.

Lemma elem_spec_all e : elem_spec e.
Proof.
  induction e as [t a cs IHcs] using element_ind'. intros st Hst.
  destruct (children_spec cs IHcs (mk_frame t a []) st) as (cs' & ys & Hrun & Hspec).
  cbn [tokens_of]. rewrite (live_run_app _ (TStart t a :: flat_map tokens_of cs) [TEnd]).
  cbn [live_run live_token]. rewrite clear_root_push, Hrun.
  rewrite clear_root_cons by done. cbn [live_run live_token f_tag f_attrib f_children close app].
  case_decide as Ht; rewrite clear_root_attach; unfold close; cbn [f_tag f_attrib f_children].
  - exists (el_clear (Element t a cs')), (ys ++ [Element t a cs']). split; [by rewrite app_nil_r|].
    intros Hn. pose proof (no_nested_children t a cs Hn) as Hncs.
    destruct (Hspec Hncs) as [-> Hcs']. cbn [closing_matches]. rewrite decide_True by done.
    unfold no_nested in Hn. cbn [closing_matches] in Hn. rewrite decide_True in Hn by done.
    apply Forall_app in Hn as [_ Hself]. rewrite Forall_singleton in Hself. cbn [el_children] in Hself.
    rewrite (Hcs' Hself). split; [done|]. intros [_ ?]%app_eq_nil. discriminate.
  - exists (Element t a cs'), (ys ++ []). split; [by rewrite !app_nil_r|].
    intros Hn. destruct (Hspec (no_nested_children t a cs Hn)) as [-> Hcs'].
    cbn [closing_matches]. rewrite decide_False by done. rewrite !app_nil_r.
    split; [done|]. intros Hnil. by rewrite (Hcs' Hnil).
Qed.

(** After the root's start tag and the tokens of complete top-level
    elements, only the emptied root is left. *)
Lemma live_top t a cs :
  exists ys,
    live_run tags [] (TStart t a :: flat_map tokens_of cs) = Some ([mk_frame t [] []], ys) /\
    (Forall (no_nested tags) cs -> ys = flat_map (closing_matches tags) cs).
Proof.
  destruct (children_spec cs ltac:(apply Forall_true; exact elem_spec_all) (mk_frame t a []) [])
    as (cs' & ys & Hrun & Hspec).
  exists ys. cbn [live_run live_token]. cbn [clear_root] in Hrun |- *.
  rewrite Hrun. split; [done|]. intros Hn. by destruct (Hspec Hn).
Qed.

Lemma live_doc t a cs :
  exists ys,
    live_run tags [] (tokens_of (Element t a cs)) =
      Some ([], ys ++ (if decide (t ∈ tags) then [Element t [] []] else [])) /\
    (Forall (no_nested tags) cs -> ys = flat_map (closing_matches tags) cs).
Proof.
  destruct (live_top t a cs) as (ys & Hrun & Hspec). exists ys. split; [|done].
  cbn [tokens_of]. rewrite (live_run_app _ (TStart t a :: flat_map tokens_of cs) [TEnd]), Hrun.
  cbn [live_run live_token close f_tag f_attrib f_children].
  case_decide; cbn; by rewrite ?app_nil_r.
Qed.
(** A document whose children hold nothing of interest. *)
Lemma live_doc_leaves t a cs :
  Forall (fun c => closing_matches tags c = []) cs ->
  live_run tags [] (tokens_of (Element t a cs)) =
    Some ([], if decide (t ∈ tags) then [Element t [] []] else []).
Proof.
  intros Hcs. destruct (live_doc t a cs) as (ys & -> & Hys).
  rewrite Hys by (eapply Forall_impl; [exact Hcs|]; intros x; apply no_nested_leaf).
  clear Hys. replace (flat_map (closing_matches tags) cs) with (@nil element); [done|].
  induction Hcs as [|c cs Hc _ IH]; [done|]. cbn [flat_map]. by rewrite Hc, <- IH.
Qed.
End LiveLemmas.

(** ** Theorems *)

Section LiveTheorems.
Variable tags : list string.

(** The live builder on an export-shaped document. *)
Lemma live_run_export doc :
  el_tag doc ∉ tags -> no_nested tags doc ->
  live_run tags [] (tokens_of doc) = Some ([], closing_matches tags doc).
Proof.
  destruct doc as [t a cs]. intros Ht Hn.
  destruct (live_doc tags t a cs) as (ys & -> & Hys). rewrite decide_False by done.
  cbn [closing_matches]. rewrite decide_False by done.
  by rewrite (Hys (no_nested_children tags t a cs Hn)).
Qed.

(** C15: On a document whose root has no tag of interest and whose
    elements of interest hold none, the generator with root.clear() after
    every event and the consumer's el.clear() after every yield yields
    exactly the elements the tree specification yields, whole, in the same
    order. *)
Theorem live_refines doc :
  el_tag doc ∉ tags -> no_nested tags doc ->
  live_run tags [] (tokens_of doc) = Some ([], closing_matches tags doc).
Proof. exact (live_run_export doc). Qed.

(** C16: The tree the parser builds does not grow with the document: after
    the root's start tag and any number of complete top-level elements,
    the builder holds only the root, with no attributes and no children. *)
Theorem live_memory_bounded t a cs :
  exists ys, live_run tags [] (TStart t a :: flat_map tokens_of cs) = Some ([mk_frame t [] []], ys).
Proof. destruct (live_top tags t a cs) as (ys & Hrun & _). by exists ys. Qed.

(** A document whose root element itself has a tag of interest (and
    holds none) is yielded with no attributes and no children, because
    root.clear() ran after every event. *)
Theorem live_root_emptied doc :
  el_tag doc ∈ tags -> Forall (fun c => closing_matches tags c = []) (el_children doc) ->
  live_run tags [] (tokens_of doc) = Some ([], [el_clear doc]).
Proof.
  destruct doc as [t a cs]. cbn [el_tag el_children]. intros Ht Hcs.
  rewrite (live_doc_leaves tags t a cs Hcs). by rewrite decide_True.
Qed.
End LiveTheorems.
