(* ===== verification/Records.v ===== *)
(** * The record router: [write_records] (utils.py, lines 102-119)

    A batch of flat Record rows is grouped by destination table: each
    row's [type] is popped ([record.pop("type")], a [KeyError] when it
    is missing), the two HealthKit identifier strings are removed from
    it ([str.replace] of each with [""]) and [r] is put in front.  The
    groups live in a dict filled by [setdefault(table, []).append], so
    the tables come in the order their first row came.  Then one
    [insert_all] per table is issued, with [alter=True], the preferred
    column order and [batch_size=50].  Grouping finishes before the
    first insert: a batch with a bad row writes nothing. *)

From stdpp Require Import base list strings.
From S2P Require Import Prelude PyDict PyStr Xml Storage.

Local Open Scope string_scope.
Local Open Scope list_scope.

Definition QUANTITY_ID : string := "HKQuantityTypeIdentifier".
Definition CATEGORY_ID : string := "HKCategoryTypeIdentifier".

(** ["r{}".format(type.replace(QUANTITY_ID, "").replace(CATEGORY_ID, ""))] *)
Definition table_name (ty : string) : string :=
  "r" +:+ str_replace (str_replace ty QUANTITY_ID "") CATEGORY_ID "".

(** The loop body: pop the type, route the rest of the row. *)
Definition route_record (groups : dict (list row)) (record : row) : result (dict (list row)) :=
  rbind (dict_pop "type" record) (fun popped =>
    match popped.1 with
    | VStr ty => Ok (setdefault_append (table_name ty) popped.2 groups)
    | _ => Err (AttributeError "object has no attribute 'replace'")
    end).

Definition group_records (records : list row) : result (dict (list row)) :=
  rfold route_record [] records.

Definition records_opts : insert_opts :=
  mk_opts true ["startDate"; "endDate"; "value"; "unit"] 50 [] None.

Definition write_records (records : list row) : prog unit :=
  groups <- lift (group_records records);;
  mfold (fun _ tr => db_insert_all tr.1 tr.2 records_opts) tt groups.

(** ** Specification: where one row goes *)

(** The destination of a row and the row stored there, or the error
    popping its type raises. *)
Definition route (record : row) : result (string * row) :=
  rbind (dict_pop "type" record) (fun popped =>
    match popped.1 with
    | VStr ty => Ok (table_name ty, popped.2)
    | _ => Err (AttributeError "object has no attribute 'replace'")
    end).

(** The rows a batch sends to [table], in input order. *)
Definition rows_for (table : string) (routed : list (string * row)) : list row :=
  map snd (filter (fun p => p.1 = table) routed).

(** The event trace of one [insert_all] per group. *)
Definition group_inserts (groups : dict (list row)) : list effect :=
  map (fun kv => EInsertAll kv.1 kv.2 records_opts) groups.

(** The rows of all [insert_all] calls of a trace. *)
Definition inserted_rows (tr : list effect) : list row :=
  concat (map (fun e => match e with EInsertAll _ rs _ => rs | _ => [] end) tr).

(** ** Lemmas *)

Lemma route_record_route acc r :
  route_record acc r = rbind (route r) (fun p => Ok (setdefault_append p.1 p.2 acc)).
Proof.
  unfold route_record, route. destruct (dict_pop "type" r) as [[v r']|e]; simpl; [|done].
  by destruct v.
Qed.

(** Grouping is routing each row, then grouping the routed rows. *)
Lemma rfold_route_record acc records :
  rfold route_record acc records =
  rbind (rmap route records) (fun routed => Ok (group_into acc routed)).
Proof.
  revert acc. induction records as [|r records IH]; intros acc; simpl; [done|].
  rewrite route_record_route. destruct (route r) as [[t r']|e]; simpl; [|done].
  rewrite IH. by destruct (rmap route records).
Qed.

Lemma mfold_inserts (groups : dict (list row)) :
  mfold (fun _ tr => db_insert_all tr.1 tr.2 records_opts) tt groups = (group_inserts groups, Ok tt).
Proof.
  induction groups as [|[t rs] groups IH]; [done|]. cbn [mfold].
  rewrite db_insert_all_eq, bind_Ok_eq. cbv beta. by rewrite IH.
Qed.

Lemma write_records_eq records :
  write_records records =
  match rmap route records with
  | Ok routed => (group_inserts (group_into [] routed), Ok tt)
  | Err e => ([], Err e)
  end.
Proof.
  unfold write_records, group_records. rewrite rfold_route_record.
  destruct (rmap route records) as [routed|e]; simpl; [|done].
  by rewrite mfold_inserts.
Qed.

Lemma rows_written_inserts_absent t (groups : dict (list row)) :
  t ∉ dict_keys groups -> rows_written t (group_inserts groups) = [].
Proof.
  induction groups as [|[k rs] groups IH]; simpl; [done|].
  intros [Hne Hn]%not_elem_of_cons. destruct (String.eqb_spec k t); [congruence|]. auto.
Qed.

Lemma rows_written_inserts t (groups : dict (list row)) :
  dict_wf groups -> rows_written t (group_inserts groups) = default [] (dict_get t groups).
Proof.
  unfold dict_wf. induction groups as [|[k rs] groups IH]; simpl; [done|].
  intros [Hk Hwf]%NoDup_cons. destruct (String.eqb_spec k t) as [<-|Hne].
  - rewrite String.eqb_refl, rows_written_inserts_absent by done. by rewrite app_nil_r.
  - destruct (String.eqb_spec t k); [congruence|]. auto.
Qed.

Lemma route_Ok r t r' :
  route r = Ok (t, r') -> exists ty, dict_pop "type" r = Ok (VStr ty, r') /\ t = table_name ty.
Proof.
  unfold route. destruct (dict_pop "type" r) as [[v r0]|e]; simpl; [|discriminate].
  destruct v; try discriminate. intros [= <- <-]. eauto.
Qed.

Lemma route_Err_type r :
  dict_get "type" r = None -> route r = Err (KeyError "type").
Proof.
  intros Hn. unfold route. destruct (dict_pop "type" r) as [[v r0]|e] eqn:Hp; simpl.
  - apply dict_pop_get in Hp. congruence.
  - by apply dict_pop_Err in Hp as [-> _].
Qed.

Lemma route_no_type r t r' : dict_wf r -> route r = Ok (t, r') -> "type" ∉ dict_keys r'.
Proof. intros Hwf (ty & Hp & _)%route_Ok. by eapply dict_pop_removes. Qed.

Lemma inserted_rows_inserts groups : inserted_rows (group_inserts groups) = concat (map snd groups).
Proof. unfold inserted_rows, group_inserts. by rewrite map_map. Qed.

Lemma rmap_route_Err_type records :
  Forall (fun r => forall v, dict_get "type" r = Some v -> exists s, v = VStr s) records ->
  forall e, rmap route records = Err e -> e = KeyError "type".
Proof.
  induction records as [|r records IH]; intros Hstr e; simpl; [discriminate|].
  inversion Hstr as [|? ? Hr Hrest]; subst.
  destruct (route r) as [[t r']|e'] eqn:Hroute; simpl.
  - destruct (rmap route records) eqn:Hm; simpl; [discriminate|]. intros [= <-]. by apply IH.
  - intros [= <-]. unfold route in Hroute.
    destruct (dict_pop "type" r) as [[v r0]|e0] eqn:Hp; simpl in Hroute.
    + destruct (Hr v (dict_pop_get _ _ _ _ Hp)) as [s ->]. discriminate.
    + injection Hroute as <-. by apply dict_pop_Err in Hp as [-> _].
Qed.

Lemma rmap_route_fails records r :
  In r records -> dict_get "type" r = None -> exists e, rmap route records = Err e.
Proof.
  induction records as [|r0 records IH]; intros Hin Hn; [done|]. simpl.
  destruct Hin as [<-|Hin].
  - rewrite route_Err_type by done. by eexists.
  - destruct (route r0) as [p|e]; simpl; [|by eexists].
    destruct (IH Hin Hn) as [e ->]. by eexists.
Qed.

(** A normally ending [write_records] writes every row of its batch. *)
Lemma write_records_Ok_count records u :
  outcome (write_records records) = Ok u ->
  length (inserted_rows (trace_of (write_records records))) = length records.
Proof.
  rewrite write_records_eq. destruct (rmap route records) as [routed|e] eqn:Hr; [|discriminate].
  intros _. cbn [trace_of fst]. rewrite inserted_rows_inserts, dict_size_concat, group_into_size.
  apply (rmap_Ok_length route records routed Hr).
Qed.

(** The rows a routed batch writes into a table. *)
Lemma write_records_rows_for records routed t :
  rmap route records = Ok routed -> rows_written t (trace_of (write_records records)) = rows_for t routed.
Proof.
  intros Hr. rewrite write_records_eq, Hr. cbn [trace_of fst].
  rewrite rows_written_inserts by (apply group_into_wf; constructor).
  by rewrite group_into_get.
Qed.

(** A batch that [write_records] writes normally routes. *)
Lemma write_records_Ok_route records u :
  outcome (write_records records) = Ok u -> exists routed, rmap route records = Ok routed.
Proof. rewrite write_records_eq. destruct (rmap route records); [by eauto|discriminate]. Qed.

Lemma rows_for_app t l1 l2 : rows_for t (l1 ++ l2) = rows_for t l1 ++ rows_for t l2.
Proof. unfold rows_for. by rewrite filter_app, map_app. Qed.

Lemma QUANTITY_ID_nonempty : QUANTITY_ID <> "".
Proof. discriminate. Qed.

Lemma CATEGORY_ID_nonempty : CATEGORY_ID <> "".
Proof. discriminate. Qed.

#[local] Hint Resolve QUANTITY_ID_nonempty CATEGORY_ID_nonempty : h2s.

(** ** Theorems *)

(** When every row of a batch has a string type, write_records ends
    normally and the rows it writes into each table are exactly the
    batch's rows whose type names that table, with type removed, in batch
    order. *)
Theorem write_records_routes records routed :
  rmap route records = Ok routed ->
  outcome (write_records records) = Ok tt /\
  forall t, rows_written t (trace_of (write_records records)) = rows_for t routed.
Proof.
  intros Hr. split; [by rewrite write_records_eq, Hr|]. intros t. by apply write_records_rows_for.
Qed.

(** C32: For a batch of well-formed rows, no row that write_records writes
    has a type column. *)
Theorem write_records_no_type_column records :
  Forall dict_wf records ->
  Forall (fun r => "type" ∉ dict_keys r) (inserted_rows (trace_of (write_records records))).
Proof.
  intros Hwf. rewrite write_records_eq.
  destruct (rmap route records) as [routed|e] eqn:Hr; cbn [trace_of fst]; [|constructor].
  rewrite inserted_rows_inserts. apply Forall_concat, Forall_map.
  apply (group_into_Forall (fun r => "type" ∉ dict_keys r)); [constructor|].
  apply rmap_Ok_Forall2 in Hr. clear -Hr Hwf.
  induction Hr as [|r [t r'] records routed Hroute Hrest IH]; constructor.
  - inversion Hwf; subst. by eapply route_no_type.
  - inversion Hwf; subst. auto.
Qed.

(** A batch whose rows all route is written in full: write_records
    writes as many rows as the batch has. *)
Theorem write_records_count records routed :
  rmap route records = Ok routed ->
  length (inserted_rows (trace_of (write_records records))) = length records.
Proof.
  intros Hr. apply (write_records_Ok_count records tt). by rewrite write_records_eq, Hr.
Qed.

(** C33: A batch with a row that has no type writes nothing and raises
    KeyError('type'), when every type present is a string. *)
Theorem write_records_missing_type records r :
  Forall (fun r => forall v, dict_get "type" r = Some v -> exists s, v = VStr s) records ->
  In r records -> dict_get "type" r = None ->
  write_records records = ([], Err (KeyError "type")).
Proof.
  intros Hstr Hin Hn. rewrite write_records_eq.
  destruct (rmap_route_fails records r Hin Hn) as [e He]. rewrite He.
  by rewrite (rmap_route_Err_type records Hstr e He).
Qed.

(** A prefix that cannot start an occurrence is copied through, and an
    occurrence right after it is replaced. *)
Lemma str_replace_clean_front a b old new :
  old <> "" -> suffixes_clean old a = true ->
  str_replace (a +:+ old +:+ b) old new = a +:+ new +:+ str_replace b old new.
Proof.
  intros Hne Ha. rewrite str_replace_app_clean by (done || by apply suffixes_clean_ok).
  by rewrite str_replace_front.
Qed.

Lemma str_replace_clean_absent a b old new :
  old <> "" -> suffixes_clean old a = true -> occurs old b = false -> str_replace (a +:+ b) old new = a +:+ b.
Proof.
  intros Hne Ha Hb. rewrite str_replace_app_clean by (done || by apply suffixes_clean_ok).
  by rewrite (str_replace_absent b old) by (done || by apply occurs_false).
Qed.

(** C35: table_name removes the two HealthKit identifiers wherever they
    occur in the type, not only as a prefix: a type made of a head that
    cannot start an identifier, either identifier, and a rest with neither
    goes to table r<head><rest>, the identifier cut out of its middle;
    with an empty head, a quantity type and a category type with the same
    name share a table. *)
Theorem table_name_inner_identifier a b :
  suffixes_clean QUANTITY_ID a = true -> suffixes_clean CATEGORY_ID a = true ->
  occurs QUANTITY_ID b = false -> occurs CATEGORY_ID b = false ->
  table_name (a +:+ QUANTITY_ID +:+ b) = "r" +:+ a +:+ b /\
  table_name (a +:+ CATEGORY_ID +:+ b) = "r" +:+ a +:+ b.
Proof.
  intros Hqa Hca Hqb Hcb. unfold table_name. split.
  - rewrite str_replace_clean_front by auto with h2s. cbn [String.append].
    rewrite (str_replace_absent b QUANTITY_ID) by (auto with h2s || by apply occurs_false).
    by rewrite str_replace_clean_absent by (done || auto with h2s).
  - rewrite (str_replace_app_clean a _ QUANTITY_ID) by (auto with h2s || by apply suffixes_clean_ok).
    rewrite (str_replace_app_clean CATEGORY_ID b QUANTITY_ID)
      by (auto with h2s || apply suffixes_clean_ok; reflexivity).
    rewrite (str_replace_absent b QUANTITY_ID) by (auto with h2s || by apply occurs_false).
    rewrite str_replace_clean_front by auto with h2s. cbn [String.append].
    by rewrite str_replace_absent by (auto with h2s || by apply occurs_false).
Qed.

(** C30: When every row of the batch routes, write_records is the
    reference grouping: one insert_all per destination table, tables in
    the order of their first row, each with the batch's rows for it in
    order. *)
Theorem write_records_reference records routed :
  rmap route records = Ok routed ->
  write_records records =
    (map (fun t => EInsertAll t (rows_for t routed) records_opts) (new_keys [] (map fst routed)), Ok tt).
Proof.
  intros Hr. rewrite write_records_eq, Hr, group_into_ref.
  unfold group_inserts, group_ref, rows_for. by rewrite map_map.
Qed.
