(* ===== verification/Workout.v ===== *)
(** * The workout assembler: [workout_to_db], [open_file_or_zip], [parse_gpx]
    (utils.py, lines 61-99)

    A Workout element becomes one row: its attributes, one
    [metadata_<key>] column per MetadataEntry child and a
    [workout_events] column holding the attribute dicts of its
    WorkoutEvent children.  The row is inserted at once with
    [hash_id="id"] and the key the storage returns is put in every point
    row.  The points are the attributes of the [WorkoutRoute/Location]
    grandchildren; when there are none, every [WorkoutRoute/FileReference]
    names a GPX file under [apple_health_export/], which is opened from
    the archive or the file system, decoded as UTF-8 ([Utf8]), stripped
    of its first line and parsed.  The points, if any, are written with one [insert_all]
    declaring the foreign key to [workouts]. *)

From stdpp Require Import base list strings.
From S2P Require Import Prelude PyDict PyStr Utf8 Xml Storage.

Local Open Scope string_scope.
Local Open Scope list_scope.

(** [record["metadata_" + el.attrib["key"]] = el.attrib["value"]]: Python
    evaluates the right-hand side first, so a missing [value] is
    reported before a missing [key]. *)
Definition add_metadata (record : row) (entry : element) : result row :=
  rbind (dict_index "value" (el_attrib entry)) (fun v =>
  rbind (dict_index "key" (el_attrib entry)) (fun k =>
    match k with
    | VStr ks => Ok (dict_set ("metadata_" +:+ ks) v record)
    | _ => Err (TypeError "can only concatenate str to str")
    end)).

(** [for el in workout.findall("MetadataEntry"): ...] *)
Definition fold_metadata (record : row) (el : element) : result row :=
  rfold add_metadata record (findall_tag "MetadataEntry" el).

Definition workout_opts : insert_opts := mk_opts true [] 100 [] (Some "id").
Definition points_opts : insert_opts := mk_opts false [] 50 [("workout_id", "workouts")] None.

(** [os.path.join("apple_health_export", *(item.get("path").split("/")))] *)
Definition gpx_path (item : element) : result string :=
  match dict_get "path" (el_attrib item) with
  | Some (VStr p) => Ok (posix_join "apple_health_export" (str_split SLASH p))
  | Some _ => Err (AttributeError "object has no attribute 'split'")
  | None => Err (AttributeError "'NoneType' object has no attribute 'split'")
  end.

Section Workout.
Context `{Collaborators}.

(** [open_file_or_zip]: [zf.open(file)] raises [KeyError] for a
    missing member, [open(file, 'rb')] raises [FileNotFoundError]. *)
Definition open_file_or_zip (zf : option archive) (file : string) : prog (list Byte.byte) :=
  match zf with
  | Some z =>
      emit (EOpen true file);;;
      match dict_get file z with
      | Some text => ret text
      | None => throw (KeyError file)
      end
  | None =>
      emit (EOpen false file);;;
      match fs_read file with
      | Some text => ret text
      | None => throw (FileNotFoundError file)
      end
  end.

(** [parse_gpx]: decode the bytes as UTF-8, translate newlines, skip the
    header line, parse the rest. *)
Definition parse_gpx (raw : list Byte.byte) : result (list row) :=
  rbind (text_io_read raw) (fun text => gpx_points (text_after_header text)).

(** One iteration of [for path in gpx_files]. *)
Definition read_gpx_points (zf : option archive) (pk : value) (points : list row) (path : string)
    : prog (list row) :=
  text <- open_file_or_zip zf path;;
  pts <- lift (parse_gpx text);;
  ret (points ++ map (dict_set "workout_id" pk) pts).

(** The points of the embedded [Location] elements. *)
Definition embedded_points (pk : value) (workout : element) : list row :=
  map (fun el => dict_set "workout_id" pk (el_attrib el))
      (findall_path "WorkoutRoute" "Location" workout).

Definition workout_row (workout : element) : result row :=
  rbind (fold_metadata (el_attrib workout) workout) (fun record =>
  Ok (dict_set "workout_events"
        (VDicts (map el_attrib (findall_tag "WorkoutEvent" workout))) record)).

Definition workout_to_db (workout : element) (zf : option archive) : prog unit :=
  record <- lift (workout_row workout);;
  pk <- db_insert "workouts" record workout_opts;;
  points <-
    (match embedded_points pk workout with
     | [] =>
         gpx_files <- lift (rmap gpx_path (findall_path "WorkoutRoute" "FileReference" workout));;
         mfold (read_gpx_points zf pk) [] gpx_files
     | points => ret points
     end);;
  match points with
  | [] => ret tt
  | _ => db_insert_all "workout_points" points points_opts
  end.
End Workout.

(** ** Lemmas *)

(** Every path computed for a FileReference starts with
    [apple_health_export/]. *)
Lemma gpx_path_under item p :
  gpx_path item = Ok p -> exists r, p = "apple_health_export/" +:+ r.
Proof.
  unfold gpx_path. destruct (dict_get "path" (el_attrib item)) as [[s| | | |]|]; try discriminate.
  intros [= <-]. destruct (posix_join_split_under "apple_health_export" s) as [r Hr]; try done.
  rewrite Hr. by exists r.
Qed.

Lemma rmap_gpx_path_under items paths :
  rmap gpx_path items = Ok paths -> Forall (fun p => exists r, p = "apple_health_export/" +:+ r) paths.
Proof.
  intros H%rmap_Ok_Forall2. induction H; constructor; [by eapply gpx_path_under|done].
Qed.

(** A side-car file that parses was valid UTF-8, and the text handed to
    the GPX parser is its bytes after the header line. *)
Lemma parse_gpx_Ok `{Collaborators} raw pts :
  parse_gpx raw = Ok pts -> gpx_points (text_after_header (String.string_of_list_byte raw)) = Ok pts.
Proof.
  unfold parse_gpx. by destruct (text_io_read_cases raw) as [(cps & _ & ->)|(_ & ->)].
Qed.

Section WorkoutLemmas.
Context `{Collaborators}.

(** Where a side-car file is read from. *)
Definition read_source (zf : option archive) (p : string) : option (list Byte.byte) :=
  match zf with
  | Some z => dict_get p z
  | None => fs_read p
  end.

Lemma open_file_or_zip_ok zf p text :
  read_source zf p = Some text ->
  open_file_or_zip zf p = ([EOpen (bool_decide (is_Some zf)) p], Ok text).
Proof. destruct zf; simpl; intros ->; done. Qed.

Lemma open_file_or_zip_missing zf p :
  read_source zf p = None ->
  exists e, open_file_or_zip zf p = ([EOpen (bool_decide (is_Some zf)) p], Err e).
Proof. destruct zf; simpl; intros ->; by eexists. Qed.

Lemma read_gpx_points_ok zf pk acc p text pts :
  read_source zf p = Some text -> parse_gpx text = Ok pts ->
  read_gpx_points zf pk acc p =
    ([EOpen (bool_decide (is_Some zf)) p], Ok (acc ++ map (dict_set "workout_id" pk) pts)).
Proof.
  intros Hread Hparse. unfold read_gpx_points. rewrite (open_file_or_zip_ok zf p text Hread).
  rewrite bind_Ok_eq. cbv beta. rewrite Hparse. done.
Qed.

Lemma read_gpx_points_missing zf pk acc p :
  read_source zf p = None ->
  exists e, read_gpx_points zf pk acc p = ([EOpen (bool_decide (is_Some zf)) p], Err e).
Proof.
  intros Hm. destruct (open_file_or_zip_missing zf p Hm) as [e He].
  exists e. unfold read_gpx_points. by rewrite He.
Qed.

Lemma read_gpx_points_undecodable zf pk acc p raw e :
  read_source zf p = Some raw -> utf8_decode raw = Err e ->
  read_gpx_points zf pk acc p = ([EOpen (bool_decide (is_Some zf)) p], Err e).
Proof.
  intros Hread Hdec. unfold read_gpx_points. rewrite (open_file_or_zip_ok zf p raw Hread), bind_Ok_eq.
  unfold parse_gpx, text_io_read. rewrite Hdec. cbn. by rewrite ?app_nil_r.
Qed.

(** The side-car loop when every file opens and parses. *)
Lemma mfold_read_gpx_ok zf pk acc paths ptss :
  Forall2 (fun p pts => exists text, read_source zf p = Some text /\ parse_gpx text = Ok pts)
    paths ptss ->
  mfold (read_gpx_points zf pk) acc paths =
    (map (EOpen (bool_decide (is_Some zf))) paths,
     Ok (acc ++ map (dict_set "workout_id" pk) (concat ptss))).
Proof.
  intros Hall. revert acc.
  induction Hall as [|p pts paths ptss (text & Hread & Hparse) Hrest IH]; intros acc;
    cbn [mfold concat map].
  - by rewrite app_nil_r.
  - rewrite (read_gpx_points_ok zf pk acc p text pts Hread Hparse), bind_Ok_eq, IH.
    cbn [trace_of outcome fst snd]. by rewrite map_app, app_assoc.
Qed.
End WorkoutLemmas.

(** ** Setting an attribute *)

Lemma findall_tag_set t k v e : findall_tag t (el_set k v e) = findall_tag t e.
Proof. by destruct e. Qed.

Lemma findall_path_set a b k v e : findall_path a b (el_set k v e) = findall_path a b e.
Proof. unfold findall_path. by rewrite findall_tag_set. Qed.

Lemma fold_metadata_set r k v el : fold_metadata r (el_set k v el) = fold_metadata r el.
Proof. unfold fold_metadata. by rewrite findall_tag_set. Qed.

(** Whether the metadata loop ends normally does not depend on the row
    it starts from. *)
Lemma add_metadata_Ok_any r1 r2 entry r1' :
  add_metadata r1 entry = Ok r1' -> exists r2', add_metadata r2 entry = Ok r2'.
Proof.
  unfold add_metadata. destruct (dict_index "value" _) as [v|e]; simpl; [|discriminate].
  destruct (dict_index "key" _) as [[ks| | | |]|e]; simpl; try discriminate. by eexists.
Qed.

Lemma fold_metadata_Ok_any r1 r2 el r1' :
  fold_metadata r1 el = Ok r1' -> exists r2', fold_metadata r2 el = Ok r2'.
Proof.
  unfold fold_metadata. generalize (findall_tag "MetadataEntry" el) as entries. intros entries.
  revert r1 r2 r1'. induction entries as [|x xs IH]; intros r1 r2 r1'; simpl; [by eexists|].
  destruct (add_metadata r1 x) as [a1|e] eqn:Ha; simpl; [|discriminate].
  destruct (add_metadata_Ok_any r1 r2 x a1 Ha) as [a2 ->]. simpl. apply IH.
Qed.

(** Setting [seq] on a workout does not change whether its row can be built. *)
Lemma workout_row_set k v el r :
  workout_row el = Ok r -> exists r', workout_row (el_set k v el) = Ok r'.
Proof.
  unfold workout_row. rewrite fold_metadata_set.
  destruct (fold_metadata (el_attrib el) el) as [r0|e] eqn:Hf; simpl; [|discriminate]. intros _.
  destruct (fold_metadata_Ok_any _ (el_attrib (el_set k v el)) el r0 Hf) as [r2 ->]. by eexists.
Qed.

(** ** Metadata *)

(** The [(key, value)] pair of a well-formed MetadataEntry. *)
Definition metadata_pair (entry : element) : option (string * value) :=
  match dict_get "key" (el_attrib entry), dict_get "value" (el_attrib entry) with
  | Some (VStr k), Some v => Some (k, v)
  | _, _ => None
  end.

Lemma add_metadata_pair record entry k v :
  metadata_pair entry = Some (k, v) -> add_metadata record entry = Ok (dict_set ("metadata_" +:+ k) v record).
Proof.
  unfold metadata_pair, add_metadata, dict_index.
  destruct (dict_get "key" _) as [[ks| | | |]|], (dict_get "value" _); try discriminate.
  by intros [= <- <-].
Qed.

(** C27: When every MetadataEntry child has a string key and a value, the
    metadata loop sets column metadata_<key> to the value, entry after
    entry in document order, a later entry overwriting an earlier one with
    the same key. *)
Theorem fold_metadata_ok record el pairs :
  Forall2 (fun e p => metadata_pair e = Some p) (findall_tag "MetadataEntry" el) pairs ->
  fold_metadata record el = Ok (fold_left (fun r p => dict_set ("metadata_" +:+ p.1) p.2 r) pairs record).
Proof.
  unfold fold_metadata. intros Hall. revert record.
  induction Hall as [|e [k v] es ps He _ IH]; intros record; [done|]. cbn [rfold fold_left].
  rewrite (add_metadata_pair record e k v He). cbn [rbind]. apply IH.
Qed.

(** C28: A MetadataEntry without a value attribute raises
    KeyError('value') whether or not it has a key, because Python
    evaluates the right-hand side of the assignment first. *)
Theorem add_metadata_value_first record entry :
  dict_get "value" (el_attrib entry) = None -> add_metadata record entry = Err (KeyError "value").
Proof. intros Hv. unfold add_metadata, dict_index. by rewrite Hv. Qed.

(** C29: The path open_file_or_zip receives for a FileReference is its
    path attribute below apple_health_export/, its leading / dropped and
    nothing normalised: a path with no doubled separator comes back as
    itself, so .. components are kept and a FileReference can name a file
    outside the export directory. *)
Theorem gpx_path_roundtrip item p :
  dict_get "path" (el_attrib item) = Some (VStr p) -> no_double_slash p = true ->
  gpx_path item = Ok ("apple_health_export/" +:+ strip_slash p).
Proof.
  intros Hp Hs. unfold gpx_path. rewrite Hp.
  rewrite posix_join_split_roundtrip by done. done.
Qed.

Section WorkoutTheorems.
Context `{Collaborators}.

Definition point_of (pk : value) (p : row) : Prop := dict_get "workout_id" p = Some pk.

(** What may follow the insertion of a workout row with key [pk]. *)
Definition after_workout (pk : value) (e : effect) : Prop :=
  match e with
  | EInsertAll t pts o => t = "workout_points" /\ o = points_opts /\ pts <> [] /\ Forall (point_of pk) pts
  | EOpen _ p => exists s, p = "apple_health_export/" +:+ s
  | _ => False
  end.

Lemma map_set_point_of pk (rows : list row) : Forall (point_of pk) (map (dict_set "workout_id" pk) rows).
Proof. apply Forall_map, Forall_forall. intros r _. apply dict_get_set_eq. Qed.

Lemma embedded_points_point_of pk w : Forall (point_of pk) (embedded_points pk w).
Proof.
  unfold embedded_points. apply Forall_map, Forall_forall. intros el _. apply dict_get_set_eq.
Qed.

Lemma open_file_or_zip_mspec pk zf p :
  (exists s, p = "apple_health_export/" +:+ s) ->
  mspec (fun _ => True) (after_workout pk) (open_file_or_zip zf p).
Proof.
  intros Hp. destruct zf as [z|]; unfold open_file_or_zip;
    (apply mspec_bind with (P1 := fun _ => True); [by apply mspec_emit|]); intros _ _;
    repeat case_match; auto with h2s.
Qed.

Lemma read_gpx_points_mspec zf pk points p :
  (exists s, p = "apple_health_export/" +:+ s) -> Forall (point_of pk) points ->
  mspec (Forall (point_of pk)) (after_workout pk) (read_gpx_points zf pk points p).
Proof.
  intros Hp Hpts. unfold read_gpx_points.
  apply mspec_bind with (P1 := fun _ => True); [by apply open_file_or_zip_mspec|]. intros text _.
  apply mspec_bind with (P1 := fun _ => True); [by apply mspec_lift|]. intros pts _.
  apply mspec_ret. apply Forall_app. split; [done|apply map_set_point_of].
Qed.

Lemma workout_points_mspec w zf pk :
  mspec (Forall (point_of pk)) (after_workout pk)
    (match embedded_points pk w with
     | [] =>
         gpx_files <- lift (rmap gpx_path (findall_path "WorkoutRoute" "FileReference" w));;
         mfold (read_gpx_points zf pk) [] gpx_files
     | points => ret points
     end).
Proof.
  pose proof (embedded_points_point_of pk w) as He.
  destruct (embedded_points pk w) as [|p ps]; [|by apply mspec_ret].
  apply mspec_bind with (P1 := Forall (fun p => exists s, p = "apple_health_export/" +:+ s)).
  { apply mspec_lift. intros paths Hp. exact (rmap_gpx_path_under _ _ Hp). }
  intros paths Hpaths. apply mspec_mfold; [constructor|].
  intros points p Hpoints Hin. apply read_gpx_points_mspec; [|done].
  rewrite Forall_forall in Hpaths. apply Hpaths. by apply list_elem_of_In.
Qed.

(** The shape of a run of [workout_to_db]: nothing (the row could not be
    built), or the insertion of the workout row followed by file opens
    under [apple_health_export/] and point batches with its key. *)
Lemma workout_to_db_shape w zf :
  (trace_of (workout_to_db w zf) = [] /\ exists e, outcome (workout_to_db w zf) = Err e) \/
  exists r rest,
    workout_row w = Ok r /\
    trace_of (workout_to_db w zf) = EInsert "workouts" r workout_opts :: rest /\
    Forall (after_workout (db_insert_pk "workouts" r)) rest.
Proof.
  unfold workout_to_db. destruct (workout_row w) as [r|e]; [right|left; by eauto].
  exists r. unfold lift. rewrite bind_Ok_eq. cbv beta. rewrite db_insert_eq, bind_Ok_eq.
  cbv beta. eexists; split; [done|split; [reflexivity|]].
  refine (proj1 (_ : mspec (fun _ => True) (after_workout _) _)).
  apply mspec_bind with (P1 := Forall (point_of (db_insert_pk "workouts" r)));
    [apply workout_points_mspec|].
  intros points Hpoints. destruct points as [|p ps]; [by apply mspec_ret|].
  apply mspec_emit. split_and!; done.
Qed.

Lemma after_workout_files pk tr :
  Forall (after_workout pk) tr ->
  Forall (fun p => exists s, p = "apple_health_export/" +:+ s) (files_opened tr).
Proof.
  induction 1 as [|[t pts o|t r o|z p|n] tr Hx _ IH]; simpl in *; try done. by constructor.
Qed.

(** C21: Every batch of points workout_to_db writes goes to workout_points
    with the foreign-key options, is non-empty, and every point in it
    carries the key the storage returned for the workout row, which was
    inserted first. *)
Theorem workout_to_db_points_reference w zf pts o :
  In (EInsertAll "workout_points" pts o) (trace_of (workout_to_db w zf)) ->
  exists r rest,
    workout_row w = Ok r /\
    trace_of (workout_to_db w zf) = EInsert "workouts" r workout_opts :: rest /\
    o = points_opts /\ pts <> [] /\ Forall (point_of (db_insert_pk "workouts" r)) pts.
Proof.
  destruct (workout_to_db_shape w zf) as [[-> _]|(r & rest & Hr & Ht & Hrest)]; [done|].
  rewrite Ht. intros [Heq|Hin]; [discriminate|]. exists r, rest.
  rewrite Forall_forall in Hrest. apply list_elem_of_In in Hin.
  destruct (Hrest _ Hin) as (_ & -> & Hne & Hpts). done.
Qed.

(** Every file workout_to_db opens lies under apple_health_export/:
    side-car paths are joined under that root. *)
Theorem workout_to_db_files_under w zf :
  Forall (fun p => exists s, p = "apple_health_export/" +:+ s) (files_opened (trace_of (workout_to_db w zf))).
Proof.
  destruct (workout_to_db_shape w zf) as [[-> _]|(r & rest & _ & -> & Hrest)]; [constructor|].
  exact (after_workout_files _ _ Hrest).
Qed.

Lemma workout_to_db_row w zf r :
  workout_row w = Ok r ->
  workout_to_db w zf =
    bind (db_insert "workouts" r workout_opts) (fun pk =>
      points <-
        (match embedded_points pk w with
         | [] =>
             gpx_files <- lift (rmap gpx_path (findall_path "WorkoutRoute" "FileReference" w));;
             mfold (read_gpx_points zf pk) [] gpx_files
         | points => ret points
         end);;
      match points with
      | [] => ret tt
      | _ => db_insert_all "workout_points" points points_opts
      end).
Proof.
  intros Hr. unfold workout_to_db. rewrite Hr.
  change (lift (Ok r)) with (ret (E := effect) r). by rewrite bind_ret_l.
Qed.

(** C22: A workout with embedded Location points is inserted, then its
    points are written in one insert_all call with the workout's key, and
    no file is opened. *)
Theorem workout_to_db_embedded w zf r :
  workout_row w = Ok r -> findall_path "WorkoutRoute" "Location" w <> [] ->
  workout_to_db w zf =
    ([EInsert "workouts" r workout_opts;
      EInsertAll "workout_points" (embedded_points (db_insert_pk "workouts" r) w) points_opts],
     Ok tt).
Proof.
  intros Hr Hloc. rewrite (workout_to_db_row w zf r Hr), db_insert_eq, bind_Ok_eq. cbv beta.
  destruct (embedded_points (db_insert_pk "workouts" r) w) as [|p ps] eqn:He.
  - unfold embedded_points in He. apply map_eq_nil in He. contradiction.
  - rewrite bind_ret_l. done.
Qed.

(** C23: A workout without embedded points whose FileReference files all
    open and parse is inserted, then each file is opened once in order,
    and all their points are written in one call with the workout's key,
    or nothing when there is no point. *)
Theorem workout_to_db_sidecar w zf r paths ptss :
  workout_row w = Ok r -> findall_path "WorkoutRoute" "Location" w = [] ->
  rmap gpx_path (findall_path "WorkoutRoute" "FileReference" w) = Ok paths ->
  Forall2 (fun p pts => exists text, read_source zf p = Some text /\ parse_gpx text = Ok pts)
    paths ptss ->
  workout_to_db w zf =
    (EInsert "workouts" r workout_opts :: map (EOpen (bool_decide (is_Some zf))) paths ++
     match concat ptss with
     | [] => []
     | _ => [EInsertAll "workout_points"
               (map (dict_set "workout_id" (db_insert_pk "workouts" r)) (concat ptss)) points_opts]
     end, Ok tt).
Proof.
  intros Hr Hloc Hpaths Hall. rewrite (workout_to_db_row w zf r Hr), db_insert_eq, bind_Ok_eq. cbv beta.
  unfold embedded_points. rewrite Hloc. cbn [map]. rewrite Hpaths. unfold lift.
  rewrite bind_Ok_eq. cbv beta. rewrite (mfold_read_gpx_ok zf _ [] paths ptss Hall).
  cbn [trace_of outcome fst snd app]. rewrite bind_Ok_eq. cbv beta.
  destruct (concat ptss) as [|p ps]; cbn; by rewrite ?app_nil_r.
Qed.

(** C25: When the first side-car file cannot be opened, workout_to_db
    raises after the workout row was inserted, so the workout stays in the
    database without its points. *)
Theorem workout_to_db_missing_sidecar w zf r p ps :
  workout_row w = Ok r -> findall_path "WorkoutRoute" "Location" w = [] ->
  rmap gpx_path (findall_path "WorkoutRoute" "FileReference" w) = Ok (p :: ps) ->
  read_source zf p = None ->
  trace_of (workout_to_db w zf) =
    [EInsert "workouts" r workout_opts; EOpen (bool_decide (is_Some zf)) p] /\
  exists e, outcome (workout_to_db w zf) = Err e.
Proof.
  intros Hr Hloc Hpaths Hmiss. rewrite (workout_to_db_row w zf r Hr), db_insert_eq, bind_Ok_eq. cbv beta.
  unfold embedded_points. rewrite Hloc. cbn [map]. rewrite Hpaths. unfold lift.
  rewrite bind_Ok_eq. cbv beta. cbn [mfold].
  destruct (read_gpx_points_missing zf (db_insert_pk "workouts" r) [] p Hmiss) as [e ->].
  cbn. by eauto.
Qed.

(** C26: When the first side-car file is not UTF-8 (its bytes are not the
    encoding of any text), workout_to_db raises UnicodeDecodeError while
    parse_gpx reads it, after the workout row was inserted and the file
    opened: the workout stays in the database without its points. *)
Theorem workout_to_db_undecodable_sidecar w zf r p ps raw :
  workout_row w = Ok r -> findall_path "WorkoutRoute" "Location" w = [] ->
  rmap gpx_path (findall_path "WorkoutRoute" "FileReference" w) = Ok (p :: ps) ->
  read_source zf p = Some raw -> (forall cps, Forall scalar cps -> utf8_encode cps <> raw) ->
  trace_of (workout_to_db w zf) =
    [EInsert "workouts" r workout_opts; EOpen (bool_decide (is_Some zf)) p] /\
  outcome (workout_to_db w zf) = Err (UnicodeDecodeError "'utf-8' codec can't decode byte").
Proof.
  intros Hr Hloc Hpaths Hread Hbad.
  assert (Hdec : utf8_decode raw = Err (UnicodeDecodeError "'utf-8' codec can't decode byte")).
  { destruct (utf8_decode raw) as [cps|e] eqn:Hd.
    - destruct (decode_ok_inv raw cps Hd) as [Hs He]. by destruct (Hbad cps Hs He).
    - by rewrite (decode_err raw e Hd). }
  rewrite (workout_to_db_row w zf r Hr), db_insert_eq, bind_Ok_eq. cbv beta.
  unfold embedded_points. rewrite Hloc. cbn [map]. rewrite Hpaths. unfold lift.
  rewrite bind_Ok_eq. cbv beta. cbn [mfold].
  rewrite (read_gpx_points_undecodable zf (db_insert_pk "workouts" r) [] p raw _ Hread Hdec). done.
Qed.

(** ** When [workout_to_db] ends normally *)

(** A workout the assembler can store: its row can be built, and its
    points are embedded or come from side-car files that all resolve,
    open and parse. *)
Definition workout_ok (zf : option archive) (w : element) : Prop :=
  (exists r, workout_row w = Ok r) /\
  (findall_path "WorkoutRoute" "Location" w <> [] \/
   exists paths, rmap gpx_path (findall_path "WorkoutRoute" "FileReference" w) = Ok paths /\
     Forall (fun p => exists text pts, read_source zf p = Some text /\ parse_gpx text = Ok pts) paths).

Lemma workout_ok_set zf k v w : workout_ok zf w -> workout_ok zf (el_set k v w).
Proof.
  intros [[r Hr] Hpts]. split; [exact (workout_row_set k v w r Hr)|].
  by rewrite !findall_path_set.
Qed.

Lemma workout_to_db_Ok zf w : workout_ok zf w -> outcome (workout_to_db w zf) = Ok tt.
Proof.
  intros [[r Hr] Hpts]. rewrite (workout_to_db_row w zf r Hr), db_insert_eq, bind_Ok_eq.
  cbv beta. cbn [outcome snd]. rewrite outcome_bind.
  assert (Hp : exists pts,
    outcome (match embedded_points (db_insert_pk "workouts" r) w with
             | [] =>
                 gpx_files <- lift (rmap gpx_path (findall_path "WorkoutRoute" "FileReference" w));;
                 mfold (read_gpx_points zf (db_insert_pk "workouts" r)) [] gpx_files
             | points => ret points
             end) = Ok pts).
  { destruct (embedded_points _ w) as [|p ps] eqn:He; [|by eexists].
    destruct Hpts as [Hloc|(paths & Hpaths & Hall)].
    - unfold embedded_points in He. apply map_eq_nil in He. contradiction.
    - rewrite Hpaths. unfold lift. rewrite bind_Ok_eq. cbn [outcome snd].
      destruct (mfold_total (fun _ => True) _ (read_gpx_points zf (db_insert_pk "workouts" r)) paths Hall)
        with (a := @nil row) as (pts & Ho & _); [|done|by exists pts].
      intros a p _ (text & pts & Hread & Hparse).
      rewrite (read_gpx_points_ok zf _ a p text pts Hread Hparse). by eexists. }
  destruct Hp as [[|p ps] ->]; reflexivity.
Qed.
End WorkoutTheorems.
