(* ===== verification/Convert.v ===== *)
(** * The conversion orchestrator: [convert_xml_to_sqlite] (utils.py, lines 28-58)

    The consumer of [find_all_tags] keeps three local variables: the
    buffered ActivitySummary rows, the buffered Record rows and the next
    workout number.  An ActivitySummary is buffered and the buffer is
    written when it reaches 100 rows; a Workout gets [seq] set to the
    next number and is written at once by [workout_to_db]; a Record gets
    its metadata folded in and is buffered, the buffer going to
    [write_records] when it reaches 200 rows.  When the generator is
    exhausted the Record buffer is flushed, then the ActivitySummary
    buffer, then the progress callback receives [sys.maxsize].

    [conv_state] is the consumer's local state and [convert_step] one
    iteration of its [for] loop.  The consumer runs over the items of the
    generator's trace; an exception of the generator is raised after
    them, as the generator raises it when the consumer asks for the next
    item. *)

From stdpp Require Import base list strings.
From Stdlib Require Import ZArith.
From S2P Require Import Prelude PyDict PyStr Xml Storage Extractor LiveTree Records Workout.

Local Open Scope string_scope.
Local Open Scope list_scope.

Record conv_state : Type := mk_conv {
  activity_summaries : list row;
  records : list row;
  workout_id : Z
}.

Definition init_state : conv_state := mk_conv [] [] 1.

Definition TAGS : list string := ["Record"; "Workout"; "ActivitySummary"].

(** [sys.maxsize] on a 64-bit build. *)
Definition SYS_MAXSIZE : Z := 2 ^ 63 - 1.

(** [record = dict(el.attrib)] plus its metadata, for a Record. *)
Definition record_row (el : element) : result row := fold_metadata (el_attrib el) el.

Section Convert.
Context `{Collaborators}.

(** One iteration of the consumer's [for tag, el in find_all_tags(...)]:
    a progress item is the callback call the generator makes between
    two items. *)
Definition convert_step (zf : option archive) (st : conv_state) (item : gen_item) : prog conv_state :=
  match item with
  | GProgress n => emit (EProgress (Z.of_nat n));;; ret st
  | GYield tag el =>
      if String.eqb tag "ActivitySummary" then
        let summaries := activity_summaries st ++ [el_attrib el] in
        if Nat.leb 100 (length summaries) then
          db_insert_all "activity_summary" summaries default_opts;;;
          ret (mk_conv [] (records st) (workout_id st))
        else ret (mk_conv summaries (records st) (workout_id st))
      else if String.eqb tag "Workout" then
        workout_to_db (el_set "seq" (VInt (workout_id st)) el) zf;;;
        ret (mk_conv (activity_summaries st) (records st) (workout_id st + 1))
      else if String.eqb tag "Record" then
        record <- lift (record_row el);;
        let recs := records st ++ [record] in
        if Nat.leb 200 (length recs) then
          write_records recs;;;
          ret (mk_conv (activity_summaries st) [] (workout_id st))
        else ret (mk_conv (activity_summaries st) recs (workout_id st))
      else ret st
  end.

(** The flushes after the loop, in the order of the source. *)
Definition convert_finish (progress : bool) (st : conv_state) : prog unit :=
  (match records st with
   | [] => ret tt
   | recs => write_records recs
   end);;;
  (match activity_summaries st with
   | [] => ret tt
   | sums => db_insert_all "activity_summary" sums default_opts
   end);;;
  (if progress then emit (EProgress SYS_MAXSIZE) else ret tt).

Context `{PP : PullParser}.

Definition convert_xml_to_sqlite (fp : list Byte.byte) (progress : bool) (zf : option archive)
    : prog unit :=
  let gen := find_all_tags TAGS fp progress in
  st <- mfold (convert_step zf) init_state (trace_of gen);;
  lift (outcome gen);;;
  convert_finish progress st.
End Convert.

(** ** Storage calls and their batch bounds *)

(** The shape every storage call of a run has: summaries in non-empty
    batches of at most 100, record tables (named [r...]) in batches of at
    most 200 with the record options, points with the foreign key and
    [batch_size=50], workouts with [hash_id="id"]. *)
Definition batch_ok (e : effect) : Prop :=
  match e with
  | EInsertAll t rs o =>
      if String.eqb t "activity_summary" then rs <> [] /\ length rs <= 100 /\ o = default_opts
      else if String.eqb t "workout_points" then o = points_opts
      else String.prefix "r" t = true /\ length rs <= 200 /\ o = records_opts
  | EInsert t _ o => t = "workouts" /\ o = workout_opts
  | EOpen _ _ | EProgress _ => True
  end.

(** The buffers stay below their thresholds between iterations. *)
Definition buffers_ok (st : conv_state) : Prop :=
  length (activity_summaries st) < 100 /\ length (records st) < 200.

Lemma dict_size_In {X} (d : dict (list X)) kv : In kv d -> length kv.2 <= dict_size d.
Proof.
  unfold dict_size. induction d as [|kv' d IH]; simpl; [done|].
  intros [<-|Hin]; [lia|]. specialize (IH Hin). lia.
Qed.

Lemma table_name_prefix ty : String.prefix "r" (table_name ty) = true.
Proof. apply prefix_app. Qed.

Lemma routed_tables records routed :
  rmap route records = Ok routed -> Forall (fun p => String.prefix "r" p.1 = true) routed.
Proof.
  intros H%rmap_Ok_Forall2. induction H as [|r [t r'] rs routed Hr _ IH]; constructor; [|done].
  destruct (route_Ok r t r' Hr) as (ty & _ & ->). apply table_name_prefix.
Qed.

Lemma prefix_r_ne t : String.prefix "r" t = true -> t <> "activity_summary" /\ t <> "workout_points".
Proof. intros Hp. split; intros ->; discriminate. Qed.

Lemma prefix_r_ne_workouts t : String.prefix "r" t = true -> t <> "workouts".
Proof. intros Hp ->. discriminate. Qed.

Lemma record_table_batch_ok t rs :
  String.prefix "r" t = true -> length rs <= 200 -> batch_ok (EInsertAll t rs records_opts).
Proof.
  intros Hp Hl. destruct (prefix_r_ne t Hp) as [H1 H2]. simpl.
  destruct (String.eqb_spec t "activity_summary"); [done|].
  destruct (String.eqb_spec t "workout_points"); [done|]. done.
Qed.

(** Each call [write_records] makes writes into an [r...] table, with the
    record options, at most as many rows as the batch has. *)
Definition record_write (n : nat) (e : effect) : Prop :=
  exists t rs, e = EInsertAll t rs records_opts /\ String.prefix "r" t = true /\ length rs <= n.

Lemma write_records_trace recs : Forall (record_write (length recs)) (trace_of (write_records recs)).
Proof.
  rewrite write_records_eq.
  destruct (rmap route recs) as [routed|e] eqn:Hr; cbn [trace_of fst]; [|constructor].
  unfold group_inserts. apply Forall_map, Forall_forall.
  intros [t rs] Hin%list_elem_of_In. exists t, rs. split_and!; [done| |].
  - assert (Ht : t ∈ dict_keys (group_into [] routed)).
    { unfold dict_keys. apply list_elem_of_In, in_map_iff. by exists (t, rs). }
    apply group_into_keys in Ht as [Ht|Ht]; [by apply elem_of_nil in Ht|].
    apply list_elem_of_In, in_map_iff in Ht as ([t' r'] & <- & Hin').
    pose proof (routed_tables recs routed Hr) as Hall. rewrite Forall_forall in Hall.
    apply (Hall (t', r')). by apply list_elem_of_In.
  - pose proof (dict_size_In _ _ Hin) as Hs. simpl in Hs.
    rewrite group_into_size in Hs. apply rmap_Ok_length in Hr. simpl in Hs |- *. lia.
Qed.

Lemma write_records_batch_ok recs :
  length recs <= 200 -> mspec (fun _ => True) batch_ok (write_records recs).
Proof.
  intros Hlen. split; [|done]. eapply Forall_impl; [apply write_records_trace|].
  intros e (t & rs & -> & Hp & Hl). apply record_table_batch_ok; [done|lia].
Qed.

Section ConvertBatches.
Context `{Collaborators}.

Lemma workout_to_db_batch_ok w zf : mspec (fun _ => True) batch_ok (workout_to_db w zf).
Proof.
  split; [|done]. destruct (workout_to_db_shape w zf) as [[-> _]|(r & rest & _ & -> & Hrest)];
    [constructor|]. constructor; [done|].
  eapply Forall_impl; [exact Hrest|]. intros [t rs o|t r' o|z p|n]; simpl; try done.
  intros (-> & -> & _). done.
Qed.

Lemma convert_step_batch_ok zf st item :
  buffers_ok st -> mspec buffers_ok batch_ok (convert_step zf st item).
Proof.
  intros [Hs Hr]. destruct item as [tag el|n]; cbn [convert_step].
  - destruct (String.eqb tag "ActivitySummary").
    { destruct (Nat.leb_spec 100 (length (activity_summaries st ++ [el_attrib el]))) as [Hle|Hlt].
      - apply mspec_bind with (P1 := fun _ => True).
        + apply mspec_emit. simpl. rewrite length_app in Hle |- *. simpl in *.
          split_and!; [by destruct (activity_summaries st)|lia|done].
        + intros _ _. apply mspec_ret. split; simpl; lia.
      - apply mspec_ret. split; simpl; lia. }
    destruct (String.eqb tag "Workout").
    { apply mspec_bind with (P1 := fun _ => True); [apply workout_to_db_batch_ok|].
      intros _ _. apply mspec_ret. by split. }
    destruct (String.eqb tag "Record"); [|apply mspec_ret; by split].
    apply mspec_bind with (P1 := fun _ => True); [by apply mspec_lift|]. intros record _.
    destruct (Nat.leb_spec 200 (length (records st ++ [record]))) as [Hle|Hlt].
    + apply mspec_bind with (P1 := fun _ => True).
      * apply write_records_batch_ok. rewrite length_app in Hle |- *. simpl in *. lia.
      * intros _ _. apply mspec_ret. split; simpl; lia.
    + apply mspec_ret. split; simpl; lia.
  - apply mspec_bind with (P1 := fun _ => True); [by apply mspec_emit|].
    intros _ _. by apply mspec_ret.
Qed.

Lemma convert_finish_batch_ok progress st :
  buffers_ok st -> mspec (fun _ => True) batch_ok (convert_finish progress st).
Proof.
  intros [Hs Hr]. unfold convert_finish.
  apply mspec_bind with (P1 := fun _ => True).
  { destruct (records st) as [|r rs] eqn:Hrs; [by apply mspec_ret|].
    apply write_records_batch_ok. lia. }
  intros _ _. apply mspec_bind with (P1 := fun _ => True).
  { destruct (activity_summaries st) as [|x xs] eqn:Hss; [by apply mspec_ret|].
    apply mspec_emit. simpl in *. split_and!; [done|lia|done]. }
  intros _ _. destruct progress; [by apply mspec_emit|by apply mspec_ret].
Qed.

Context `{PP : PullParser}.

(** The shape of every storage call, as an [mspec] of the run. *)
Lemma convert_calls_ok fp progress zf :
  Forall batch_ok (trace_of (convert_xml_to_sqlite fp progress zf)).
Proof.
  enough (Hm : mspec (fun _ => True) batch_ok (convert_xml_to_sqlite fp progress zf))
    by exact (proj1 Hm).
  unfold convert_xml_to_sqlite.
  apply mspec_bind with (P1 := buffers_ok).
  - apply mspec_mfold; [split; simpl; lia|]. intros st item Hst _. by apply convert_step_batch_ok.
  - intros st Hst. apply mspec_bind with (P1 := fun _ => True); [by apply mspec_lift|].
    intros _ _. by apply convert_finish_batch_ok.
Qed.

(** C3: Every storage call of a run has the shape the code gives it:
    activity_summary in non-empty batches of at most 100 with default
    options, record tables named r... in batches of at most 200 with the
    record options, workout_points with the foreign key and batch_size 50,
    workouts with hash_id id. *)
Theorem convert_batch_bounds fp progress zf :
  Forall batch_ok (trace_of (convert_xml_to_sqlite fp progress zf)).
Proof. exact (convert_calls_ok fp progress zf). Qed.
End ConvertBatches.

(** ** Workout numbering *)

(** The [seq] column of each row inserted into [workouts], in order. *)
Fixpoint workout_seqs (tr : list effect) : list value :=
  match tr with
  | [] => []
  | EInsert t r _ :: tr' =>
      (if String.eqb t "workouts" then [default VNone (dict_get "seq" r)] else []) ++ workout_seqs tr'
  | _ :: tr' => workout_seqs tr'
  end.

Definition seq_values (n : nat) : list value := map (fun i => VInt (Z.of_nat i)) (seq 1 n).

Definition no_insert (e : effect) : Prop :=
  match e with EInsert _ _ _ => False | _ => True end.

Lemma workout_seqs_app tr1 tr2 : workout_seqs (tr1 ++ tr2) = workout_seqs tr1 ++ workout_seqs tr2.
Proof. induction tr1 as [|[] tr1 IH]; simpl; rewrite ?IH, ?app_assoc; done. Qed.

Lemma workout_seqs_no_insert tr : Forall no_insert tr -> workout_seqs tr = [].
Proof. induction 1 as [|[] tr Hx _ IH]; simpl in *; done. Qed.

(** The values [z, z+1, ..., z+n-1]. *)
Definition seq_from (z : Z) (n : nat) : list value := map (fun i => VInt (z + Z.of_nat i)) (seq 0 n).

Lemma seq_from_S z n : seq_from z (S n) = seq_from z n ++ [VInt (z + Z.of_nat n)].
Proof. unfold seq_from. by rewrite seq_S, map_app. Qed.

Lemma seq_from_one n : seq_from 1 n = seq_values n.
Proof.
  unfold seq_from, seq_values. rewrite <- seq_shift, map_map. apply map_ext. intros i. f_equal. lia.
Qed.

Lemma add_metadata_seq record entry record' :
  add_metadata record entry = Ok record' -> dict_get "seq" record' = dict_get "seq" record.
Proof.
  unfold add_metadata. destruct (dict_index "value" _) as [v|e]; simpl; [|discriminate].
  destruct (dict_index "key" _) as [[ks| | | |]|e]; simpl; try discriminate.
  intros [= <-]. by apply dict_get_set_ne.
Qed.

Lemma fold_metadata_seq record el record' :
  fold_metadata record el = Ok record' -> dict_get "seq" record' = dict_get "seq" record.
Proof.
  unfold fold_metadata. generalize (findall_tag "MetadataEntry" el) as entries.
  intros entries. revert record. induction entries as [|x xs IH]; intros record; simpl.
  - by intros [= <-].
  - destruct (add_metadata record x) as [r1|e] eqn:Ha; simpl; [|discriminate].
    intros Hf. rewrite (IH r1 Hf). by apply add_metadata_seq in Ha.
Qed.

(** The workout row keeps the [seq] the loop set on the element. *)
Lemma workout_row_seq el v r :
  workout_row (el_set "seq" v el) = Ok r -> dict_get "seq" r = Some v.
Proof.
  unfold workout_row. destruct (fold_metadata _ _) as [r0|e] eqn:Hf; simpl; [|discriminate].
  intros [= <-]. rewrite dict_get_set_ne by done. rewrite (fold_metadata_seq _ _ _ Hf).
  destruct el as [t a cs]. simpl. apply dict_get_set_eq.
Qed.

Lemma write_records_no_insert recs : mspec (fun _ => True) no_insert (write_records recs).
Proof.
  split; [|done]. eapply Forall_impl; [apply write_records_trace|].
  by intros e (t & rs & -> & _).
Qed.

Section ConvertSeq.
Context `{Collaborators}.

Definition is_workout_item (item : gen_item) : bool :=
  match item with GYield tag _ => String.eqb tag "Workout" | GProgress _ => false end.

Lemma convert_step_other zf st item :
  is_workout_item item = false ->
  mspec (fun st' => workout_id st' = workout_id st) no_insert (convert_step zf st item).
Proof.
  destruct item as [tag el|n]; cbn [convert_step is_workout_item]; intros Hw.
  - rewrite Hw. destruct (String.eqb tag "ActivitySummary").
    { destruct (Nat.leb _ _);
        [apply mspec_bind with (P1 := fun _ => True); [by apply mspec_emit|]; intros _ _|];
        by apply mspec_ret. }
    destruct (String.eqb tag "Record"); [|by apply mspec_ret].
    apply mspec_bind with (P1 := fun _ => True); [by apply mspec_lift|]. intros record _.
    destruct (Nat.leb _ _); [|by apply mspec_ret].
    apply mspec_bind with (P1 := fun _ => True); [apply write_records_no_insert|].
    intros _ _. by apply mspec_ret.
  - apply mspec_bind with (P1 := fun _ => True); [by apply mspec_emit|]. intros _ _.
    by apply mspec_ret.
Qed.

Lemma convert_step_workout_eq zf st el :
  convert_step zf st (GYield "Workout" el) =
    (workout_to_db (el_set "seq" (VInt (workout_id st)) el) zf;;;
     ret (mk_conv (activity_summaries st) (records st) (workout_id st + 1))).
Proof. reflexivity. Qed.

Lemma convert_step_workout zf st el :
  (trace_of (convert_step zf st (GYield "Workout" el)) = [] /\
     exists e, outcome (convert_step zf st (GYield "Workout" el)) = Err e) \/
  (workout_seqs (trace_of (convert_step zf st (GYield "Workout" el))) = [VInt (workout_id st)] /\
   forall st', outcome (convert_step zf st (GYield "Workout" el)) = Ok st' ->
     workout_id st' = (workout_id st + 1)%Z).
Proof.
  rewrite convert_step_workout_eq, trace_bind, outcome_bind.
  destruct (workout_to_db_shape (el_set "seq" (VInt (workout_id st)) el) zf)
    as [[Ht [e He]]|(r & rest & Hrow & Ht & Hrest)].
  - left. rewrite Ht, He. split; [done|by eauto].
  - right. split.
    + rewrite Ht. simpl. rewrite (workout_row_seq _ _ _ Hrow).
      rewrite workout_seqs_app, (workout_seqs_no_insert rest).
      * destruct (outcome _); simpl; by rewrite ?app_nil_r.
      * eapply Forall_impl; [exact Hrest|]. by intros [] ?.
    + destruct (outcome _); simpl; [|discriminate]. by intros st' [= <-].
Qed.

(** The numbering from [z]: the counter is [z + n] after [n] workouts,
    which got [z, ..., z+n-1]. *)
Definition seq_inv (z : Z) (tr : list effect) (st : conv_state) : Prop :=
  exists n, workout_id st = (z + Z.of_nat n)%Z /\ workout_seqs tr = seq_from z n.

Definition seq_fin (z : Z) (tr : list effect) : Prop := exists n, workout_seqs tr = seq_from z n.

Lemma convert_step_seq z zf tr st item :
  seq_inv z tr st ->
  seq_fin z (tr ++ trace_of (convert_step zf st item)) /\
  forall st', outcome (convert_step zf st item) = Ok st' ->
    seq_inv z (tr ++ trace_of (convert_step zf st item)) st'.
Proof.
  unfold seq_fin, seq_inv. intros (n & Hid & Hseq). destruct (is_workout_item item) eqn:Hw.
  - destruct item as [tag el|n']; [|discriminate]. simpl in Hw.
    apply String.eqb_eq in Hw as ->.
    destruct (convert_step_workout zf st el) as [[Ht0 [e He]]|[Ht Hnext]].
    + rewrite Ht0, app_nil_r. split; [by exists n|]. intros st' Ho. congruence.
    + rewrite workout_seqs_app, Ht, Hseq. split.
      * exists (S n). by rewrite seq_from_S, Hid.
      * intros st' Ho. exists (S n). rewrite (Hnext st' Ho), Hid, seq_from_S.
        split; [lia|done].
  - destruct (convert_step_other zf st item Hw) as [Hq Hp].
    rewrite workout_seqs_app, (workout_seqs_no_insert _ Hq), app_nil_r.
    split; [by exists n|]. intros st' Ho. exists n. rewrite (Hp st' Ho). split; [done|].
    exact Hseq.
Qed.

Lemma convert_finish_no_insert progress st : mspec (fun _ => True) no_insert (convert_finish progress st).
Proof.
  unfold convert_finish. apply mspec_bind with (P1 := fun _ => True).
  { destruct (records st); [by apply mspec_ret|apply write_records_no_insert]. }
  intros _ _. apply mspec_bind with (P1 := fun _ => True).
  { destruct (activity_summaries st); [by apply mspec_ret|by apply mspec_emit]. }
  intros _ _. destruct progress; [by apply mspec_emit|by apply mspec_ret].
Qed.

Context `{PP : PullParser}.

(** The [seq] values of a run: consecutive from the counter's initial
    value, as a lemma the storage theorems use. *)
Lemma convert_seqs fp progress zf :
  exists n, workout_seqs (trace_of (convert_xml_to_sqlite fp progress zf)) = seq_from (workout_id init_state) n.
Proof.
  unfold convert_xml_to_sqlite. rewrite trace_bind, workout_seqs_app.
  set (z := workout_id init_state).
  destruct (mfold_trace_inv (seq_inv z) (seq_fin z) (convert_step zf)
              (trace_of (find_all_tags TAGS fp progress))
              (fun tr st '(ex_intro _ n (conj _ H)) => ex_intro _ n H)
              (fun tr st item _ Hinv => convert_step_seq z zf tr st item Hinv)
              [] init_state) as [[n Hfin] _].
  { exists 0%nat. split; [subst z; lia|done]. }
  exists n. rewrite <- Hfin.
  destruct (outcome (mfold _ _ _)) as [st|e]; cbv beta iota; [|by rewrite !app_nil_r].
  rewrite (workout_seqs_no_insert _ (proj1 (mspec_bind (fun _ => True) (fun _ => True) no_insert _ _
            (mspec_lift _ _ _ (fun _ _ => I)) (fun _ _ => convert_finish_no_insert progress st)))).
  by rewrite !app_nil_r.
Qed.

(** C1: In every run of convert_xml_to_sqlite, however it ends, the rows
    inserted into workouts carry seq = 1, 2, ..., n in insertion order:
    contiguous, increasing, starting at 1. *)
Theorem convert_workout_seq fp progress zf :
  exists n, workout_seqs (trace_of (convert_xml_to_sqlite fp progress zf)) = seq_values n.
Proof. destruct (convert_seqs fp progress zf) as [n Hn]. exists n. rewrite Hn. apply seq_from_one. Qed.
End ConvertSeq.

(** ** What each iteration writes *)

(** The effects an iteration of the loop may perform, by item. *)
Definition step_effect (item : gen_item) (e : effect) : Prop :=
  match item with
  | GProgress n => e = EProgress (Z.of_nat n)
  | GYield tag _ =>
      if String.eqb tag "ActivitySummary" then exists rs, e = EInsertAll "activity_summary" rs default_opts
      else if String.eqb tag "Workout" then
        match e with
        | EInsert t _ _ => t = "workouts"
        | EInsertAll t _ _ => t = "workout_points"
        | EOpen _ _ => True
        | EProgress _ => False
        end
      else exists t rs, e = EInsertAll t rs records_opts /\ String.prefix "r" t = true
  end.

(** The rows a trace writes into record tables ([r...]). *)
Fixpoint record_rows (tr : list effect) : list row :=
  match tr with
  | [] => []
  | EInsertAll t rs _ :: tr' => (if String.prefix "r" t then rs else []) ++ record_rows tr'
  | _ :: tr' => record_rows tr'
  end.

(** The arguments of the progress callback in a trace. *)
Definition progress_values (tr : list effect) : list Z :=
  omap (fun e => match e with EProgress n => Some n | _ => None end) tr.

(** The rows of the ActivitySummary elements among the generator's items. *)
Definition summary_rows (items : list gen_item) : list row :=
  omap (fun i => match i with
                 | GYield t el => if String.eqb t "ActivitySummary" then Some (el_attrib el) else None
                 | GProgress _ => None
                 end) items.

Definition is_record_item (i : gen_item) : bool :=
  match i with GYield t _ => String.eqb t "Record" | GProgress _ => false end.

(** The number of Record elements among the generator's items. *)
Definition record_count (items : list gen_item) : nat :=
  length (filter (fun i => is_record_item i = true) items).

Lemma record_rows_app tr1 tr2 : record_rows (tr1 ++ tr2) = record_rows tr1 ++ record_rows tr2.
Proof. induction tr1 as [|[] tr1 IH]; simpl; rewrite ?IH, ?app_assoc; done. Qed.

Lemma progress_values_app tr1 tr2 : progress_values (tr1 ++ tr2) = progress_values tr1 ++ progress_values tr2.
Proof. apply omap_app. Qed.

Definition workout_effect (e : effect) : Prop :=
  match e with
  | EInsert t _ _ => t = "workouts"
  | EInsertAll t _ _ => t = "workout_points"
  | EOpen _ _ => True
  | EProgress _ => False
  end.

Lemma rows_written_other t tr :
  Forall (fun e => match e with EInsertAll t' _ _ | EInsert t' _ _ => t' <> t | _ => True end) tr ->
  rows_written t tr = [].
Proof.
  induction 1 as [|[t' rs o|t' r o|z p|n] tr Hx _ IH]; simpl in *; try done.
  all: destruct (String.eqb_spec t' t); [congruence|done].
Qed.

Lemma record_rows_other tr :
  Forall (fun e => match e with EInsertAll t _ _ => String.prefix "r" t = false | _ => True end) tr ->
  record_rows tr = [].
Proof. induction 1 as [|[t rs o|t r o|z p|n] tr Hx _ IH]; simpl in *; try done. by rewrite Hx. Qed.

Lemma progress_values_other tr :
  Forall (fun e => match e with EProgress _ => False | _ => True end) tr -> progress_values tr = [].
Proof. induction 1 as [|[] tr Hx _ IH]; simpl in *; done. Qed.

Lemma record_rows_write tr n :
  Forall (record_write n) tr -> record_rows tr = concat (map (fun e => match e with EInsertAll _ rs _ => rs | _ => [] end) tr).
Proof.
  induction 1 as [|e tr (t & rs & -> & Hp & _) _ IH]; simpl; [done|]. by rewrite Hp, IH.
Qed.

Section ConvertEffects.
Context `{Collaborators}.

Lemma workout_to_db_effects w zf : Forall workout_effect (trace_of (workout_to_db w zf)).
Proof.
  destruct (workout_to_db_shape w zf) as [[-> _]|(r & rest & _ & -> & Hrest)];
    [constructor|]. constructor; [done|].
  eapply Forall_impl; [exact Hrest|]. intros [t rs o|t r' o|z p|n]; simpl; try done.
  intros (-> & _). done.
Qed.

Lemma workout_effect_measures tr :
  Forall workout_effect tr ->
  rows_written "activity_summary" tr = [] /\ record_rows tr = [] /\ progress_values tr = [].
Proof.
  intros Hw. split_and!.
  - apply rows_written_other. eapply Forall_impl; [exact Hw|].
    intros [t rs o|t r o|z p|n] Hx; simpl in *; subst; try discriminate; done.
  - apply record_rows_other. eapply Forall_impl; [exact Hw|].
    intros [t rs o|t r o|z p|n] Hx; simpl in *; subst; done.
  - apply progress_values_other. eapply Forall_impl; [exact Hw|]. by intros [].
Qed.

Lemma record_write_measures tr n :
  Forall (record_write n) tr -> rows_written "activity_summary" tr = [] /\ progress_values tr = [].
Proof.
  intros Hw. split.
  - apply rows_written_other. eapply Forall_impl; [exact Hw|].
    intros e (t & rs & -> & Hp & _). apply (prefix_r_ne t Hp).
  - apply progress_values_other. eapply Forall_impl; [exact Hw|]. by intros e (t & rs & -> & _).
Qed.
End ConvertEffects.

Lemma summary_rows_app l1 l2 : summary_rows (l1 ++ l2) = summary_rows l1 ++ summary_rows l2.
Proof. apply omap_app. Qed.

Lemma record_count_app l1 l2 : record_count (l1 ++ l2) = record_count l1 + record_count l2.
Proof. unfold record_count. by rewrite filter_app, length_app. Qed.

Lemma record_count_single item : record_count [item] = if is_record_item item then 1 else 0.
Proof. unfold record_count. rewrite filter_cons, filter_nil. by destruct (is_record_item item). Qed.

Lemma summary_rows_cons i l : summary_rows (i :: l) = summary_rows [i] ++ summary_rows l.
Proof. apply (summary_rows_app [i] l). Qed.

Lemma record_count_cons i l : record_count (i :: l) = record_count [i] + record_count l.
Proof. apply (record_count_app [i] l). Qed.

Lemma summary_rows_yielded l : summary_rows (yielded l) = summary_rows l.
Proof. induction l as [|[] l IH]; unfold yielded in *; rewrite ?filter_cons; simpl; rewrite ?IH; done. Qed.

Lemma record_count_yielded l : record_count (yielded l) = record_count l.
Proof.
  unfold record_count, yielded. rewrite list_filter_filter. f_equal.
  apply list_filter_iff. intros []; simpl; intuition congruence.
Qed.

(** The elements of a document the run sees, with a given tag. *)
Definition doc_elements (tag : string) (doc : element) : list element :=
  filter (fun x => el_tag x = tag) (closing_matches TAGS doc).

Lemma summary_rows_elements (l : list element) :
  summary_rows (map (fun x => GYield (el_tag x) x) l) =
  map el_attrib (filter (fun x => el_tag x = "ActivitySummary") l).
Proof.
  induction l as [|x l IH]; [done|]. rewrite map_cons, filter_cons.
  rewrite summary_rows_cons, IH. unfold summary_rows at 1. simpl.
  destruct (String.eqb_spec (el_tag x) "ActivitySummary"); case_decide; simpl; congruence.
Qed.

Lemma record_count_elements (l : list element) :
  record_count (map (fun x => GYield (el_tag x) x) l) =
  length (filter (fun x => el_tag x = "Record") l).
Proof.
  induction l as [|x l IH]; [done|]. rewrite map_cons, filter_cons.
  rewrite record_count_cons, record_count_single, IH. cbn [is_record_item].
  destruct (String.eqb_spec (el_tag x) "Record"); case_decide; simpl; congruence.
Qed.

(** Split on the tag of a yielded item the way [convert_step] does. *)
Ltac convert_cases item :=
  destruct item as [?tag ?el|?n]; cbn [convert_step];
  [ destruct (String.eqb_spec tag "ActivitySummary") as [->|?];
    [|destruct (String.eqb_spec tag "Workout") as [->|?];
      [|destruct (String.eqb_spec tag "Record") as [->|?]]]
  | ].

Section ConvertRun.
Context `{Collaborators}.

(** What a normally ending loop has written, against what it has read. *)
Definition run_inv (tr : list effect) (st : conv_state) (done : list gen_item) : Prop :=
  rows_written "activity_summary" tr ++ activity_summaries st = summary_rows done /\
  length (record_rows tr) + length (records st) = record_count done /\
  progress_values tr = map Z.of_nat (progress_calls done).

Lemma convert_step_run zf tr st done item st' :
  run_inv tr st done -> outcome (convert_step zf st item) = Ok st' ->
  run_inv (tr ++ trace_of (convert_step zf st item)) st' (done ++ [item]).
Proof.
  intros (Hs & Hr & Hp). unfold run_inv.
  rewrite rows_written_app, record_rows_app, progress_values_app, length_app,
    summary_rows_app, record_count_app, record_count_single, progress_calls_app, map_app.
  convert_cases item; cbn [is_record_item].
  - (* ActivitySummary *)
    destruct (Nat.leb _ _); cbn; intros [= <-]; cbn; rewrite ?app_nil_r;
      (split_and!; [by rewrite app_assoc, Hs|simpl; lia|done]).
  - (* Workout *)
    rewrite trace_bind, outcome_bind. destruct (outcome (workout_to_db _ zf)) eqn:Ho; [|done].
    cbn [trace_of outcome fst snd ret]. intros [= <-]. rewrite app_nil_r.
    destruct (workout_effect_measures _ (workout_to_db_effects (el_set "seq" (VInt (workout_id st)) el) zf))
      as (-> & -> & ->). simpl. rewrite !app_nil_r. split_and!; [done|lia|done].
  - (* Record *)
    rewrite trace_bind, outcome_bind.
    destruct (record_row el) as [record|e]; cbn [lift outcome trace_of fst snd]; [|discriminate].
    rewrite app_nil_l.
    destruct (Nat.leb 200 (length (records st ++ [record]))).
    + rewrite trace_bind, outcome_bind.
      destruct (outcome (write_records _)) eqn:Ho; [|discriminate].
      cbn [ret trace_of outcome fst snd]. intros [= <-].
      pose proof (write_records_trace (records st ++ [record])) as Hw. rewrite !app_nil_r.
      destruct (record_write_measures _ _ Hw) as [-> ->].
      rewrite (record_rows_write _ _ Hw).
      assert (Hcount : length (inserted_rows (trace_of (write_records (records st ++ [record])))) =
                       length (records st ++ [record])).
      { exact (write_records_Ok_count _ _ Ho). }
      unfold inserted_rows in Hcount. rewrite length_app in Hcount. simpl in *.
      split_and!; [by rewrite app_nil_r|lia|by rewrite app_nil_r].
    + cbn [ret trace_of outcome fst snd]. intros [= <-]. cbn.
      rewrite !app_nil_r, length_app. split_and!; [done|simpl; lia|done].
  - (* other tag *)
    cbn. intros [= <-]. simpl. destruct (String.eqb_spec tag "ActivitySummary"); [done|].
    destruct (String.eqb_spec tag "Record"); [done|]. rewrite !app_nil_r. split_and!; [done|lia|done].
  - (* progress *)
    cbn. intros [= <-]. simpl. rewrite !app_nil_r. split_and!; [done|lia|by rewrite Hp].
Qed.

Lemma convert_finish_run progress tr st done :
  run_inv tr st done -> outcome (convert_finish progress st) = Ok tt ->
  rows_written "activity_summary" (tr ++ trace_of (convert_finish progress st)) = summary_rows done /\
  length (record_rows (tr ++ trace_of (convert_finish progress st))) = record_count done /\
  progress_values (tr ++ trace_of (convert_finish progress st)) =
    map Z.of_nat (progress_calls done) ++ (if progress then [SYS_MAXSIZE] else []).
Proof.
  intros (Hs & Hr & Hp). unfold convert_finish.
  rewrite !trace_bind, !outcome_bind.
  assert (Hrec : exists t1, trace_of (match records st with [] => ret tt | recs => write_records recs end) = t1 /\
            rows_written "activity_summary" t1 = [] /\ progress_values t1 = [] /\
            (outcome (match records st with [] => ret tt | recs => write_records recs end) = Ok tt ->
             length (record_rows t1) = length (records st))).
  { destruct (records st) as [|r rs] eqn:Hrs; [by exists []|].
    pose proof (write_records_trace (r :: rs)) as Hw. eexists; split; [reflexivity|].
    destruct (record_write_measures _ _ Hw) as [-> ->]. split_and!; [done|done|].
    intros Ho. rewrite (record_rows_write _ _ Hw).
    exact (write_records_Ok_count _ _ Ho). }
  destruct Hrec as (t1 & -> & Hs1 & Hp1 & Hr1).
  destruct (outcome (match records st with [] => ret tt | recs => write_records recs end)) as [[]|e];
    [|done].
  specialize (Hr1 eq_refl).
  destruct (activity_summaries st) as [|x xs] eqn:Hss; cbn; destruct progress; cbn; intros _.
  all: rewrite ?app_nil_r, !rows_written_app, !record_rows_app, !progress_values_app, !length_app, Hs1, Hp1.
  all: cbn; split_and!; [rewrite <- Hs, ?Hss; by rewrite ?app_nil_r|lia|rewrite Hp; by rewrite ?app_nil_r].
Qed.

Context `{PP : PullParser}.

Lemma convert_Ok fp progress zf :
  outcome (convert_xml_to_sqlite fp progress zf) = Ok tt ->
  outcome (find_all_tags TAGS fp progress) = Ok tt /\
  rows_written "activity_summary" (trace_of (convert_xml_to_sqlite fp progress zf)) =
    summary_rows (trace_of (find_all_tags TAGS fp progress)) /\
  length (record_rows (trace_of (convert_xml_to_sqlite fp progress zf))) =
    record_count (trace_of (find_all_tags TAGS fp progress)) /\
  progress_values (trace_of (convert_xml_to_sqlite fp progress zf)) =
    map Z.of_nat (progress_calls (trace_of (find_all_tags TAGS fp progress))) ++
    (if progress then [SYS_MAXSIZE] else []).
Proof.
  unfold convert_xml_to_sqlite. rewrite outcome_bind, trace_bind.
  destruct (outcome (mfold _ _ _)) as [st|e] eqn:Hm; [|discriminate].
  pose proof (mfold_Ok_inv run_inv (convert_step zf) (trace_of (find_all_tags TAGS fp progress))
                (fun tr a done x a' Hi Ho => convert_step_run zf tr a done x a' Hi Ho)
                [] init_state [] st) as Hinv.
  simpl in Hinv. specialize (Hinv ltac:(split_and!; done) Hm).
  rewrite outcome_bind, trace_bind.
  destruct (outcome (find_all_tags TAGS fp progress)) as [[]|e] eqn:Hg; cbn [lift outcome trace_of fst snd]; [|discriminate].
  rewrite app_nil_l. intros Hf. split; [done|].
  exact (convert_finish_run progress _ st _ Hinv Hf).
Qed.

(** C6: When the parser reports the events of a document and the
    conversion ends normally, the rows written into activity_summary are
    the attributes of the document's ActivitySummary elements, each once,
    in document order. *)
Theorem convert_summaries_doc fp progress zf evss doc :
  parser_run pp_init (file_chunks fp) = Ok evss -> concat evss = events_of doc ->
  outcome (convert_xml_to_sqlite fp progress zf) = Ok tt ->
  rows_written "activity_summary" (trace_of (convert_xml_to_sqlite fp progress zf)) =
    map el_attrib (doc_elements "ActivitySummary" doc).
Proof.
  intros Hrun Hev Hok. destruct (convert_Ok fp progress zf Hok) as (_ & -> & _).
  rewrite <- summary_rows_yielded.
  rewrite (find_all_tags_doc_yielded TAGS fp progress evss doc Hrun Hev).
  apply summary_rows_elements.
Qed.

(** When the parser reports the events of a document and the
    conversion ends normally, the record tables receive exactly as many
    rows as the document has Record elements. *)
Theorem convert_records_doc fp progress zf evss doc :
  parser_run pp_init (file_chunks fp) = Ok evss -> concat evss = events_of doc ->
  outcome (convert_xml_to_sqlite fp progress zf) = Ok tt ->
  length (record_rows (trace_of (convert_xml_to_sqlite fp progress zf))) =
    length (doc_elements "Record" doc).
Proof.
  intros Hrun Hev Hok. destruct (convert_Ok fp progress zf Hok) as (_ & _ & -> & _).
  rewrite <- record_count_yielded.
  rewrite (find_all_tags_doc_yielded TAGS fp progress evss doc Hrun Hev).
  apply record_count_elements.
Qed.

(** C9: A conversion with a progress callback that ends normally reports
    the length of each chunk read, in order, then sys.maxsize once, last. *)
Theorem convert_progress fp zf :
  outcome (convert_xml_to_sqlite fp true zf) = Ok tt ->
  progress_values (trace_of (convert_xml_to_sqlite fp true zf)) =
    map (fun c => Z.of_nat (length c)) (file_chunks fp) ++ [SYS_MAXSIZE].
Proof.
  intros Hok. destruct (convert_Ok fp true zf Hok) as (Hg & _ & _ & ->).
  rewrite (find_all_tags_progress_ok TAGS fp Hg), map_map. done.
Qed.

(** C10: When the generator raises (a malformed document), the conversion
    raises too and performs only what the loop did before: buffered
    records and summaries are never written and sys.maxsize is never
    reported. *)
Theorem convert_generator_error fp progress zf e :
  outcome (find_all_tags TAGS fp progress) = Err e ->
  trace_of (convert_xml_to_sqlite fp progress zf) =
    trace_of (mfold (convert_step zf) init_state (trace_of (find_all_tags TAGS fp progress))) /\
  outcome (convert_xml_to_sqlite fp progress zf) =
    match outcome (mfold (convert_step zf) init_state (trace_of (find_all_tags TAGS fp progress))) with
    | Ok _ => Err e
    | Err e' => Err e'
    end.
Proof.
  intros Hg. unfold convert_xml_to_sqlite. rewrite trace_bind, outcome_bind.
  destruct (outcome (mfold _ _ _)) as [st|e']; cbn [trace_of outcome fst snd]; [|by rewrite app_nil_r].
  rewrite trace_bind, outcome_bind, Hg. cbn. by rewrite !app_nil_r.
Qed.
End ConvertRun.

(** ** When the conversion ends normally *)

(** A Record element the loop can buffer and [write_records] can route:
    its metadata is well formed and it has a string [type]. *)
Definition record_ok (el : element) : Prop :=
  exists r p, record_row el = Ok r /\ route r = Ok p.

(** The buffered rows all route. *)
Definition routes (st : conv_state) : Prop :=
  Forall (fun r => exists p, route r = Ok p) (records st).

Lemma write_records_Ok recs :
  Forall (fun r => exists p, route r = Ok p) recs -> outcome (write_records recs) = Ok tt.
Proof. intros H. destruct (rmap_total route recs H) as [ys Hys]. by rewrite write_records_eq, Hys. Qed.

Lemma Forall_yielded (P : gen_item -> Prop) l :
  (forall n, P (GProgress n)) -> Forall P (yielded l) -> Forall P l.
Proof.
  intros Hp. unfold yielded. induction l as [|[t el|n] l IH]; rewrite ?filter_cons; simpl; [done| |].
  - intros Hl. inversion Hl; subst. constructor; auto.
  - intros Hl. constructor; auto.
Qed.

(** ** Record tables against the document *)

(** The Record elements among the generator's items, in order. *)
Definition record_els (items : list gen_item) : list element :=
  omap (fun i => match i with
                 | GYield t el => if String.eqb t "Record" then Some el else None
                 | GProgress _ => None
                 end) items.

(** A Record element's destination table and the row stored there. *)
Definition record_route (el : element) : result (string * row) := rbind (record_row el) route.

Lemma record_els_app l1 l2 : record_els (l1 ++ l2) = record_els l1 ++ record_els l2.
Proof. apply omap_app. Qed.

Lemma record_els_yielded l : record_els (yielded l) = record_els l.
Proof. induction l as [|[] l IH]; unfold yielded in *; rewrite ?filter_cons; simpl; rewrite ?IH; done. Qed.

Lemma record_els_elements (l : list element) :
  record_els (map (fun x => GYield (el_tag x) x) l) = filter (fun x => el_tag x = "Record") l.
Proof.
  induction l as [|x l IH]; [done|]. rewrite map_cons, filter_cons.
  change (GYield (el_tag x) x :: map (fun x => GYield (el_tag x) x) l)
    with ([GYield (el_tag x) x] ++ map (fun x => GYield (el_tag x) x) l).
  rewrite record_els_app, IH. cbn.
  destruct (String.eqb_spec (el_tag x) "Record"); case_decide; simpl; congruence.
Qed.

Lemma rows_written_r_workout t tr :
  String.prefix "r" t = true -> Forall workout_effect tr -> rows_written t tr = [].
Proof.
  intros Hp Hw. apply rows_written_other. eapply Forall_impl; [exact Hw|].
  intros [t' rs o|t' r o|z p|n] Hx; simpl in *; subst; try done.
  - intros <-. by apply (prefix_r_ne "workout_points" Hp).
  - intros <-. by apply (prefix_r_ne_workouts "workouts" Hp).
Qed.

Lemma rows_written_r_summary t rs :
  String.prefix "r" t = true -> rows_written t [EInsertAll "activity_summary" rs default_opts] = [].
Proof.
  intros Hp. apply rows_written_other. repeat constructor. intros <-.
  by apply (prefix_r_ne "activity_summary" Hp).
Qed.

Section ConvertTables.
Context `{Collaborators}.

(** The Record elements [els] read so far give the rows flushed, then
    the rows [recs] still buffered; the flushed rows routed to what the
    record tables of the trace [tr] hold. *)
Definition tables_at (tr : list effect) (recs : list row) (els : list element) : Prop :=
  exists flushed_rows flushed,
    rmap record_row els = Ok (flushed_rows ++ recs) /\
    rmap route flushed_rows = Ok flushed /\
    forall t, String.prefix "r" t = true -> rows_written t tr = rows_for t flushed.

Definition tables_inv (tr : list effect) (st : conv_state) (done : list gen_item) : Prop :=
  tables_at tr (records st) (record_els done).

(** A flush of the buffer keeps the invariant. *)
Lemma tables_at_flush tr els recs u :
  tables_at tr recs els -> outcome (write_records recs) = Ok u ->
  tables_at (tr ++ trace_of (write_records recs)) [] els.
Proof.
  intros (fr & fl & Hrows & Hfl & Ht) Ho. destruct (write_records_Ok_route recs u Ho) as [rb Hrb].
  exists (fr ++ recs), (fl ++ rb). rewrite app_nil_r. split_and!; [done| |].
  - rewrite rmap_app, Hfl. cbn. by rewrite Hrb.
  - intros t Hp. rewrite rows_written_app, Ht, (write_records_rows_for recs rb t Hrb) by done.
    by rewrite rows_for_app.
Qed.

(** Effects that touch no record table keep the invariant. *)
Lemma tables_at_other tr tr' recs els :
  (forall t, String.prefix "r" t = true -> rows_written t tr' = []) ->
  tables_at tr recs els -> tables_at (tr ++ tr') recs els.
Proof.
  intros Hn (fr & fl & Hrows & Hfl & Ht). exists fr, fl. split_and!; [done|done|].
  intros t Hp. by rewrite rows_written_app, Ht, Hn, app_nil_r.
Qed.

(** With the buffer empty, the record tables hold the routed rows of
    every Record read. *)
Lemma tables_at_routed tr tr' els :
  tables_at tr [] els -> (forall t, String.prefix "r" t = true -> rows_written t tr' = []) ->
  exists routed, rmap record_route els = Ok routed /\
    forall t, String.prefix "r" t = true -> rows_written t (tr ++ tr') = rows_for t routed.
Proof.
  intros Hat Hn. destruct (tables_at_other tr tr' [] els Hn Hat) as (fr & fl & Hrows & Hfl & Ht).
  rewrite app_nil_r in Hrows. exists fl. split; [|exact Ht].
  unfold record_route. by rewrite (rmap_rbind _ _ _ fr Hrows).
Qed.

Lemma convert_step_tables zf tr st done item st' :
  tables_inv tr st done -> outcome (convert_step zf st item) = Ok st' ->
  tables_inv (tr ++ trace_of (convert_step zf st item)) st' (done ++ [item]).
Proof.
  unfold tables_inv. rewrite record_els_app. intros Hinv.
  convert_cases item.
  - destruct (Nat.leb _ _); cbn -[tables_at]; intros [= <-]; rewrite !app_nil_r; [|exact Hinv].
    apply tables_at_other; [|exact Hinv]. intros t Hp. by rewrite rows_written_r_summary.
  - rewrite trace_bind, outcome_bind. destruct (outcome (workout_to_db _ zf)) eqn:Ho; [|done].
    cbn [trace_of outcome fst snd ret]. intros [= <-]. cbn -[tables_at]. rewrite !app_nil_r.
    apply tables_at_other; [|done]. intros t Hp.
    exact (rows_written_r_workout t _ Hp (workout_to_db_effects _ zf)).
  - rewrite trace_bind, outcome_bind.
    destruct (record_row el) as [record|e] eqn:Hrow; cbn [lift outcome trace_of fst snd]; [|discriminate].
    rewrite app_nil_l. cbn [record_els omap list_omap String.eqb Ascii.eqb Bool.eqb].
    destruct Hinv as (fr & fl & Hrows & Hfl & Ht).
    assert (Hbuf : tables_at tr (records st ++ [record]) (record_els done ++ [el])).
    { exists fr, fl. split_and!; [|done|done]. rewrite rmap_app, Hrows. cbn. rewrite Hrow. cbn.
      by rewrite app_assoc. }
    destruct (Nat.leb 200 (length (records st ++ [record]))).
    + rewrite trace_bind, outcome_bind.
      destruct (outcome (write_records _)) eqn:Ho; [|discriminate].
      cbn [ret trace_of outcome fst snd]. intros [= <-]. rewrite !app_nil_r.
      exact (tables_at_flush _ _ _ _ Hbuf Ho).
    + cbn [ret trace_of outcome fst snd]. intros [= <-]. by rewrite !app_nil_r.
  - cbn -[tables_at]. intros [= <-]. rewrite !app_nil_r.
    destruct (String.eqb_spec tag "Record"); [done|]. by rewrite app_nil_r.
  - cbn -[tables_at]. intros [= <-]. rewrite !app_nil_r. apply tables_at_other; [|done]. done.
Qed.

Lemma convert_finish_tables progress tr st done :
  tables_inv tr st done -> outcome (convert_finish progress st) = Ok tt ->
  exists routed, rmap record_route (record_els done) = Ok routed /\
    forall t, String.prefix "r" t = true ->
      rows_written t (tr ++ trace_of (convert_finish progress st)) = rows_for t routed.
Proof.
  unfold tables_inv. intros Hinv Hf. unfold convert_finish in *. rewrite outcome_bind in Hf.
  rewrite trace_bind.
  assert (Hflush : tables_at (tr ++ trace_of (match records st with [] => ret tt | recs => write_records recs end))
                     [] (record_els done)).
  { destruct (records st) as [|r rs] eqn:Hrs; [by rewrite app_nil_r|].
    destruct (outcome (write_records (r :: rs))) eqn:Ho; [|discriminate].
    exact (tables_at_flush _ _ _ _ Hinv Ho). }
  destruct (outcome (match records st with [] => ret tt | recs => write_records recs end))
    as [[]|e]; [|discriminate].
  rewrite app_assoc. apply (tables_at_routed _ _ _ Hflush).
  intros t Hp. apply rows_written_other.
  destruct (activity_summaries st); destruct progress; cbn; repeat constructor; intros <-; discriminate.
Qed.

Context `{PP : PullParser}.

(** The rows the record tables receive, against the document. *)
Lemma convert_tables_written fp progress zf evss doc :
  parser_run pp_init (file_chunks fp) = Ok evss -> concat evss = events_of doc ->
  outcome (convert_xml_to_sqlite fp progress zf) = Ok tt ->
  exists routed, rmap record_route (doc_elements "Record" doc) = Ok routed /\
    forall t, String.prefix "r" t = true ->
      rows_written t (trace_of (convert_xml_to_sqlite fp progress zf)) = rows_for t routed.
Proof.
  intros Hrun Hev. unfold doc_elements.
  rewrite <- record_els_elements, <- (find_all_tags_doc_yielded TAGS fp progress evss doc Hrun Hev),
    record_els_yielded.
  unfold convert_xml_to_sqlite. rewrite outcome_bind, trace_bind.
  destruct (outcome (mfold _ _ _)) as [st|e] eqn:Hm; [|discriminate].
  pose proof (mfold_Ok_inv tables_inv (convert_step zf) (trace_of (find_all_tags TAGS fp progress))
                (fun tr a done x a' Hi Ho => convert_step_tables zf tr a done x a' Hi Ho)
                [] init_state [] st) as Hinv.
  simpl in Hinv. specialize (Hinv ltac:(by exists [], []) Hm).
  rewrite outcome_bind, trace_bind.
  destruct (outcome (find_all_tags TAGS fp progress)) as [[]|e] eqn:Hg; cbn [lift outcome trace_of fst snd];
    [|discriminate].
  rewrite app_nil_l. intros Hf. exact (convert_finish_tables progress _ st _ Hinv Hf).
Qed.

(** C7: When the parser reports the events of a document and the
    conversion ends normally, every Record of the document routes, and
    each record table r... holds exactly the rows of the document's
    Records of its type, type removed and metadata added, in document
    order, however the batches of 200 fell. *)
Theorem convert_record_tables fp progress zf evss doc :
  parser_run pp_init (file_chunks fp) = Ok evss -> concat evss = events_of doc ->
  outcome (convert_xml_to_sqlite fp progress zf) = Ok tt ->
  exists routed, rmap record_route (doc_elements "Record" doc) = Ok routed /\
    forall t, String.prefix "r" t = true ->
      rows_written t (trace_of (convert_xml_to_sqlite fp progress zf)) = rows_for t routed.
Proof. exact (convert_tables_written fp progress zf evss doc). Qed.
End ConvertTables.

Section ConvertLive.
Context `{Collaborators}.

(** An item of the generator the loop handles without raising. *)
Definition item_ok (zf : option archive) (i : gen_item) : Prop :=
  match i with
  | GYield t el => (t = "Record" -> record_ok el) /\ (t = "Workout" -> workout_ok zf el)
  | GProgress _ => True
  end.

Lemma convert_step_Ok zf st item :
  routes st -> item_ok zf item -> exists st', outcome (convert_step zf st item) = Ok st' /\ routes st'.
Proof.
  unfold routes. intros Hst Hi. convert_cases item.
  - destruct (Nat.leb _ _); cbn; eexists; (split; [reflexivity|exact Hst]).
  - destruct Hi as [_ Hw]. rewrite outcome_bind.
    rewrite (workout_to_db_Ok zf _ (workout_ok_set zf "seq" _ el (Hw eq_refl))). cbn.
    eexists; split; [reflexivity|exact Hst].
  - destruct Hi as [Hr _]. destruct (Hr eq_refl) as (r & p & Hrow & Hroute).
    rewrite outcome_bind, Hrow. cbn [lift ret outcome snd].
    assert (Hall : Forall (fun r => exists p, route r = Ok p) (records st ++ [r]))
      by (apply Forall_app; split; [done|repeat constructor; eauto]).
    destruct (Nat.leb 200 (length (records st ++ [r]))).
    + rewrite outcome_bind, (write_records_Ok _ Hall). cbn. eexists; split; [reflexivity|constructor].
    + cbn. eexists; split; [reflexivity|exact Hall].
  - cbn. eexists; split; [reflexivity|exact Hst].
  - cbn. eexists; split; [reflexivity|exact Hst].
Qed.

Lemma convert_finish_Ok progress st : routes st -> outcome (convert_finish progress st) = Ok tt.
Proof.
  unfold routes. intros Hst. unfold convert_finish. rewrite outcome_bind.
  assert (H1 : outcome (match records st with [] => ret tt | recs => write_records recs end) = Ok tt).
  { destruct (records st) as [|r rs] eqn:E; [done|]. apply write_records_Ok. exact Hst. }
  rewrite H1, outcome_bind. by destruct (activity_summaries st), progress.
Qed.

Context `{PP : PullParser}.

(** The program's side of the run ends normally on every document whose
    Records have a string type and well-formed metadata and whose
    Workouts can be stored (row built, points embedded or in side-car
    files that open and parse); the storage calls are its effects. *)
Lemma convert_completes fp progress zf evss doc :
  parser_run pp_init (file_chunks fp) = Ok evss -> concat evss = events_of doc ->
  Forall (fun x => (el_tag x = "Record" -> record_ok x) /\ (el_tag x = "Workout" -> workout_ok zf x))
    (closing_matches TAGS doc) ->
  outcome (convert_xml_to_sqlite fp progress zf) = Ok tt.
Proof.
  intros Hrun Hev Hdoc.
  pose proof (find_all_tags_doc_yielded TAGS fp progress evss doc Hrun Hev) as Hy.
  unfold convert_xml_to_sqlite. cbv zeta.
  rewrite (find_all_tags_doc_Ok TAGS fp progress evss doc Hrun Hev) in Hy |- *. cbn [trace_of outcome fst snd] in Hy |- *.
  assert (Hitems : Forall (item_ok zf) (concat (zip_with (chunk_items TAGS progress) (file_chunks fp) evss))).
  { apply Forall_yielded; [done|]. rewrite Hy. apply Forall_map. exact Hdoc. }
  destruct (mfold_total routes (item_ok zf) (convert_step zf) _ Hitems (convert_step_Ok zf) init_state)
    as (st & Hm & Hst); [constructor|].
  rewrite outcome_bind, Hm. cbn [lift ret outcome snd]. rewrite outcome_bind. cbn.
  by apply convert_finish_Ok.
Qed.
End ConvertLive.

(** ** The consumer on the live elements *)

Section ConvertLiveTree.
Context `{Collaborators}.

(** The consumer's loop and flushes (lines 32-58) over given items. *)
Definition consume (zf : option archive) (progress : bool) (items : list gen_item) : prog unit :=
  st <- mfold (convert_step zf) init_state items;;
  convert_finish progress st.

(** C17: A document that is a single Record with a type is converted by
    the tree specification, but on the live elements the consumer receives
    it emptied and raises KeyError('type') at the final flush. *)
Theorem live_root_record_raises zf progress a cs ys st :
  Forall (fun c => closing_matches TAGS c = []) cs ->
  live_run TAGS [] (tokens_of (Element "Record" a cs)) = Some (st, ys) ->
  outcome (consume zf progress (map (fun e => GYield (el_tag e) e) ys)) = Err (KeyError "type").
Proof.
  intros Hcs Hrun. rewrite (live_doc_leaves TAGS "Record" a cs Hcs) in Hrun.
  injection Hrun as <- <-. by destruct progress.
Qed.

Context `{PP : PullParser}.

(** Without a progress callback, the conversion is the consumer run on
    the elements of interest of the document, whole. *)
Lemma convert_consume fp zf evss doc :
  parser_run pp_init (file_chunks fp) = Ok evss -> concat evss = events_of doc ->
  convert_xml_to_sqlite fp false zf = consume zf false (map (fun e => GYield (el_tag e) e) (closing_matches TAGS doc)).
Proof.
  intros Hrun Hev. unfold convert_xml_to_sqlite, consume.
  rewrite (find_all_tags_doc_silent TAGS fp evss doc Hrun Hev). cbn [trace_of outcome fst snd].
  destruct (mfold _ _ _) as [t [st|e]]; cbn; [|done].
  by destruct (convert_finish false st).
Qed.

(** C18: On an export-shaped document (a root without a tag of interest,
    no element of interest inside another), the conversion without a
    progress callback is the consumer run on the elements the live tree
    builder yields with root.clear() and el.clear(): the memory release
    changes neither the storage calls nor the outcome. *)
Theorem convert_live_pipeline fp zf evss doc :
  parser_run pp_init (file_chunks fp) = Ok evss -> concat evss = events_of doc ->
  el_tag doc ∉ TAGS -> no_nested TAGS doc ->
  exists ys, live_run TAGS [] (tokens_of doc) = Some ([], ys) /\
    convert_xml_to_sqlite fp false zf = consume zf false (map (fun e => GYield (el_tag e) e) ys).
Proof.
  intros Hrun Hev Ht Hn. exists (closing_matches TAGS doc).
  split; [exact (live_run_export TAGS doc Ht Hn)|]. exact (convert_consume fp zf evss doc Hrun Hev).
Qed.
End ConvertLiveTree.
