(* ===== verification/Columns.v ===== *)
(** * Rows have distinct columns

    A Python dict has each key once; the model's rows are association
    lists, so this is a property to prove: every row the program hands
    to the storage layer ([insert] and [insert_all]) has distinct column
    names, when the XML attributes have (an XML element has each
    attribute once) and every GPX point the track parser returns has.
    The rows are built by [dict(el.attrib)], [record[...] = ...],
    [el.set], [record.pop("type")] and [dict(point, workout_id=pk)], all
    of which keep keys distinct. *)

From stdpp Require Import base list strings.
From S2P Require Import Prelude PyDict PyStr Xml Storage Extractor Records Workout Convert.

Local Open Scope string_scope.
Local Open Scope list_scope.

(** Every element of the tree has distinct attribute names. *)
Fixpoint el_wfb (e : element) : bool :=
  match e with
  | Element _ a cs => bool_decide (dict_wf a) && forallb el_wfb cs
  end.

(** The rows of a storage call have distinct columns. *)
Definition rows_ok (e : effect) : Prop :=
  match e with
  | EInsertAll _ rs _ => Forall dict_wf rs
  | EInsert _ r _ => dict_wf r
  | EOpen _ _ | EProgress _ => True
  end.

(** ** Lemmas *)

Lemma el_wfb_Element t a cs :
  el_wfb (Element t a cs) = true <-> dict_wf a /\ Forall (fun c => el_wfb c = true) cs.
Proof.
  cbn [el_wfb]. rewrite andb_true_iff, bool_decide_eq_true, forallb_forall, Forall_forall.
  setoid_rewrite list_elem_of_In. done.
Qed.

Lemma el_wfb_attrib e : el_wfb e = true -> dict_wf (el_attrib e).
Proof. destruct e as [t a cs]. by intros [? _]%el_wfb_Element. Qed.

Lemma el_wfb_children e : el_wfb e = true -> Forall (fun c => el_wfb c = true) (el_children e).
Proof. destruct e as [t a cs]. by intros [_ ?]%el_wfb_Element. Qed.

Lemma el_wfb_set k v e : el_wfb e = true -> el_wfb (el_set k v e) = true.
Proof.
  destruct e as [t a cs]. cbn [el_set]. rewrite !el_wfb_Element.
  intros [Ha Hcs]. split; [by apply dict_set_wf|done].
Qed.

Lemma findall_tag_wf t e : el_wfb e = true -> Forall (fun c => el_wfb c = true) (findall_tag t e).
Proof. intros He. unfold findall_tag. apply Forall_filter_sub, el_wfb_children, He. Qed.

Lemma findall_path_wf a b e :
  el_wfb e = true -> Forall (fun c => el_wfb c = true) (findall_path a b e).
Proof.
  intros He. unfold findall_path. apply List.Forall_flat_map.
  eapply Forall_impl; [exact (findall_tag_wf a e He)|]. intros c Hc. by apply findall_tag_wf.
Qed.

Lemma closing_matches_wf tags e :
  el_wfb e = true -> Forall (fun x => el_wfb x = true) (closing_matches tags e).
Proof.
  induction e as [t a cs IH] using element_ind'. intros He. cbn [closing_matches].
  apply Forall_app. split.
  - apply List.Forall_flat_map. apply el_wfb_Element in He as [_ Hcs].
    apply Forall_forall. intros c Hc. rewrite Forall_forall in IH, Hcs. by apply IH, Hcs.
  - case_decide; repeat constructor; done.
Qed.

Lemma add_metadata_wf r entry r' : dict_wf r -> add_metadata r entry = Ok r' -> dict_wf r'.
Proof.
  unfold add_metadata. destruct (dict_index "value" _) as [v|e]; simpl; [|discriminate].
  destruct (dict_index "key" _) as [[ks| | | |]|e]; simpl; try discriminate.
  intros Hr [= <-]. by apply dict_set_wf.
Qed.

Lemma fold_metadata_wf r el r' : dict_wf r -> fold_metadata r el = Ok r' -> dict_wf r'.
Proof.
  unfold fold_metadata. generalize (findall_tag "MetadataEntry" el) as entries. intros entries.
  revert r. induction entries as [|x xs IH]; intros r Hr; simpl; [by intros [= <-]|].
  destruct (add_metadata r x) as [r1|e] eqn:Ha; simpl; [|discriminate].
  apply IH. by eapply add_metadata_wf.
Qed.

Lemma workout_row_wf w r : el_wfb w = true -> workout_row w = Ok r -> dict_wf r.
Proof.
  intros Hw. unfold workout_row. destruct (fold_metadata _ w) as [r0|e] eqn:Hf; simpl; [|discriminate].
  intros [= <-]. apply dict_set_wf. eapply fold_metadata_wf; [|exact Hf]. by apply el_wfb_attrib.
Qed.

Lemma route_wf r p : dict_wf r -> route r = Ok p -> dict_wf p.2.
Proof.
  destruct p as [t r']. intros Hr (ty & Hp & _)%route_Ok. by eapply dict_pop_wf.
Qed.

Lemma write_records_rows_ok recs : Forall dict_wf recs -> Forall rows_ok (trace_of (write_records recs)).
Proof.
  intros Hrecs. rewrite write_records_eq.
  destruct (rmap route recs) as [routed|e] eqn:Hr; cbn [trace_of fst]; [|constructor].
  assert (Hrouted : Forall (fun p => dict_wf p.2) routed).
  { apply rmap_Ok_Forall2 in Hr. clear -Hr Hrecs.
    induction Hr as [|r p rs ps Hp _ IH]; constructor; inversion Hrecs; subst; [by eapply route_wf|auto]. }
  pose proof (group_into_Forall dict_wf [] routed (List.Forall_nil _) Hrouted) as Hg.
  unfold group_inserts. apply Forall_map. eapply Forall_impl; [exact Hg|]. by intros [t rs].
Qed.

Section ColumnsRun.
Context `{Collaborators}.

(** The track parser returns points with distinct fields. *)
Hypothesis gpx_points_wf : forall text pts, gpx_points text = Ok pts -> Forall dict_wf pts.

Lemma map_set_wf k v (rows : list row) : Forall dict_wf rows -> Forall dict_wf (map (dict_set k v) rows).
Proof. intros Hr. apply Forall_map. eapply Forall_impl; [exact Hr|]. intros r. apply dict_set_wf. Qed.

Lemma read_gpx_points_rows_ok zf pk acc p :
  Forall dict_wf acc -> mspec (Forall dict_wf) rows_ok (read_gpx_points zf pk acc p).
Proof.
  intros Hacc. unfold read_gpx_points.
  apply mspec_bind with (P1 := fun _ => True).
  { unfold open_file_or_zip. destruct zf as [z|];
      (apply mspec_bind with (P1 := fun _ => True); [by apply mspec_emit|]); intros _ _;
      repeat case_match; auto with h2s. }
  intros text _. apply mspec_bind with (P1 := Forall dict_wf).
  - apply mspec_lift. intros pts Hp%parse_gpx_Ok. exact (gpx_points_wf _ _ Hp).
  - intros pts Hpts. apply mspec_ret. apply Forall_app. split; [done|]. by apply map_set_wf.
Qed.

Lemma workout_to_db_rows_ok w zf : el_wfb w = true -> mspec (fun _ => True) rows_ok (workout_to_db w zf).
Proof.
  intros Hw. unfold workout_to_db.
  apply mspec_bind with (P1 := dict_wf); [apply mspec_lift; intros a Ha; exact (workout_row_wf w a Hw Ha)|].
  intros r Hr. apply mspec_bind with (P1 := fun _ => True).
  { unfold db_insert. apply mspec_bind with (P1 := fun _ => True); [by apply mspec_emit|].
    intros _ _. by apply mspec_ret. }
  intros pk _. apply mspec_bind with (P1 := Forall dict_wf).
  - assert (He : Forall dict_wf (embedded_points pk w)).
    { unfold embedded_points. apply Forall_map.
      eapply Forall_impl; [exact (findall_path_wf "WorkoutRoute" "Location" w Hw)|].
      intros x Hx. apply dict_set_wf. by apply el_wfb_attrib. }
    destruct (embedded_points pk w) as [|p ps]; [|by apply mspec_ret].
    apply mspec_bind with (P1 := fun _ => True); [by apply mspec_lift|]. intros paths _.
    apply mspec_mfold; [constructor|]. intros acc p Hacc _. by apply read_gpx_points_rows_ok.
  - intros points Hpoints. destruct points as [|p ps]; [by apply mspec_ret|]. by apply mspec_emit.
Qed.

(** The buffered rows have distinct columns. *)
Definition buffers_wf (st : conv_state) : Prop :=
  Forall dict_wf (activity_summaries st) /\ Forall dict_wf (records st).

Definition item_wf (i : gen_item) : Prop :=
  match i with GYield _ el => el_wfb el = true | GProgress _ => True end.

Lemma convert_step_rows_ok zf st item :
  buffers_wf st -> item_wf item -> mspec buffers_wf rows_ok (convert_step zf st item).
Proof.
  intros [Hs Hr] Hi. destruct item as [tag el|n]; cbn [convert_step item_wf] in *.
  - assert (Ha : Forall dict_wf (activity_summaries st ++ [el_attrib el]))
      by (apply Forall_app; split; [done|constructor; [by apply el_wfb_attrib|done]]).
    destruct (String.eqb tag "ActivitySummary").
    { destruct (Nat.leb _ _).
      - apply mspec_bind with (P1 := fun _ => True); [by apply mspec_emit|].
        intros _ _. apply mspec_ret. by split.
      - apply mspec_ret. by split. }
    destruct (String.eqb tag "Workout").
    { apply mspec_bind with (P1 := fun _ => True); [by apply workout_to_db_rows_ok, el_wfb_set|].
      intros _ _. apply mspec_ret. by split. }
    destruct (String.eqb tag "Record"); [|apply mspec_ret; by split].
    apply mspec_bind with (P1 := dict_wf).
    { apply mspec_lift. intros r. apply fold_metadata_wf. by apply el_wfb_attrib. }
    intros record Hrec.
    assert (Hrs : Forall dict_wf (records st ++ [record])) by (apply Forall_app; split; [done|by constructor]).
    destruct (Nat.leb _ _).
    + apply mspec_bind with (P1 := fun _ => True).
      * split; [by apply write_records_rows_ok|done].
      * intros _ _. apply mspec_ret. by split.
    + apply mspec_ret. by split.
  - apply mspec_bind with (P1 := fun _ => True); [by apply mspec_emit|].
    intros _ _. apply mspec_ret. by split.
Qed.

Lemma convert_finish_rows_ok progress st :
  buffers_wf st -> mspec (fun _ => True) rows_ok (convert_finish progress st).
Proof.
  intros [Hs Hr]. unfold convert_finish.
  apply mspec_bind with (P1 := fun _ => True).
  { destruct (records st) as [|r rs] eqn:Hrs; [by apply mspec_ret|].
    split; [by apply write_records_rows_ok|done]. }
  intros _ _. apply mspec_bind with (P1 := fun _ => True).
  { destruct (activity_summaries st) as [|x xs] eqn:Hss; [by apply mspec_ret|]. by apply mspec_emit. }
  intros _ _. destruct progress; [by apply mspec_emit|by apply mspec_ret].
Qed.

Lemma Forall_item_wf_yielded l : Forall item_wf (yielded l) -> Forall item_wf l.
Proof.
  unfold yielded. induction l as [|[t el|n] l IH]; rewrite ?filter_cons; simpl; [done| |].
  - intros Hl. inversion Hl; subst. constructor; auto.
  - intros Hl. constructor; auto. done.
Qed.

Context `{PP : PullParser}.

(** In every run on a document whose elements have distinct attribute
    names, however the run ends, every row handed to insert or insert_all
    has distinct column names, when the track parser's points have
    distinct fields. *)
Theorem convert_rows_distinct_columns fp progress zf evss doc :
  parser_run pp_init (file_chunks fp) = Ok evss -> concat evss = events_of doc -> el_wfb doc = true ->
  Forall rows_ok (trace_of (convert_xml_to_sqlite fp progress zf)).
Proof.
  intros Hrun Hev Hdoc.
  assert (Hitems : Forall item_wf (trace_of (find_all_tags TAGS fp progress))).
  { apply Forall_item_wf_yielded. rewrite (find_all_tags_doc_yielded TAGS fp progress evss doc Hrun Hev).
    apply Forall_map. exact (closing_matches_wf TAGS doc Hdoc). }
  enough (Hm : mspec (fun _ => True) rows_ok (convert_xml_to_sqlite fp progress zf)) by exact (proj1 Hm).
  unfold convert_xml_to_sqlite.
  apply mspec_bind with (P1 := buffers_wf).
  - apply mspec_mfold; [split; constructor|]. intros st item Hst Hin.
    apply convert_step_rows_ok; [done|]. rewrite Forall_forall in Hitems. apply Hitems.
    by apply list_elem_of_In.
  - intros st Hst. apply mspec_bind with (P1 := fun _ => True); [by apply mspec_lift|].
    intros _ _. by apply convert_finish_rows_ok.
Qed.
End ColumnsRun.
