(* ===== verification/Database.v ===== *)
(** * The program against the storage layer

    The program's storage calls ([Storage.effect]) run against the model
    of sqlite-utils and SQLite ([SqliteUtils]): what the options the code
    passes ([alter=True] for workouts and record tables, none for
    [workout_points] and [activity_summary]; [batch_size=50] for points
    and records) mean for the database and for the run.

    - Record tables grow a column for every new field: [write_records]
      never meets a schema conflict, and each table receives the batch's
      rows for it (schema on write, as the specification asks).
    - [workout_points] has no [alter=True]: the table keeps the columns
      of the first points written, and a later workout whose points have
      a field those lacked makes the run raise [OperationalError], after
      its workout row was stored.
    - The storage cuts every call into INSERT statements of at most 50
      rows (100 for [activity_summary]).
    - After a run that ends without an error, the record tables of the
      database hold exactly the document's Records of their type.
    - A Record with nothing but its type, first of its batch, makes
      sqlite-utils divide by zero ([999 // 0]).
    - The workouts' [hash_id] keys never collide in a run into a new
      database: the [seq] the loop sets tells identical workouts apart.
    - A whole run on an export-shaped document, on the elements the
      live builder yields, ends normally and the storage accepts all of
      it, when the rows of [workout_points] share one key set and so do
      those of [activity_summary] ([tables_fit] is the invariant of the
      database along the run, [apply_effect_fits] the step). *)

From stdpp Require Import base list strings sets.
From Stdlib Require Import ZArith.
From S2P Require Import Prelude PyDict PyStr Xml Storage SqliteUtils Extractor LiveTree Records Workout Convert.

Local Open Scope string_scope.
Local Open Scope list_scope.

(** ** The points of a workout *)

(** A computation of the program run against the database [d]: its
    storage calls in order, until one raises; the database they leave
    and the storage error the program receives. *)
Definition run_storage `{Collaborators} {A} (d : database) (m : prog A) : database * option exn :=
  db_exec d (trace_of m).

Section Points.
Context `{Collaborators}.

Definition is_open (e : effect) : Prop := match e with EOpen _ _ => True | _ => False end.

Lemma is_open_neutral e : is_open e -> db_neutral e.
Proof. by destruct e. Qed.

Lemma open_file_or_zip_opens zf p : mspec (fun _ => True) is_open (open_file_or_zip zf p).
Proof.
  destruct zf as [z|]; unfold open_file_or_zip;
    (apply mspec_bind with (P1 := fun _ => True); [by apply mspec_emit|]); intros _ _;
    repeat case_match; auto with h2s.
Qed.

Lemma workout_points_opens w zf pk :
  mspec (fun _ => True) is_open
    (match embedded_points pk w with
     | [] =>
         gpx_files <- lift (rmap gpx_path (findall_path "WorkoutRoute" "FileReference" w));;
         mfold (read_gpx_points zf pk) [] gpx_files
     | points => ret points
     end).
Proof.
  destruct (embedded_points pk w) as [|p ps]; [|by apply mspec_ret].
  apply mspec_bind with (P1 := fun _ => True); [by apply mspec_lift|]. intros paths _.
  apply mspec_mfold; [done|]. intros points path _ _. unfold read_gpx_points.
  apply mspec_bind with (P1 := fun _ => True); [apply open_file_or_zip_opens|]. intros text _.
  apply mspec_bind with (P1 := fun _ => True); [by apply mspec_lift|]. intros pts _. by apply mspec_ret.
Qed.

(** A run of [workout_to_db] that writes points: the workout row, the
    side-car files opened, then the one call on [workout_points]. *)
Lemma workout_to_db_points_trace w zf pts o :
  In (EInsertAll "workout_points" pts o) (trace_of (workout_to_db w zf)) ->
  exists r mid, workout_row w = Ok r /\ Forall is_open mid /\ o = points_opts /\
    trace_of (workout_to_db w zf) =
      EInsert "workouts" r workout_opts :: mid ++ [EInsertAll "workout_points" pts points_opts].
Proof.
  destruct (workout_row w) as [r|e] eqn:Hr; [|unfold workout_to_db; by rewrite Hr].
  rewrite (workout_to_db_row w zf r Hr), db_insert_eq, bind_Ok_eq. cbv beta.
  pose proof (workout_points_opens w zf (db_insert_pk "workouts" r)) as [Hmid _].
  destruct (match embedded_points _ w with [] => _ | _ => _ end) as [mid [[|p ps]|e]];
    cbn [trace_of outcome fst snd bind ret db_insert_all emit] in Hmid |- *;
    rewrite ?app_nil_r; intros [Hx|Hin]; try discriminate; cbn [app] in Hin |- *; rewrite Forall_forall in Hmid.
  - apply list_elem_of_In, Hmid in Hin. done.
  - apply in_app_or in Hin as [Hin|Hin]; [apply list_elem_of_In, Hmid in Hin; done|].
    cbn in Hin. destruct Hin as [[= <- <-]|[]].
    exists r, mid. rewrite Forall_forall. by split_and!.
  - apply list_elem_of_In, Hmid in Hin. done.
Qed.

Lemma point_rows_width pk pts : Forall (point_of pk) pts -> Forall (fun p => 0 < length (dict_keys p)) pts.
Proof.
  intros Hpts. eapply Forall_impl; [exact Hpts|]. intros p Hp%dict_get_Some_elem.
  destruct (dict_keys p); [set_solver|cbn; lia].
Qed.

(** C24: workout_points is written without alter=True, so the table keeps
    the columns of the first points stored in it. When a workout's points
    carry a field the table lacks (a workout with side-car GPX points
    after one with embedded Location points, or the other way round), the
    run raises SQLite's OperationalError('table workout_points has no
    column named ...') naming a column the table lacks, after the
    workout's row was stored. *)
Theorem workout_to_db_unseen_point_column w zf r pts d tb :
  workout_row w = Ok r ->
  In (EInsertAll "workout_points" pts points_opts) (trace_of (workout_to_db w zf)) ->
  snd (insert_all "workouts" [r] workout_opts d) = None ->
  dict_get "workout_points" d = Some tb ->
  Forall (fun p => length (dict_keys p) <= SQLITE_MAX_VARS) pts ->
  (exists p x, p ∈ pts /\ x ∈ dict_keys p /\ x ∉ tbl_columns tb) ->
  exists x, (x ∉ tbl_columns tb) /\
    snd (run_storage d (workout_to_db w zf)) = Some (no_column "workout_points" x).
Proof.
  intros Hr Hin Hw Ht Hwid Hx. unfold run_storage.
  destruct (workout_to_db_points_trace w zf pts points_opts Hin) as (r' & mid & Hr' & Hmid & _ & Htr).
  rewrite Hr in Hr'. injection Hr' as <-.
  assert (Hpk : Forall (point_of (db_insert_pk "workouts" r)) pts).
  { destruct (workout_to_db_shape w zf) as [[Hnil _]|(r' & rest & Hr' & Htr' & Hrest)];
      [by rewrite Hnil in Hin|].
    rewrite Hr in Hr'. injection Hr' as <-. rewrite Htr' in Hin. destruct Hin as [|Hin]; [discriminate|].
    rewrite Forall_forall in Hrest. apply list_elem_of_In, Hrest in Hin. by destruct Hin as (_ & _ & _ & ?). }
  rewrite Htr. cbn [db_exec apply_effect].
  destruct (insert_all "workouts" [r] workout_opts d) as [d1 [e|]] eqn:Hi; [discriminate|].
  apply insert_all_Ok in Hi as [_ Ho].
  rewrite db_exec_app, db_exec_neutral by (eapply Forall_impl; [exact Hmid|apply is_open_neutral]).
  cbn [db_exec apply_effect].
  destruct (insert_all_unseen "workout_points" points_opts eq_refl eq_refl pts d1 tb) as (x & Hxn & Hx').
  - by rewrite Ho.
  - intros p0 ps' ->. apply point_rows_width in Hpk.
    apply Forall_cons_1 in Hpk as [Hp0 _]. apply Forall_cons_1 in Hwid as [Hw0 _]. lia.
  - done.
  - exists x. split; [done|].
    destruct (insert_all "workout_points" pts points_opts d1) as [d2 [e|]]; cbn in Hx' |- *; congruence.
Qed.
End Points.

(** ** Record tables: schema on write *)

Section RecordTables.
Context `{Collaborators}.

Lemma elem_of_rows_for t r routed : r ∈ rows_for t routed -> (t, r) ∈ routed.
Proof.
  unfold rows_for. intros ([t' r'] & -> & [Ht Hin]%list_elem_of_filter)%list_elem_of_fmap.
  cbn in Ht |- *. by subst.
Qed.

(** One [insert_all] with [alter=True] per table, tables distinct: every
    call goes through and every column of its rows ends up in its table;
    the other tables are untouched. *)
Lemma db_exec_alter_calls (ts : list string) (f : string -> list row) o d :
  opt_alter o = true -> opt_hash_id o = None -> NoDup ts ->
  (forall t r0 rs', t ∈ ts -> f t = r0 :: rs' -> 0 < length (dict_keys r0) <= SQLITE_MAX_VARS) ->
  exists d', db_exec d (map (fun t => EInsertAll t (f t) o) ts) = (d', None) /\
    (forall t r x, t ∈ ts -> r ∈ f t -> x ∈ dict_keys r -> x ∈ table_columns t d') /\
    (forall t, t ∉ ts -> dict_get t d' = dict_get t d).
Proof.
  intros Ha Hh Hnd. revert d. induction Hnd as [|t ts Ht Hnd IH]; intros d Hw; cbn [map db_exec apply_effect].
  - exists d. split_and!; [done|set_solver|done].
  - destruct (insert_all_alter t o Ha Hh (f t) d) as (d1 & Hi & Hcols).
    { intros r0 rs' Hf. apply (Hw t r0 rs'); [set_solver|done]. }
    rewrite Hi. pose proof (insert_all_Ok _ _ _ _ _ Hi) as [_ Ho].
    destruct (IH d1) as (d' & Hex & Hc' & Hn'); [intros t' r0 rs' Ht'; apply Hw; set_solver|].
    exists d'. split_and!; [done| |].
    + intros t' r x [->|Ht']%elem_of_cons Hr Hx; [|by eapply Hc'].
      unfold table_columns. rewrite Hn' by done. by apply (Hcols r).
    + intros t' Ht'. rewrite Hn' by set_solver. apply Ho. set_solver.
Qed.

Lemma write_records_calls records routed :
  rmap route records = Ok routed ->
  trace_of (write_records records) =
    map (fun t => EInsertAll t (rows_for t routed) records_opts) (new_keys [] (map fst routed)).
Proof.
  intros Hr. rewrite write_records_eq, Hr, group_into_ref. cbn [trace_of fst].
  unfold group_inserts, group_ref, rows_for. by rewrite map_map.
Qed.

Lemma new_keys_NoDup (routed : list (string * row)) : NoDup (new_keys [] (map fst routed)).
Proof.
  pose proof (group_into_wf [] routed ltac:(constructor)) as Hwf. unfold dict_wf in Hwf.
  by rewrite group_into_dict_keys in Hwf.
Qed.

(** C31: write_records asks for alter=True, so a flush never meets a
    schema conflict: on any database, when every routed row has between
    one and 999 columns, the storage accepts every call, each table
    receives the batch's rows for it after those it had, and every column
    of those rows exists in the table afterwards (schema on write). *)
Theorem write_records_schema_on_write records routed d :
  rmap route records = Ok routed ->
  Forall (fun p => 0 < length (dict_keys p.2) <= SQLITE_MAX_VARS) routed ->
  exists d', run_storage d (write_records records) = (d', None) /\
    forall t, table_rows t d' = table_rows t d ++ rows_for t routed /\
      forall r x, r ∈ rows_for t routed -> x ∈ dict_keys r -> x ∈ table_columns t d'.
Proof.
  intros Hr Hw. unfold run_storage. rewrite (write_records_calls records routed Hr).
  destruct (db_exec_alter_calls (new_keys [] (map fst routed)) (fun t => rows_for t routed) records_opts d
              eq_refl eq_refl (new_keys_NoDup routed)) as (d' & Hex & Hcols & _).
  { intros t r0 rs' _ Hf. assert (Hin : r0 ∈ rows_for t routed) by (rewrite Hf; set_solver).
    apply elem_of_rows_for in Hin. rewrite Forall_forall in Hw. exact (Hw _ Hin). }
  exists d'. split; [done|]. intros t. split.
  - rewrite (db_exec_Ok _ _ _ Hex t), rows_stored_plain, <- (write_records_calls records routed Hr).
    + by rewrite (write_records_rows_for records routed t Hr).
    + apply Forall_forall. intros e (t' & -> & _)%list_elem_of_fmap. done.
  - intros r x Hr' Hx. apply (Hcols t r x); [|done|done].
    apply elem_of_rows_for in Hr'. apply elem_of_new_keys. split; [|set_solver].
    apply list_elem_of_fmap. by exists (t, r).
Qed.
(** C34: A batch whose first Record has no attribute but its type makes
    the flush raise ZeroDivisionError inside sqlite-utils (batch size 999
    // 0) before anything of the batch is written: the row for its table
    has no column once type is popped. *)
Theorem write_records_type_only records routed t rest d :
  rmap route records = Ok routed -> routed = (t, []) :: rest ->
  run_storage d (write_records records) =
    (d, Some (ZeroDivisionError "integer division or modulo by zero")).
Proof.
  intros Hr ->. unfold run_storage. rewrite (write_records_calls records _ Hr). cbn [map fst new_keys].
  rewrite decide_False by set_solver. cbn [map db_exec apply_effect].
  unfold rows_for. rewrite filter_cons_True by done. reflexivity.
Qed.
End RecordTables.

(** ** Whole runs *)

Section Runs.
Context `{Collaborators}.

(** The INSERT statements of a storage call of the conversion. *)
Definition statements_ok (e : effect) : Prop :=
  match e with
  | EInsertAll t rs _ =>
      concat (statements e) = rs /\
      Forall (fun c => 0 < length c <= if String.eqb t "activity_summary" then 100 else 50) (statements e)
  | EInsert _ r _ => statements e = [[r]]
  | EOpen _ _ | EProgress _ => statements e = []
  end.

(** The statements of a call that [batch_ok] allows, given the batch
    sizes of the three option sets. *)
Lemma batch_ok_statements e :
  0 < opt_batch_size default_opts <= 100 -> 0 < opt_batch_size points_opts <= 50 ->
  0 < opt_batch_size records_opts <= 50 -> batch_ok e -> statements_ok e.
Proof.
  intros Hd Hp Hr. destruct e as [t rs o|t r o|z p|n]; cbn [batch_ok statements_ok statements];
    [|intros _; apply insert_batches_one|done|done].
  intros Hb. split; [apply insert_batches_concat|].
  destruct (String.eqb_spec t "activity_summary") as [->|_];
    [|destruct (String.eqb_spec t "workout_points") as [->|_]];
    [destruct Hb as (_ & _ & ->)|subst o|destruct Hb as (_ & _ & ->)];
    match goal with |- Forall _ (insert_batches ?o rs) =>
      eapply Forall_impl; [apply (insert_batches_sizes o rs); lia|]; cbv beta; intros c Hc; lia end.
Qed.

Lemma batch_ok_insert_all t rs o : batch_ok (EInsertAll t rs o) -> opt_hash_id o = None.
Proof.
  cbn [batch_ok]. destruct (String.eqb_spec t "activity_summary") as [->|_]; [by intros (_ & _ & ->)|].
  destruct (String.eqb_spec t "workout_points"); [by intros ->|by intros (_ & _ & ->)].
Qed.

(** The record tables see no digest column. *)
Lemma batch_ok_plain t e : String.prefix "r" t = true -> batch_ok e -> plain_for t e.
Proof.
  intros Ht. destruct e as [t' rs o|t' r o|z p|n]; cbn [plain_for]; try done.
  - intros Hb _. exact (batch_ok_insert_all _ _ _ Hb).
  - intros [-> _] <-. discriminate.
Qed.

Context `{PP : PullParser}.

(** C4: The storage cuts every call of a run into INSERT statements that
    hold the call's rows in order: at most 50 rows each for workout_points
    and the record tables (batch_size=50), at most 100 for
    activity_summary (the default batch size), one for a workout; fewer
    when the first row is wide (999 // its width). *)
Theorem convert_statement_bounds fp progress zf :
  Forall statements_ok (trace_of (convert_xml_to_sqlite fp progress zf)).
Proof.
  eapply Forall_impl; [apply convert_calls_ok|]. intros e. apply batch_ok_statements; cbn; lia.
Qed.

(** C8: After a run on an export that ends without an error, from the
    program or from the storage, the database's record tables hold exactly
    the document's Records of their type, type removed and metadata added,
    in document order. *)
Theorem convert_db_record_tables fp progress zf evss doc d :
  parser_run pp_init (file_chunks fp) = Ok evss -> concat evss = events_of doc ->
  outcome (convert_xml_to_sqlite fp progress zf) = Ok tt ->
  run_storage [] (convert_xml_to_sqlite fp progress zf) = (d, None) ->
  exists routed, rmap record_route (doc_elements "Record" doc) = Ok routed /\
    forall t, String.prefix "r" t = true -> table_rows t d = rows_for t routed.
Proof.
  intros Hrun Hev Hok Hex.
  destruct (convert_tables_written fp progress zf evss doc Hrun Hev Hok) as (routed & Hr & Hw).
  exists routed. split; [done|]. intros t Ht.
  rewrite (db_exec_Ok _ _ _ Hex t), rows_stored_plain; [rewrite (Hw t Ht); reflexivity|].
  eapply Forall_impl; [apply convert_calls_ok|]. intros e. exact (batch_ok_plain t e Ht).
Qed.
End Runs.

(** ** The keys of the workouts *)

Section WorkoutKeys.
Context `{Collaborators}.

(** The [seq] column of a row. *)
Definition seq_of (r : row) : value := default VNone (dict_get "seq" r).

(** In a run only the workout rows carry a digest, so only they can
    violate a key: when their digest is already in [workouts]. *)
Lemma apply_effect_integrity e d d' w :
  batch_ok e -> apply_effect e d = (d', Some (IntegrityError w)) ->
  exists r, e = EInsert "workouts" r workout_opts /\
    ~ NoDup (key_values "id" (table_rows "workouts" d ++ [stamp "workouts" workout_opts r])).
Proof.
  destruct e as [t rs o|t r o|z p|n]; cbn [apply_effect]; try discriminate.
  - intros Hb Hi. exfalso. exact (insert_all_plain_integrity t rs o d d' w (batch_ok_insert_all _ _ _ Hb) Hi).
  - intros [-> ->] Hi. apply insert_all_one_integrity in Hi as (h & [= <-] & Hn). by exists r.
Qed.

(** The rows stored into [workouts] are the workout rows of the trace
    with their digest, and their [seq] values are [workout_seqs]. *)
Lemma workout_rows_batch_ok tr :
  Forall batch_ok tr ->
  rows_stored "workouts" tr = map (stamp "workouts" workout_opts) (rows_written "workouts" tr) /\
  workout_seqs tr = map seq_of (rows_written "workouts" tr).
Proof.
  induction 1 as [|[t rs o|t r o|z p|n] tr Hb _ [IH1 IH2]]; cbn [rows_stored rows_written workout_seqs];
    [done| | |done|done].
  - destruct (String.eqb_spec t "workouts") as [->|_]; [|done]. exfalso. cbn in Hb.
    destruct Hb as [Hp _]. discriminate.
  - destruct Hb as [-> ->]. cbn. by rewrite IH1, IH2.
Qed.

Lemma key_values_stamp rs :
  key_values "id" (map (stamp "workouts" workout_opts) rs) = map (db_insert_pk "workouts") rs.
Proof. induction rs as [|r rs IH]; [done|]. cbn. by rewrite <- IH. Qed.

Lemma seq_from_NoDup z n : NoDup (seq_from z n).
Proof.
  unfold seq_from. apply NoDup_fmap_2; [|apply NoDup_seq]. intros i j [= Hij]. lia.
Qed.

Context `{PP : PullParser}.

(** C2: Two Workout elements with the same attributes would get the same
    hash_id key; the seq the loop sets makes the rows distinct, so with a
    digest that tells rows apart, a run into a new database never raises
    IntegrityError on the workouts' key. *)
Theorem convert_workout_keys_unique fp progress zf w :
  (forall r1 r2, db_insert_pk "workouts" r1 = db_insert_pk "workouts" r2 -> r1 = r2) ->
  snd (run_storage [] (convert_xml_to_sqlite fp progress zf)) <> Some (IntegrityError w).
Proof.
  intros Hinj Hex. unfold run_storage in Hex.
  destruct (db_exec [] _) as [d' oe] eqn:He; cbn in Hex; subst oe.
  pose proof (convert_seqs fp progress zf) as [n Hseq].
  pose proof (convert_calls_ok fp progress zf) as Hb.
  apply db_exec_Err in He as (tr1 & x & tr2 & d1 & Htr & Hex1 & Hx). rewrite Htr in Hb, Hseq.
  apply Forall_app in Hb as [Hb1 [Hbx _]%Forall_cons_1].
  destruct (apply_effect_integrity x d1 d' w Hbx Hx) as (r & -> & Hn). apply Hn.
  destruct (workout_rows_batch_ok tr1 Hb1) as [Hst Hsq].
  rewrite (db_exec_Ok _ _ _ Hex1 "workouts"), Hst. cbn [table_rows dict_get app].
  change [stamp "workouts" workout_opts r] with (map (stamp "workouts" workout_opts) [r]).
  rewrite <- map_app, key_values_stamp. apply NoDup_fmap_2; [intros r1 r2; apply Hinj|].
  apply (NoDup_fmap_1 seq_of). change (NoDup (map seq_of (rows_written "workouts" tr1 ++ [r]))).
  rewrite map_app, <- Hsq.
  pose proof (seq_from_NoDup (workout_id init_state) n) as Hnd. rewrite <- Hseq, workout_seqs_app in Hnd.
  apply NoDup_app in Hnd as (Hnd1 & Hdisj & Hnd2). cbn in Hnd2 |- *.
  apply NoDup_app. split_and!; [done| |by apply NoDup_singleton].
  intros v Hv ->%list_elem_of_singleton. apply (Hdisj _ Hv). set_solver.
Qed.
End WorkoutKeys.

(** ** Whole runs that the storage accepts *)

Section Complete.
Context `{Collaborators}.

(** A row whose keys are exactly [K], as a set. *)
Definition same_keys (K : list string) (r : row) : Prop := dict_keys r ⊆ K /\ K ⊆ dict_keys r.

(** The rows of a call fit the storage: between one and 999 columns
    each, and for the two tables written without [alter=True] the keys
    [Kp] ([workout_points]) and [Ka] ([activity_summary]). *)
Definition call_fits (Kp Ka : list string) (e : effect) : Prop :=
  match e with
  | EInsertAll t rs _ =>
      Forall (fun r => 0 < length (dict_keys r) <= SQLITE_MAX_VARS) rs /\
      (t = "workout_points" -> Forall (same_keys Kp) rs) /\
      (t = "activity_summary" -> Forall (same_keys Ka) rs)
  | EInsert _ r _ => 0 < length (dict_keys r) <= SQLITE_MAX_VARS
  | EOpen _ _ | EProgress _ => True
  end.

#[export] Instance call_fits_dec Kp Ka e : Decision (call_fits Kp Ka e).
Proof. destruct e; cbn [call_fits]; unfold same_keys; apply _. Defined.

(** What the tables of the run must have for the next call: the point
    and summary columns, and the digest column of [workouts]. *)
Definition table_fits (Kp Ka : list string) (t : string) (tb : table) : Prop :=
  (t = "workout_points" -> Kp ⊆ tbl_columns tb) /\ (t = "activity_summary" -> Ka ⊆ tbl_columns tb) /\
  (t = "workouts" -> "id" ∈ tbl_columns tb).

Definition tables_fit (Kp Ka : list string) (d : database) : Prop :=
  forall t tb, dict_get t d = Some tb -> table_fits Kp Ka t tb.

Lemma tables_fit_call Kp Ka t d d' :
  tables_fit Kp Ka d -> (forall t', t' <> t -> dict_get t' d' = dict_get t' d) ->
  (forall tb, dict_get t d' = Some tb -> table_fits Kp Ka t tb) -> tables_fit Kp Ka d'.
Proof.
  intros Hd Ho Ht t' tb. destruct (decide (t' = t)) as [->|Hne]; [apply Ht|rewrite Ho by done; apply Hd].
Qed.

Lemma key_values_app h rs1 rs2 : key_values h (rs1 ++ rs2) = key_values h rs1 ++ key_values h rs2.
Proof. apply omap_app. Qed.

Lemma Forall_widths (rs : list row) :
  Forall (fun r => 0 < length (dict_keys r) <= SQLITE_MAX_VARS) rs ->
  forall r0 rs', rs = r0 :: rs' -> 0 < length (dict_keys r0) <= SQLITE_MAX_VARS.
Proof. intros Hw r0 rs' ->. by apply Forall_cons_1 in Hw as [? _]. Qed.

(** One call of a run, on tables that fit it and with a new digest for
    a workout, goes through and leaves tables that fit. *)
Lemma apply_effect_fits Kp Ka e d :
  opt_alter workout_opts = true -> batch_ok e -> call_fits Kp Ka e -> tables_fit Kp Ka d ->
  NoDup (key_values "id" (table_rows "workouts" d ++
                          map (stamp "workouts" workout_opts) (rows_written "workouts" [e]))) ->
  exists d', apply_effect e d = (d', None) /\ tables_fit Kp Ka d'.
Proof.
  intros Hwa Hb Hc Hd Hnd. destruct e as [t rs o|t r o|z p|n]; cbn [apply_effect]; [| |by exists d..].
  - destruct Hc as (Hw & Hp & Ha). pose proof (Forall_widths rs Hw) as Hw0. cbn [batch_ok] in Hb.
    destruct (String.eqb_spec t "activity_summary") as [->|Hna];
      [|destruct (String.eqb_spec t "workout_points") as [->|Hnp]].
    + destruct Hb as (_ & _ & ->).
      destruct (insert_all_fits "activity_summary" default_opts Ka eq_refl rs d) as (d' & Hi & HK);
        [intros tb Ht; by apply (Hd _ tb Ht)|apply Forall_forall, Ha; done|done|].
      exists d'. split; [done|]. apply (tables_fit_call _ _ "activity_summary" d); [done|apply (insert_all_Ok _ _ _ _ _ Hi)|].
      intros tb Ht. split_and!; [discriminate|intros _; by apply HK|discriminate].
    + subst o.
      destruct (insert_all_fits "workout_points" points_opts Kp eq_refl rs d) as (d' & Hi & HK);
        [intros tb Ht; by apply (Hd _ tb Ht)|apply Forall_forall, Hp; done|done|].
      exists d'. split; [done|]. apply (tables_fit_call _ _ "workout_points" d); [done|apply (insert_all_Ok _ _ _ _ _ Hi)|].
      intros tb Ht. split_and!; [intros _; by apply HK|discriminate|discriminate].
    + destruct Hb as (Hr & _ & ->).
      destruct (insert_all_alter t records_opts eq_refl eq_refl rs d Hw0) as (d' & Hi & _).
      exists d'. split; [done|]. apply (tables_fit_call _ _ t d); [done|apply (insert_all_Ok _ _ _ _ _ Hi)|].
      intros tb _. split_and!; [done|done|]. by intros Hw'%(prefix_r_ne_workouts t Hr).
  - destruct Hb as [-> ->]. cbn [rows_written String.eqb] in Hnd. rewrite app_nil_r in Hnd.
    destruct (insert_all_one_keyed "workouts" workout_opts "id" r d Hwa eq_refl Hc) as (d' & Hi & Hid);
      [intros tb Ht; by apply (Hd _ tb Ht)|done|].
    exists d'. split; [done|]. apply (tables_fit_call _ _ "workouts" d); [done|apply (insert_all_Ok _ _ _ _ _ Hi)|].
    intros tb Ht. split_and!; [discriminate|discriminate|intros _; by apply Hid].
Qed.
(** A trace of such calls, on tables that fit it, whose workout digests
    are all new, goes through. *)
Lemma db_exec_fits Kp Ka tr d :
  opt_alter workout_opts = true -> Forall batch_ok tr -> Forall (call_fits Kp Ka) tr -> tables_fit Kp Ka d ->
  NoDup (key_values "id" (table_rows "workouts" d ++
                          map (stamp "workouts" workout_opts) (rows_written "workouts" tr))) ->
  exists d', db_exec d tr = (d', None).
Proof.
  intros Hwa Hb. revert d. induction Hb as [|e tr He Hb IH]; intros d Hc Hd Hnd; [by exists d|].
  apply Forall_cons_1 in Hc as [Hce Hc]. cbn [db_exec].
  change (e :: tr) with ([e] ++ tr) in Hnd. rewrite rows_written_app, map_app, app_assoc in Hnd.
  destruct (apply_effect_fits Kp Ka e d Hwa He Hce Hd) as (d1 & Happ & Hd1).
  { rewrite key_values_app in Hnd. by apply NoDup_app in Hnd as [? _]. }
  rewrite Happ. apply (IH d1 Hc Hd1).
  assert (Hex : db_exec d [e] = (d1, None)) by (cbn [db_exec]; by rewrite Happ).
  rewrite (db_exec_Ok _ _ _ Hex "workouts"), (proj1 (workout_rows_batch_ok [e] (Forall_cons_2 _ _ _ He (Forall_nil_2 _)))).
  exact Hnd.
Qed.

(** With a digest that tells rows apart, the workouts of a trace whose
    [seq] values are consecutive have distinct digests. *)
Lemma workout_digests_NoDup tr z n :
  (forall r1 r2, db_insert_pk "workouts" r1 = db_insert_pk "workouts" r2 -> r1 = r2) ->
  Forall batch_ok tr -> workout_seqs tr = seq_from z n ->
  NoDup (key_values "id" (map (stamp "workouts" workout_opts) (rows_written "workouts" tr))).
Proof.
  intros Hinj Hb Hseq. rewrite key_values_stamp. apply NoDup_fmap_2; [intros r1 r2; apply Hinj|].
  apply (NoDup_fmap_1 seq_of). change (NoDup (map seq_of (rows_written "workouts" tr))).
  rewrite <- (proj2 (workout_rows_batch_ok tr Hb)), Hseq. apply seq_from_NoDup.
Qed.

Context `{PP : PullParser}.

(** C5: On an export-shaped document (a root without a tag of interest, no
    element of interest inside another) whose Records have a string type
    and well-formed metadata and whose Workouts can be stored, the run
    without a progress callback, on the elements the live tree builder
    yields, ends normally and the storage accepts every call of it into a
    new database, when the digest of a workout tells rows apart, every row
    has between one and 999 columns, and the rows written into
    workout_points and into activity_summary, the two tables without
    alter=True, each have one set of keys. *)
Theorem convert_completes_storage fp zf evss doc Kp Ka :
  parser_run pp_init (file_chunks fp) = Ok evss -> concat evss = events_of doc ->
  el_tag doc ∉ TAGS -> no_nested TAGS doc ->
  Forall (fun x => (el_tag x = "Record" -> record_ok x) /\ (el_tag x = "Workout" -> workout_ok zf x))
    (closing_matches TAGS doc) ->
  (forall r1 r2, db_insert_pk "workouts" r1 = db_insert_pk "workouts" r2 -> r1 = r2) ->
  Forall (call_fits Kp Ka) (trace_of (convert_xml_to_sqlite fp false zf)) ->
  exists ys d, live_run TAGS [] (tokens_of doc) = Some ([], ys) /\
    outcome (consume zf false (map (fun e => GYield (el_tag e) e) ys)) = Ok tt /\
    run_storage [] (consume zf false (map (fun e => GYield (el_tag e) e) ys)) = (d, None).
Proof.
  intros Hrun Hev Ht Hn Hdoc Hinj Hfits. exists (closing_matches TAGS doc).
  rewrite <- (convert_consume fp zf evss doc Hrun Hev).
  destruct (convert_seqs fp false zf) as [n Hseq].
  pose proof (convert_calls_ok fp false zf) as Hb.
  destruct (db_exec_fits Kp Ka _ [] eq_refl Hb Hfits) as [d Hex].
  - intros t tb Ht'. discriminate.
  - exact (workout_digests_NoDup _ _ n Hinj Hb Hseq).
  - exists d. split_and!; [exact (live_run_export TAGS doc Ht Hn)| |exact Hex].
    exact (convert_completes fp false zf evss doc Hrun Hev Hdoc).
Qed.
End Complete.
