(* ===== verification/Witnesses.v ===== *)
(** * Concrete runs

    The program run on small exports: a document with one Record (with
    metadata), one Workout with an embedded route and one
    ActivitySummary; a document with 201 Records of one type, which
    makes the Record buffer flush during the loop and again at the end;
    a workout whose route is a side-car GPX file, present or missing; a
    document whose event stream is malformed.  The parser is
    [scripted_parser], which releases the document's events as the
    bytes come in, or, on the bytes [render] writes, the model of
    ElementTree [xml_parser]; the storage, file system and GPX parser are
    [table_collaborators].  Each lemma applies a theorem of the
    development at such an input, the hypotheses being discharged by
    evaluation. *)

From stdpp Require Import base list strings.
From Stdlib Require Import ZArith.
From S2P Require Import Prelude PyDict PyStr Utf8 Xml XmlParser Storage SqliteUtils Extractor XmlPipeline LiveTree Records Workout Convert Columns Database.

Local Open Scope string_scope.
Local Open Scope list_scope.

(** ** Inputs *)

Definition loc (lat : string) : element := Element "Location" [("lat", VStr lat)] [].

Definition heart_rate (v : string) : element :=
  Element "Record" [("type", VStr "HKQuantityTypeIdentifierHeartRate"); ("value", VStr v)] [].

Definition demo_workout : element :=
  Element "Workout" [("workoutActivityType", VStr "Run")]
    [Element "MetadataEntry" [("key", VStr "indoor"); ("value", VStr "0")] [];
     Element "WorkoutEvent" [("type", VStr "pause")] [];
     Element "WorkoutRoute" [] [loc "1"; loc "2"]].

Definition demo_doc : element :=
  Element "HealthData" [("locale", VStr "en")]
   [Element "Record" [("type", VStr "HKQuantityTypeIdentifierHeartRate"); ("value", VStr "60")]
      [Element "MetadataEntry" [("key", VStr "k"); ("value", VStr "v")] []];
    demo_workout;
    Element "ActivitySummary" [("dateComponents", VStr "2020-01-01")] []].

Definition many_records_doc : element :=
  Element "HealthData" [] (repeat (heart_rate "60") 201).

(** A parser that has every event of [doc] once the first byte is fed. *)
Definition doc_parser (doc : element) : PullParser :=
  scripted_parser (map (fun ev => (0, ev)) (events_of doc)).

(** An export file of ten bytes: one chunk. *)
Definition demo_fp : list Byte.byte := repeat Byte.x20 10.

(** The bytes of the exports, as [render] writes them. *)
Definition demo_bytes : list Byte.byte := export_bytes demo_doc.
Definition many_bytes : list Byte.byte := export_bytes many_records_doc.

Definition no_files : Collaborators := table_collaborators [] [].

Definition sidecar_workout : element :=
  Element "Workout" [("workoutActivityType", VStr "Walk")]
    [Element "WorkoutRoute" [] [Element "FileReference" [("path", VStr "/workout-routes/a.gpx")] []]].

Definition GPX_TEXT : string := "<?xml version='1.0'?>" +:+ String LF "<gpx/>".

Definition sidecar_files : Collaborators :=
  table_collaborators [("apple_health_export/workout-routes/a.gpx", String.list_byte_of_string GPX_TEXT)]
                      [("<gpx/>", [[("lat", VStr "1")]; [("lat", VStr "2")]])].

(** A malformed stream: an end tag before any start tag. *)
Definition bad_parser : PullParser :=
  scripted_parser [(0, EvEnd (heart_rate "1")); (0, EvStart (heart_rate "1"))].

Definition two_types : list row :=
  [[("type", VStr "HKQuantityTypeIdentifierHeartRate"); ("value", VStr "60")];
   [("type", VStr "HKCategoryTypeIdentifierSleepAnalysis"); ("value", VStr "asleep")];
   [("type", VStr "HKQuantityTypeIdentifierHeartRate"); ("value", VStr "61")]].

Definition two_types_routed : list (string * row) :=
  [("rHeartRate", [("value", VStr "60")]);
   ("rSleepAnalysis", [("value", VStr "asleep")]);
   ("rHeartRate", [("value", VStr "61")])].

(** ** The orchestrator *)

Lemma convert_summaries_doc_witness :
  rows_written "activity_summary"
    (trace_of (@convert_xml_to_sqlite no_files xml_parser demo_bytes true None)) =
  [[("dateComponents", VStr "2020-01-01")]].
Proof.
  rewrite (@convert_summaries_doc no_files xml_parser demo_bytes true None
             [events_of demo_doc] demo_doc); vm_compute; reflexivity.
Defined.

Lemma convert_records_doc_witness :
  length (record_rows (trace_of (@convert_xml_to_sqlite no_files xml_parser many_bytes false None))) = 201.
Proof.
  rewrite (@convert_records_doc no_files xml_parser many_bytes false None
             [events_of many_records_doc] many_records_doc); vm_compute; reflexivity.
Defined.

Lemma convert_progress_witness :
  progress_values (trace_of (@convert_xml_to_sqlite no_files (doc_parser demo_doc) demo_fp true None)) =
  [10%Z; SYS_MAXSIZE].
Proof.
  rewrite (@convert_progress no_files (doc_parser demo_doc) demo_fp None); vm_compute; reflexivity.
Defined.

Lemma convert_generator_error_witness :
  let gen := @find_all_tags bad_parser TAGS demo_fp true in
  let run := @convert_xml_to_sqlite no_files bad_parser demo_fp true None in
  outcome gen = Err (AttributeError "'NoneType' object has no attribute 'clear'") /\
  trace_of run = [] /\ outcome run = Err (AttributeError "'NoneType' object has no attribute 'clear'").
Proof.
  intros gen run. assert (Hg : outcome gen = Err (AttributeError "'NoneType' object has no attribute 'clear'"))
    by (vm_compute; reflexivity).
  destruct (@convert_generator_error no_files bad_parser demo_fp true None _ Hg) as [Ht Ho].
  split; [exact Hg|]. subst run. rewrite Ht, Ho. split; vm_compute; reflexivity.
Defined.

Lemma convert_completes_storage_witness :
  exists ys d, live_run TAGS [] (tokens_of demo_doc) = Some ([], ys) /\
    outcome (@consume no_files None false (map (fun e => GYield (el_tag e) e) ys)) = Ok tt /\
    @run_storage no_files _ [] (@consume no_files None false (map (fun e => GYield (el_tag e) e) ys)) = (d, None).
Proof.
  apply (@convert_completes_storage no_files xml_parser demo_bytes None [events_of demo_doc] demo_doc
           ["lat"; "workout_id"] ["dateComponents"]);
    [vm_compute; reflexivity|vm_compute; reflexivity
    |apply (bool_decide_unpack (el_tag demo_doc ∉ TAGS)); vm_compute; exact I
    |unfold no_nested; vm_compute; repeat constructor| |intros r1 r2 Hd; vm_compute in Hd; congruence
    |match goal with |- ?P => apply (bool_decide_unpack P) end; vm_compute; exact I].
  apply List.Forall_forall. intros x Hx. vm_compute in Hx.
  destruct Hx as [<-|[<-|[<-|[]]]]; split; intros Ht; vm_compute in Ht; try discriminate.
  - do 2 eexists. split; vm_compute; reflexivity.
  - split; [eexists; vm_compute; reflexivity|left; vm_compute; discriminate].
Defined.

(** ** The extractor *)

Lemma find_all_tags_refines_witness :
  yielded (trace_of (@find_all_tags (doc_parser demo_doc) TAGS demo_fp true)) =
  map (fun x => GYield (el_tag x) x) (closing_matches TAGS demo_doc).
Proof.
  apply (@find_all_tags_refines (doc_parser demo_doc) TAGS demo_fp true [events_of demo_doc] demo_doc);
    vm_compute; reflexivity.
Defined.

Lemma find_all_tags_progress_witness :
  progress_calls (trace_of (@find_all_tags (doc_parser demo_doc) TAGS demo_fp true)) = [10].
Proof.
  destruct (@find_all_tags_progress (doc_parser demo_doc) TAGS demo_fp [events_of demo_doc])
    as [-> _]; [vm_compute; reflexivity|exact I|vm_compute; reflexivity].
Defined.

(** ** The workout assembler *)

Lemma workout_to_db_embedded_witness :
  exists r, @workout_to_db no_files demo_workout None =
    ([EInsert "workouts" r workout_opts;
      EInsertAll "workout_points" (embedded_points (VDicts [r]) demo_workout) points_opts], Ok tt).
Proof.
  eexists. apply (@workout_to_db_embedded no_files demo_workout None); vm_compute; [reflexivity|discriminate].
Defined.

Lemma workout_to_db_sidecar_witness :
  files_opened (trace_of (@workout_to_db sidecar_files sidecar_workout None)) =
    ["apple_health_export/workout-routes/a.gpx"] /\
  length (rows_written "workout_points" (trace_of (@workout_to_db sidecar_files sidecar_workout None))) = 2.
Proof.
  rewrite (@workout_to_db_sidecar sidecar_files sidecar_workout None
             [("workoutActivityType", VStr "Walk"); ("workout_events", VDicts [])]
             ["apple_health_export/workout-routes/a.gpx"]
             [[[("lat", VStr "1")]; [("lat", VStr "2")]]]).
  - vm_compute. split; reflexivity.
  - vm_compute. reflexivity.
  - vm_compute. reflexivity.
  - vm_compute. reflexivity.
  - repeat constructor. eexists. split; vm_compute; reflexivity.
Defined.

Lemma workout_to_db_missing_sidecar_witness :
  trace_of (@workout_to_db no_files sidecar_workout None) =
    [EInsert "workouts" [("workoutActivityType", VStr "Walk"); ("workout_events", VDicts [])] workout_opts;
     EOpen false "apple_health_export/workout-routes/a.gpx"].
Proof.
  apply (@workout_to_db_missing_sidecar no_files sidecar_workout None _
           "apple_health_export/workout-routes/a.gpx" []); vm_compute; reflexivity.
Defined.

(** A side-car file holding the single byte 0xFF, which is not UTF-8. *)
Definition bad_sidecar_files : Collaborators :=
  table_collaborators [("apple_health_export/workout-routes/a.gpx", [Byte.xff])] [].

Lemma workout_to_db_undecodable_sidecar_witness :
  trace_of (@workout_to_db bad_sidecar_files sidecar_workout None) =
    [EInsert "workouts" [("workoutActivityType", VStr "Walk"); ("workout_events", VDicts [])] workout_opts;
     EOpen false "apple_health_export/workout-routes/a.gpx"] /\
  outcome (@workout_to_db bad_sidecar_files sidecar_workout None) =
    Err (UnicodeDecodeError "'utf-8' codec can't decode byte").
Proof.
  apply (@workout_to_db_undecodable_sidecar bad_sidecar_files sidecar_workout None _
           "apple_health_export/workout-routes/a.gpx" [] [Byte.xff]); try (vm_compute; reflexivity).
  intros cps Hs He. pose proof (decode_encode cps [] Hs) as Hd.
  rewrite app_nil_r, He in Hd. vm_compute in Hd. discriminate Hd.
Defined.

Lemma fold_metadata_ok_witness :
  fold_metadata [] (Element "Record" []
    [Element "MetadataEntry" [("key", VStr "k"); ("value", VStr "1")] [];
     Element "MetadataEntry" [("value", VStr "2"); ("key", VStr "k")] []]) =
  Ok [("metadata_k", VStr "2")].
Proof.
  rewrite (fold_metadata_ok [] _ [("k", VStr "1"); ("k", VStr "2")]); [vm_compute; reflexivity|].
  repeat constructor.
Defined.

Lemma add_metadata_value_first_witness :
  add_metadata [] (Element "MetadataEntry" [] []) = Err (KeyError "value").
Proof. apply add_metadata_value_first. reflexivity. Defined.

Lemma write_records_no_type_column_witness :
  Forall (fun r => "type" ∉ dict_keys r) (inserted_rows (trace_of (write_records two_types))).
Proof.
  apply write_records_no_type_column. apply (bool_decide_unpack (Forall dict_wf two_types)).
  vm_compute. exact I.
Defined.

Lemma write_records_count_witness : length (inserted_rows (trace_of (write_records two_types))) = 3.
Proof. apply (write_records_count two_types two_types_routed). vm_compute. reflexivity. Defined.

Lemma write_records_missing_type_witness :
  write_records (two_types ++ [[("value", VStr "62")]]) = ([], Err (KeyError "type")).
Proof.
  apply (write_records_missing_type _ [("value", VStr "62")]); [|vm_compute; tauto|reflexivity].
  repeat constructor; intros v Hv; vm_compute in Hv; try discriminate; injection Hv as <-; by eexists.
Defined.

(** ** Side-car files *)

Definition sidecar_row : row := [("workoutActivityType", VStr "Walk"); ("workout_events", VDicts [])].

Definition sidecar_points : list row :=
  [[("lat", VStr "1"); ("workout_id", VDicts [sidecar_row])];
   [("lat", VStr "2"); ("workout_id", VDicts [sidecar_row])]].

Lemma workout_to_db_points_reference_witness :
  exists r rest,
    workout_row sidecar_workout = Ok r /\
    trace_of (@workout_to_db sidecar_files sidecar_workout None) = EInsert "workouts" r workout_opts :: rest /\
    points_opts = points_opts /\ sidecar_points <> [] /\
    Forall (point_of (@db_insert_pk sidecar_files "workouts" r)) sidecar_points.
Proof.
  apply (@workout_to_db_points_reference sidecar_files sidecar_workout None sidecar_points points_opts).
  vm_compute. right. right. left. reflexivity.
Defined.

Lemma text_after_header_LF_witness : text_after_header GPX_TEXT = "<gpx/>".
Proof. apply (text_after_header_LF "<?xml version='1.0'?>" "<gpx/>"). reflexivity. Defined.

Lemma text_after_header_CRLF_witness :
  text_after_header ("<?xml?>" +:+ String CR (String LF ("<gpx>" +:+ String CR (String LF "</gpx>")))) =
  "<gpx>" +:+ String LF "</gpx>".
Proof. rewrite text_after_header_CRLF; reflexivity. Defined.

Lemma text_after_header_one_line_witness : text_after_header "<?xml?><gpx><trk/></gpx>" = "".
Proof. apply text_after_header_one_line. reflexivity. Defined.

(** ** The grouping of a batch *)

Lemma write_records_reference_witness :
  write_records two_types =
    ([EInsertAll "rHeartRate" [[("value", VStr "60")]; [("value", VStr "61")]] records_opts;
      EInsertAll "rSleepAnalysis" [[("value", VStr "asleep")]] records_opts], Ok tt).
Proof.
  rewrite (write_records_reference two_types two_types_routed); vm_compute; reflexivity.
Defined.

(** ** The live tree *)

Lemma live_refines_witness :
  live_run TAGS [] (tokens_of demo_doc) = Some ([], closing_matches TAGS demo_doc).
Proof.
  apply live_refines; [apply (bool_decide_unpack (el_tag demo_doc ∉ TAGS)); vm_compute; exact I|].
  unfold no_nested. vm_compute. repeat constructor.
Defined.

(** A document that is one Record with its metadata. *)
Definition single_record : element :=
  Element "Record" [("type", VStr "HKQuantityTypeIdentifierHeartRate"); ("value", VStr "60")]
    [Element "MetadataEntry" [("key", VStr "k"); ("value", VStr "v")] []].

Lemma live_root_emptied_witness :
  live_run TAGS [] (tokens_of single_record) = Some ([], [Element "Record" [] []]).
Proof.
  apply (live_root_emptied TAGS single_record); [apply (bool_decide_unpack (el_tag single_record ∈ TAGS)); vm_compute; exact I|].
  repeat constructor.
Defined.

Lemma live_root_record_raises_witness :
  outcome (@consume no_files None false [GYield "Record" (Element "Record" [] [])]) = Err (KeyError "type").
Proof.
  apply (@live_root_record_raises no_files None false
           [("type", VStr "HKQuantityTypeIdentifierHeartRate"); ("value", VStr "60")]
           [Element "MetadataEntry" [("key", VStr "k"); ("value", VStr "v")] []]
           [Element "Record" [] []] []); [repeat constructor|vm_compute; reflexivity].
Defined.

Lemma convert_record_tables_witness :
  exists routed, rmap record_route (doc_elements "Record" many_records_doc) = Ok routed /\
    forall t, String.prefix "r" t = true ->
      rows_written t (trace_of (@convert_xml_to_sqlite no_files xml_parser many_bytes false None)) =
      rows_for t routed.
Proof.
  apply (@convert_record_tables no_files xml_parser many_bytes false None
           [events_of many_records_doc] many_records_doc); vm_compute; reflexivity.
Defined.

Lemma convert_live_pipeline_witness :
  exists ys, live_run TAGS [] (tokens_of demo_doc) = Some ([], ys) /\
    @convert_xml_to_sqlite no_files xml_parser demo_bytes false None =
    @consume no_files None false (map (fun e => GYield (el_tag e) e) ys).
Proof.
  apply (@convert_live_pipeline no_files xml_parser demo_bytes None [events_of demo_doc] demo_doc);
    [vm_compute; reflexivity|vm_compute; reflexivity
    |apply (bool_decide_unpack (el_tag demo_doc ∉ TAGS)); vm_compute; exact I
    |unfold no_nested; vm_compute; repeat constructor].
Defined.

Lemma find_all_tags_export_witness :
  outcome (@find_all_tags xml_parser TAGS demo_bytes true) = Ok tt /\
  yielded (trace_of (@find_all_tags xml_parser TAGS demo_bytes true)) =
    map (fun x => GYield (el_tag x) x) (closing_matches TAGS demo_doc).
Proof. apply find_all_tags_export. vm_compute. reflexivity. Defined.

Lemma find_all_tags_truncated_witness :
  outcome (@find_all_tags xml_parser TAGS (take 150 demo_bytes) false) = Ok tt /\
  yielded (trace_of (@find_all_tags xml_parser TAGS (take 150 demo_bytes) false)) `prefix_of`
    map (fun x => GYield (el_tag x) x) (closing_matches TAGS demo_doc).
Proof.
  apply (find_all_tags_truncated TAGS demo_doc _ (drop 150 demo_bytes));
    [vm_compute; reflexivity|apply take_drop].
Defined.

Lemma find_all_tags_second_root_witness :
  yielded (trace_of (@find_all_tags xml_parser TAGS (demo_bytes ++ render single_record) true)) =
    map (fun x => GYield (el_tag x) x) (closing_matches TAGS demo_doc) /\
  outcome (@find_all_tags xml_parser TAGS (demo_bytes ++ render single_record) true) =
    Err (XmlParseError "junk after document element").
Proof. apply find_all_tags_second_root; vm_compute; reflexivity. Defined.

(** ** Against the storage *)

(** Side-car points carry the GPX parser's fields, embedded ones the
    Location element's attributes. *)
Definition gpx_fields_files : Collaborators :=
  table_collaborators [("apple_health_export/workout-routes/a.gpx", String.list_byte_of_string GPX_TEXT)]
                      [("<gpx/>", [[("latitude", VStr "1"); ("elevation", VStr "3")]])].

Definition route_workout : element :=
  Element "Workout" [("workoutActivityType", VStr "Run")]
    [Element "WorkoutRoute" [] [Element "Location" [("latitude", VStr "1"); ("altitude", VStr "9")] []]].

(** The database after the side-car workout was stored. *)
Definition after_sidecar : database :=
  fst (@run_storage gpx_fields_files _ [] (@workout_to_db gpx_fields_files sidecar_workout None)).

Definition route_row : row := [("workoutActivityType", VStr "Run"); ("workout_events", VDicts [])].

Definition route_points : list row := embedded_points (VDicts [route_row]) route_workout.

Definition sidecar_table : table :=
  mk_table ["latitude"; "elevation"; "workout_id"]
    [[("latitude", VStr "1"); ("elevation", VStr "3"); ("workout_id", VDicts [sidecar_row])]].

Lemma workout_to_db_unseen_point_column_witness :
  exists x, x ∉ tbl_columns sidecar_table /\
    snd (@run_storage gpx_fields_files _ after_sidecar (@workout_to_db gpx_fields_files route_workout None)) =
      Some (no_column "workout_points" x).
Proof.
  apply (@workout_to_db_unseen_point_column gpx_fields_files route_workout None route_row route_points
           after_sidecar sidecar_table).
  - vm_compute. reflexivity.
  - vm_compute. right. left. reflexivity.
  - vm_compute. reflexivity.
  - vm_compute. reflexivity.
  - vm_compute. repeat constructor.
  - exists (dict_set "workout_id" (VDicts [route_row]) [("latitude", VStr "1"); ("altitude", VStr "9")]), "altitude".
    split_and!; apply (bool_decide_unpack _); vm_compute; reflexivity.
Defined.

(** A record table that exists with other columns than the batch's. *)
Definition unit_only_db : database :=
  [("rHeartRate", mk_table ["unit"] [[("unit", VStr "count/min")]])].

Lemma write_records_schema_on_write_witness :
  exists d', @run_storage no_files _ unit_only_db (write_records two_types) = (d', None) /\
    forall t, table_rows t d' = table_rows t unit_only_db ++ rows_for t two_types_routed /\
      forall r x, r ∈ rows_for t two_types_routed -> x ∈ dict_keys r -> x ∈ table_columns t d'.
Proof.
  apply (@write_records_schema_on_write no_files two_types two_types_routed unit_only_db).
  - vm_compute. reflexivity.
  - vm_compute. repeat constructor; lia.
Defined.

Lemma convert_db_record_tables_witness :
  exists routed, rmap record_route (doc_elements "Record" many_records_doc) = Ok routed /\
    forall t, String.prefix "r" t = true ->
      table_rows t (fst (@run_storage no_files _ [] (@convert_xml_to_sqlite no_files xml_parser many_bytes false None))) =
      rows_for t routed.
Proof.
  apply (@convert_db_record_tables no_files xml_parser many_bytes false None
           [events_of many_records_doc] many_records_doc); vm_compute; reflexivity.
Defined.

(** A Record with nothing but its type. *)
Definition type_only : list row := [[("type", VStr "HKQuantityTypeIdentifierStepCount")]].

Lemma write_records_type_only_witness :
  @run_storage no_files _ [] (write_records type_only) =
    ([], Some (ZeroDivisionError "integer division or modulo by zero")).
Proof.
  apply (@write_records_type_only no_files type_only [("rStepCount", [])] "rStepCount" [] []);
    vm_compute; reflexivity.
Defined.

(** An export with the same workout twice: only [seq] tells them apart. *)
Definition twin_doc : element := Element "HealthData" [] [demo_workout; demo_workout].

(** A type with the quantity identifier in its middle. *)
Lemma table_name_inner_identifier_witness :
  table_name ("Foo" +:+ QUANTITY_ID +:+ "Bar") = "r" +:+ "Foo" +:+ "Bar" /\
  table_name ("Foo" +:+ CATEGORY_ID +:+ "Bar") = "r" +:+ "Foo" +:+ "Bar".
Proof. apply table_name_inner_identifier; reflexivity. Defined.

(** A FileReference that climbs out of the export directory. *)
Lemma gpx_path_roundtrip_witness :
  gpx_path (Element "FileReference" [("path", VStr "/workout-routes/../../../etc/route.gpx")] []) =
    Ok ("apple_health_export/" +:+ strip_slash "/workout-routes/../../../etc/route.gpx").
Proof. apply gpx_path_roundtrip; reflexivity. Defined.

Lemma convert_workout_keys_unique_witness :
  snd (@run_storage no_files _ [] (@convert_xml_to_sqlite no_files xml_parser (export_bytes twin_doc) false None))
    <> Some (IntegrityError "UNIQUE constraint failed: workouts.id").
Proof.
  apply (@convert_workout_keys_unique no_files xml_parser (export_bytes twin_doc) false None).
  intros r1 r2 Hd. vm_compute in Hd. congruence.
Defined.
